(** * relatos-automation: the intake conversation and the pending-download store

    A shallow embedding of [src/manage_downloads.py] and
    [src/workflow_manager.py], and the properties of the two that the
    specification states.

    Modelling choices, all of them visible in the definitions below:

    - Text is a Rocq [string] holding the UTF-8 bytes of a Python [str].
      [len] and slicing count characters (code points), not bytes.  The
      other functions of [str] that the code uses ([strip], [lower],
      [upper], [split], [startswith], ...) are written out for ASCII text:
      characters above 127 are carried along unchanged (they are neither
      white space nor letters here).
    - A Python dict read from JSON is a [gmap]; [pending.items()] is
      [map_to_list].  The pending file is [None] until it exists.
    - Time is an integer count of microseconds (the resolution of
      [datetime]).  Only the [getUpdates] calls and [time.sleep] let time
      pass; a call takes at least one microsecond.
    - The chat platform is an oracle: the [n]-th [getUpdates] call, given its
      request, yields a response and the time the call took.  The secondary
      file retrieval and the success of [answerCallbackQuery] are oracles
      too.
    - Every [send_message] call is recorded in an outbox as a [notice]: one
      constructor per message template, carrying the interpolated values
      (numbers before they are formatted).
    - Floats are exact rationals: [word_count / 150] is a [Q].
    - The [while] loops run on fuel; the section on termination shows that
      fuel for the duration of the timeout is always enough.
    - In [workflow_manager.py] the functions from [handle_download_commands]
      to [show_help] sit at module level and those from [send_message] to
      [collect_video_info] are indented under [show_help]; their docstring
      says they are to be added to the class [TelegramCollector].  Each
      function is embedded by its body, run on a collector that has the
      others for methods.  [main] looks up the two methods it calls in the
      class: as the file is written the class has neither, and [main_with]
      gives [main] for the class as written and as documented. *)

From Stdlib Require Import ZArith QArith Qround Ascii String List Sorted Lia.
From stdpp Require Import base gmap strings list fin_maps pretty.

Open Scope string_scope.
Open Scope list_scope.
Open Scope Z_scope.

(* ===================================================================== *)
(** ** Python string operations *)
(* ===================================================================== *)

Module Text.

(** [str.isspace] on ASCII: tab to carriage return, the four separators
    0x1c-0x1f and the space. *)
Definition is_space (c : ascii) : bool :=
  let n := nat_of_ascii c in
  (((9 <=? n) && (n <=? 13)) || ((28 <=? n) && (n <=? 32)))%nat.

Definition is_upper (c : ascii) : bool :=
  let n := nat_of_ascii c in ((65 <=? n) && (n <=? 90))%nat.

Definition is_lower (c : ascii) : bool :=
  let n := nat_of_ascii c in ((97 <=? n) && (n <=? 122))%nat.

Definition lower_char (c : ascii) : ascii :=
  if is_upper c then ascii_of_nat (nat_of_ascii c + 32) else c.

Definition upper_char (c : ascii) : ascii :=
  if is_lower c then ascii_of_nat (nat_of_ascii c - 32) else c.

Fixpoint map_chars (f : ascii -> ascii) (s : string) : string :=
  match s with
  | EmptyString => EmptyString
  | String c s' => String (f c) (map_chars f s')
  end.

(** [s.lower()] and [s.upper()] *)
Definition lower : string -> string := map_chars lower_char.
Definition upper : string -> string := map_chars upper_char.

(** [s.lstrip()], [s.rstrip()] and [s.strip()] *)
Fixpoint lstrip (s : string) : string :=
  match s with
  | EmptyString => EmptyString
  | String c s' => if is_space c then lstrip s' else s
  end.

Fixpoint rstrip (s : string) : string :=
  match s with
  | EmptyString => EmptyString
  | String c s' =>
      match rstrip s' with
      | EmptyString => if is_space c then EmptyString else String c EmptyString
      | r => String c r
      end
  end.

Definition strip (s : string) : string := lstrip (rstrip s).

(** [s.split(sep)] for a one-character separator: never an empty list. *)
Fixpoint split_on (sep : ascii) (s : string) : list string :=
  match s with
  | EmptyString => [EmptyString]
  | String c s' =>
      if Ascii.eqb c sep then EmptyString :: split_on sep s'
      else match split_on sep s' with
           | h :: t => String c h :: t
           | [] => [String c EmptyString]
           end
  end.

(** [s.split(sep, 1)]: at most one cut. *)
Fixpoint split_once (sep : ascii) (s : string) : list string :=
  match s with
  | EmptyString => [EmptyString]
  | String c s' =>
      if Ascii.eqb c sep then [EmptyString; s']
      else match split_once sep s' with
           | h :: t => String c h :: t
           | [] => [String c EmptyString]
           end
  end.

(** [s.split()]: the maximal runs of characters that are not white space. *)
Fixpoint split_ws (s : string) : list string :=
  match s with
  | EmptyString => []
  | String c s' =>
      if is_space c then split_ws s'
      else match s' with
           | EmptyString => [String c EmptyString]
           | String c' _ =>
               if is_space c' then String c EmptyString :: split_ws s'
               else match split_ws s' with
                    | h :: t => String c h :: t
                    | [] => [String c EmptyString]
                    end
           end
  end.

(** [s.startswith(p)] and [s.endswith(p)] *)
Definition startswith (p s : string) : bool := String.prefix p s.

Definition endswith (p s : string) : bool :=
  String.prefix (String.rev p) (String.rev s).

(** [sep.join(parts)] *)
Definition join (sep : string) (parts : list string) : string :=
  String.concat sep parts.

(** A continuation byte of UTF-8, [10xxxxxx]: every other byte starts a
    character. *)
Definition is_continuation (c : ascii) : bool :=
  let n := nat_of_ascii c in ((128 <=? n) && (n <=? 191))%nat.

(** [len(s)]: the number of characters (code points). *)
Fixpoint len (s : string) : nat :=
  match s with
  | EmptyString => O
  | String c s' => if is_continuation c then len s' else S (len s')
  end.

(** [s[:n]]: the first [n] characters, each with all its bytes. *)
Fixpoint take (n : nat) (s : string) : string :=
  match s with
  | EmptyString => EmptyString
  | String c s' =>
      if is_continuation c then String c (take n s')
      else match n with
           | O => EmptyString
           | S n' => String c (take n' s')
           end
  end.

(** [x in [a, b, ...]] for strings *)
Definition member (x : string) (l : list string) : bool :=
  existsb (String.eqb x) l.

(** The line feed, ["\n"]. *)
Definition nl : string := String (ascii_of_nat 10) EmptyString.

(** [not s]: the empty string is falsy. *)
Definition is_empty (s : string) : bool :=
  match s with EmptyString => true | _ => false end.

(** The number of occurrences of a character. *)
Fixpoint count_char (sep : ascii) (s : string) : nat :=
  match s with
  | EmptyString => O
  | String c s' => if Ascii.eqb c sep then S (count_char sep s') else count_char sep s'
  end.

End Text.

(* ===================================================================== *)
(** ** Data model *)
(* ===================================================================== *)

(** One microsecond is the unit of time. *)
Definition usec : Z := 1000000.
Definition hour : Z := 3600 * usec.

(** An entry of [productions/pending_downloads.json].  [confirmed] is
    optional: the code reads it with [info.get('confirmed')]. *)
Record entry := Entry {
  title : string;
  size_mb : Q;
  download_url : string;
  timestamp : Z;
  confirmed : option bool;
  confirmed_at : option Z;
  video_path : string
}.

(** The truth value of [info.get('confirmed')]. *)
Definition is_confirmed (info : entry) : bool :=
  match confirmed info with Some b => b | None => false end.

(** The record that [collect_video_info] builds and stores. *)
Record video_data := VideoData {
  video_id : string;
  vd_timestamp : Z;
  vd_title : string;
  description : string;
  tags : list string;
  script : string;
  status : string;
  word_count : Z;
  estimated_duration : Q
}.

(** The content of [productions/cancel_flag.json]. *)
Record cancel_data := CancelData {
  cd_cancelled : bool;
  cd_timestamp : Z;
  cd_reason : option string
}.

(** Inbound updates, with the optional keys the code tests for. *)
Record document := Document {
  file_name : option string;
  file_id : string
}.

Record message := Message {
  msg_chat : string;             (* str(message['chat']['id']) *)
  text : option string;
  doc : option document
}.

Record callback_query := CallbackQuery {
  cb_id : string;
  cb_data : option string
}.

Record update := Update {
  update_id : Z;
  upd_message : option message;
  upd_callback : option callback_query
}.

(** A row of the pending list as it is rendered. *)
Record row := Row {
  row_id : string;
  row_info : entry;
  row_age : Z
}.

(** Outbound traffic: one constructor per message template. *)
Inductive notice :=
  (* manage_downloads.py *)
  | DMNothingPending
  | DMPendingList (rows : list row)
  | DMCleanupDone (confirmed_count remaining : nat)
  | DMExpiredDone (expired_count : nat) (hours : Z) (remaining : nat)
  | DMInvalidId (id : string)
  | DMConfirmed (ttl : string) (size : Q)
  | DMRemoveError
  | DMAlreadyRemoved
  (* workflow_manager.py: downloads *)
  | NothingPending
  | PendingList (rows : list row)
  | NoPendingFile
  | InvalidId (id : string)
  | ConfirmedRemoved (ttl : string) (size : Q) (remaining : nat)
  | ConfirmedAlreadyGone (remaining : nat)
  | NothingToClean
  | CleanupDone (confirmed_count removed_count remaining : nat)
  | ExpiredDone (expired_count : nat) (hours : Z) (removed_count remaining : nat)
  | ConfirmUsage
  | Help
  | AnswerCallback (id : string) (what : string)
  (* workflow_manager.py: conversation *)
  | CancelledLong
  | CancelledShort
  | Reminder (remaining_minutes : Z)
  | ScriptPrompt
  | FileReceived
  | FileError
  | NoScriptYet
  | PartReceived (part_number : nat) (words_so_far : nat)
  | Welcome
  | AskTitle
  | TimedOut
  | TitleOk (ttl : string)
  | AskDescription
  | DescriptionOk (head : string)
  | AskTags
  | TagsOk (count : nat)
  | NoScript
  | Summary (words : Z) (minutes : Q) (segments : Z) (preview : string)
  | ProductionError.

(** Everything the two programs read and write. *)
Record world := World {
  update_offset : Z;                       (* self.update_offset *)
  cancelled : bool;                        (* self.cancelled *)
  clock : Z;                               (* time.time(), datetime.now() *)
  polls : nat;                             (* getUpdates calls made so far *)
  outbox : list notice;                    (* oldest first *)
  seen : list (Z * Z);                     (* updates taken from a batch:
                                              (update_id, cursor at that point) *)
  cancel_flag : option cancel_data;        (* CANCEL_FLAG_FILE *)
  pending_file : option (gmap string entry);   (* PENDING_FILE *)
  disk : gset string;                      (* the video files that exist *)
  locked : gset string;                    (* files whose os.remove raises *)
  productions : gmap string video_data     (* productions/<video_id>.json *)
}.

Definition set_offset (o : Z) (w : world) : world :=
  World o (cancelled w) (clock w) (polls w) (outbox w) (seen w)
        (cancel_flag w) (pending_file w) (disk w) (locked w) (productions w).

Definition set_cancelled (b : bool) (w : world) : world :=
  World (update_offset w) b (clock w) (polls w) (outbox w) (seen w)
        (cancel_flag w) (pending_file w) (disk w) (locked w) (productions w).

Definition set_clock (t : Z) (w : world) : world :=
  World (update_offset w) (cancelled w) t (polls w) (outbox w) (seen w)
        (cancel_flag w) (pending_file w) (disk w) (locked w) (productions w).

Definition set_polls (n : nat) (w : world) : world :=
  World (update_offset w) (cancelled w) (clock w) n (outbox w) (seen w)
        (cancel_flag w) (pending_file w) (disk w) (locked w) (productions w).

Definition set_outbox (o : list notice) (w : world) : world :=
  World (update_offset w) (cancelled w) (clock w) (polls w) o (seen w)
        (cancel_flag w) (pending_file w) (disk w) (locked w) (productions w).

Definition set_seen (s : list (Z * Z)) (w : world) : world :=
  World (update_offset w) (cancelled w) (clock w) (polls w) (outbox w) s
        (cancel_flag w) (pending_file w) (disk w) (locked w) (productions w).

Definition set_cancel_flag (c : option cancel_data) (w : world) : world :=
  World (update_offset w) (cancelled w) (clock w) (polls w) (outbox w) (seen w)
        c (pending_file w) (disk w) (locked w) (productions w).

Definition set_pending_file (p : option (gmap string entry)) (w : world) : world :=
  World (update_offset w) (cancelled w) (clock w) (polls w) (outbox w) (seen w)
        (cancel_flag w) p (disk w) (locked w) (productions w).

Definition set_disk (d : gset string) (w : world) : world :=
  World (update_offset w) (cancelled w) (clock w) (polls w) (outbox w) (seen w)
        (cancel_flag w) (pending_file w) d (locked w) (productions w).

Definition set_productions (p : gmap string video_data) (w : world) : world :=
  World (update_offset w) (cancelled w) (clock w) (polls w) (outbox w) (seen w)
        (cancel_flag w) (pending_file w) (disk w) (locked w) p.

(** [send_message]: the result of the call is ignored by every caller. *)
Definition send_message (n : notice) (w : world) : world :=
  set_outbox (outbox w ++ [n]) w.

(* ===================================================================== *)
(** ** The pending-download store *)
(* ===================================================================== *)

(** [if os.path.exists(p): try: os.remove(p) except: ...]; the boolean tells
    whether the file was removed. *)
Definition remove_file (path : string) (w : world) : bool * world :=
  if decide (path ∈ disk w) then
    if decide (path ∈ locked w) then (false, w)
    else (true, set_disk (disk w ∖ {[path]}) w)
  else (false, w).

(** The loop shared by the four clean-up functions: walk the items, and for
    each selected entry remove its file, note its id in [to_remove] and
    count it.  Returns [to_remove], the number of selected entries and the
    number of files removed. *)
Fixpoint sweep (selected : entry -> bool) (items : list (string * entry))
    (w : world) : list string * nat * nat * world :=
  match items with
  | [] => ([], O, O, w)
  | (id, info) :: rest =>
      if selected info then
        let '(removed, w1) := remove_file (video_path info) w in
        let '(to_remove, count, removed_count, w2) := sweep selected rest w1 in
        (id :: to_remove, S count,
         if removed then S removed_count else removed_count, w2)
      else sweep selected rest w
  end.

(** [for video_id in to_remove: del pending[video_id]] *)
Definition delete_all (to_remove : list string) (pending : gmap string entry)
    : gmap string entry :=
  foldl (fun m id => delete id m) pending to_remove.

(** [not info.get('confirmed') and timestamp < cutoff] *)
Definition expired (cutoff : Z) (info : entry) : bool :=
  negb (is_confirmed info) && (timestamp info <? cutoff).

(** The rows shown by the two list commands. *)
Definition rows_of (now : Z) (pending : gmap string entry) : list row :=
  map (fun kv => Row (fst kv) (snd kv) (now - timestamp (snd kv)))
      (map_to_list pending).

Module DownloadManager.

Definition load_pending (w : world) : gmap string entry :=
  match pending_file w with
  | None => ∅
  | Some pending => pending
  end.

(** [json.dump] into the pending file.  The directory [productions/] is
    taken to be there, as it is whenever the pending file exists;
    [manage_downloads.py] does not create it, and without it [open] raises
    before anything is written. *)
Definition save_pending (data : gmap string entry) (w : world) : world :=
  set_pending_file (Some data) w.

Definition list_pending (w : world) : world :=
  let pending := load_pending w in
  if decide (pending = ∅) then send_message DMNothingPending w
  else send_message (DMPendingList (rows_of (clock w) pending)) w.

Definition cleanup_confirmed (w : world) : world :=
  let pending := load_pending w in
  let '(to_remove, confirmed_count, _, w1) :=
    sweep is_confirmed (map_to_list pending) w in
  let pending' := delete_all to_remove pending in
  let w2 := save_pending pending' w1 in
  send_message (DMCleanupDone confirmed_count (size pending')) w2.

(** [cutoff = datetime.now() - timedelta(hours=hours)] is an exact
    subtraction here.  Python's raises [OverflowError] when the result
    leaves the years 1 to 9999, which the threshold of 24 hours that every
    caller passes does not do. *)
Definition cleanup_expired (hours : Z) (w : world) : world :=
  let pending := load_pending w in
  let cutoff := clock w - hours * hour in
  let '(to_remove, expired_count, _, w1) :=
    sweep (expired cutoff) (map_to_list pending) w in
  let pending' := delete_all to_remove pending in
  let w2 := save_pending pending' w1 in
  send_message (DMExpiredDone expired_count hours (size pending')) w2.

Definition confirm_download (id : string) (w : world) : bool * world :=
  let pending := load_pending w in
  match pending !! id with
  | None => (false, send_message (DMInvalidId id) w)
  | Some info =>
      let w1 :=
        if decide (video_path info ∈ disk w) then
          if decide (video_path info ∈ locked w) then
            send_message DMRemoveError w
          else
            send_message (DMConfirmed (title info) (size_mb info))
              (set_disk (disk w ∖ {[video_path info]}) w)
        else send_message DMAlreadyRemoved w in
      (true, save_pending (delete id pending) w1)
  end.

(** What [main] itself prints (the sweeps print too; those lines are not
    modelled). *)
Inductive printed :=
  | PrintedNothing
  | PrintedUsage
  | PrintedInvalidCommand.

(** [main()], with [argv] standing for [sys.argv]: the name of the script
    first. *)
Definition main (argv : list string) (w : world) : printed * world :=
  match argv with
  | [] | [_] => (PrintedUsage, w)
  | _ :: arg1 :: rest =>
      let command := Text.lower arg1 in
      if String.eqb command "list" then (PrintedNothing, list_pending w)
      else if String.eqb command "cleanup" then
        (PrintedNothing, cleanup_confirmed w)
      else if String.eqb command "expired" then
        (PrintedNothing, cleanup_expired 24 w)
      else if String.eqb command "confirm" && (length argv =? 3)%nat then
        match rest with
        | video_id :: _ => (PrintedNothing, snd (confirm_download video_id w))
        | [] => (PrintedInvalidCommand, w)
        end
      else (PrintedInvalidCommand, w)
  end.

End DownloadManager.

(* ===================================================================== *)
(** ** The collector of workflow_manager.py *)
(* ===================================================================== *)

(** What a computation of the collector ends with: a value, the
    [WorkflowCancelled] exception (or another one), or an exhausted
    recursion budget of the model. *)
Inductive exn := WorkflowCancelled | OtherError.

Inductive outcome (A : Type) :=
  | Done (a : A)
  | Raised (e : exn)
  | OutOfFuel.
Arguments Done {A} a.
Arguments Raised {A} e.
Arguments OutOfFuel {A}.

Definition M (A : Type) : Type := world -> outcome A * world.

Definition ret {A} (a : A) : M A := fun w => (Done a, w).

Definition bind {A B} (m : M A) (k : A -> M B) : M B :=
  fun w =>
    match m w with
    | (Done a, w1) => k a w1
    | (Raised e, w1) => (Raised e, w1)
    | (OutOfFuel, w1) => (OutOfFuel, w1)
    end.

Definition raise {A} (e : exn) : M A := fun w => (Raised e, w).

(** A step that only changes the world. *)
Definition act (f : world -> world) : M unit := fun w => (Done tt, f w).

(** A step that cannot raise. *)
Definition pure_step {A} (f : world -> A * world) : M A :=
  fun w => let (a, w1) := f w in (Done a, w1).

Declare Scope collector_scope.
Delimit Scope collector_scope with collector.
Notation "x <- c1 ;; c2" := (bind c1 (fun x => c2))
  (at level 100, c1 at next level, right associativity) : collector_scope.
Notation "c1 ;; c2" := (bind c1 (fun _ => c2))
  (at level 100, right associativity) : collector_scope.

(** The long-poll request and what comes back. *)
Record request := Request { req_offset : Z; req_timeout : Z }.

Inductive reply :=
  | Failed                          (* the call raised: time-out, bad JSON *)
  | NotOk                           (* result.get('ok') is falsy *)
  | Ok (updates : list update).     (* result.get('result', []) *)

Record response := Response { elapsed : positive; body : reply }.

(** The secondary content retrieval: [getFile] followed by the download. *)
Inductive fetch_result :=
  | FetchRaised
  | FetchNotOk
  | FetchOk (content : string).

(** What [create_video.run_production] (not part of this repository's
    sources) may do. *)
Definition production := video_data -> M bool.

(** [time.sleep(n)] *)
Definition sleep (seconds : Z) (w : world) : world :=
  set_clock (clock w + seconds * usec) w.

(** [int(x)] on a float: truncation towards zero. *)
Definition py_int (x : Q) : Z := Z.quot (Qnum x) (Zpos (Qden x)).

Definition cancel_words : list string :=
  ["/cancel"; "/cancelar"; "cancel"; "cancelar"].

Definition finish_words : list string :=
  ["PRONTO"; "DONE"; "FIM"; "FINISH"].

(** [message.get('text', '')] *)
Definition text_of (m : message) : string :=
  match text m with Some t => t | None => "" end.

(** [not x] for a value that is a string or [None]. *)
Definition falsy (x : option string) : bool :=
  match x with None => true | Some s => Text.is_empty s end.

(** The first statement of every [for update in updates] body. *)
Definition advance (u : update) (w : world) : world :=
  set_offset (update_id u + 1) w.

(** The rest of the body starts here: the update is now looked at. *)
Definition observe (u : update) (w : world) : world :=
  set_seen (seen w ++ [(update_id u, update_offset w)]) w.

(** Which [return] of [collect_script_multipart] was taken, with the
    fragments held at that point. *)
Inductive script_exit :=
  | ByDocument (content : string)
  | BySentinel (parts : list string)
  | ByTimeout (parts : list string).

Definition script_value (e : script_exit) : option string :=
  match e with
  | ByDocument content => Some content
  | BySentinel parts => Some (Text.join Text.nl parts)
  | ByTimeout [] => None
  | ByTimeout parts => Some (Text.join Text.nl parts)
  end.

Inductive batch_result :=
  | Exit (e : script_exit)
  | Cancel
  | Continue (parts : list string).

Module TelegramCollector.
Section Collector.

Variable feed : nat -> request -> response.
Variable get_file : string -> fetch_result.
Variable answer_fails : string -> bool.
Variable TELEGRAM_BOT_TOKEN TELEGRAM_CHAT_ID : option string.
Variable run_production : production.

(** [str(self.chat_id)] *)
Definition chat_id : string :=
  match TELEGRAM_CHAT_ID with Some s => s | None => "None" end.

(** One [requests.get(.../getUpdates)] followed by [response.json()]. *)
Definition get_updates (offset timeout : Z) (w : world) : reply * world :=
  let r := feed (polls w) (Request offset timeout) in
  (body r, set_polls (S (polls w)) (set_clock (clock w + Zpos (elapsed r)) w)).

Definition _get_last_update_id (w : world) : Z * world :=
  let (r, w1) := get_updates (-1) 0 w in
  match r with
  | Ok (u :: _) => (update_id u + 1, w1)
  | _ => (0, w1)
  end.

(** [TelegramCollector()] *)
Definition init (w : world) : world :=
  let (o, w1) := _get_last_update_id w in
  set_cancelled false (set_offset o w1).

(* --------------------------- downloads ------------------------------- *)

Definition list_pending_downloads (w : world) : world :=
  match pending_file w with
  | None => send_message NothingPending w
  | Some pending =>
      if decide (pending = ∅) then send_message NothingPending w
      else send_message (PendingList (rows_of (clock w) pending)) w
  end.

Definition confirm_download (id : string) (w : world) : world :=
  match pending_file w with
  | None => send_message NoPendingFile w
  | Some pending =>
      match pending !! id with
      | None => send_message (InvalidId id) w
      | Some info =>
          let '(removed, w1) := remove_file (video_path info) w in
          let pending' := delete id pending in
          let w2 := set_pending_file (Some pending') w1 in
          if removed then
            send_message
              (ConfirmedRemoved (title info) (size_mb info) (size pending')) w2
          else send_message (ConfirmedAlreadyGone (size pending')) w2
      end
  end.

Definition cleanup_confirmed_downloads (w : world) : world :=
  match pending_file w with
  | None => send_message NothingToClean w
  | Some pending =>
      let '(to_remove, confirmed_count, removed_count, w1) :=
        sweep is_confirmed (map_to_list pending) w in
      let pending' := delete_all to_remove pending in
      let w2 := set_pending_file (Some pending') w1 in
      send_message (CleanupDone confirmed_count removed_count (size pending')) w2
  end.

(** The cutoff as in [DownloadManager.cleanup_expired]. *)
Definition cleanup_expired_downloads (hours : Z) (w : world) : world :=
  match pending_file w with
  | None => send_message NothingToClean w
  | Some pending =>
      let cutoff := clock w - hours * hour in
      let '(to_remove, expired_count, removed_count, w1) :=
        sweep (expired cutoff) (map_to_list pending) w in
      let pending' := delete_all to_remove pending in
      let w2 := set_pending_file (Some pending') w1 in
      send_message
        (ExpiredDone expired_count hours removed_count (size pending')) w2
  end.

Definition show_help (w : world) : world := send_message Help w.

(** The whole body is inside [try]: when the [answerCallbackQuery] post
    raises, nothing else is done. *)
Definition handle_callback (callback : callback_query) (w : world) : world :=
  let callback_data := match cb_data callback with Some d => d | None => "" end in
  if answer_fails (cb_id callback) then w
  else if Text.startswith "confirm:" callback_data then
    match Text.split_once ":" callback_data with
    | _ :: id :: _ =>
        confirm_download id
          (send_message (AnswerCallback (cb_id callback) "Processando... ⏳") w)
    | _ => w
    end
  else if String.eqb callback_data "cleanup_confirmed" then
    cleanup_confirmed_downloads
      (send_message (AnswerCallback (cb_id callback) "Limpando... 🗑️") w)
  else if String.eqb callback_data "cleanup_expired" then
    cleanup_expired_downloads 24
      (send_message (AnswerCallback (cb_id callback) "Removendo expirados... ⚠️") w)
  else send_message (AnswerCallback (cb_id callback) "Comando desconhecido") w.

Fixpoint commands_batch (updates : list update) (w : world) : world :=
  match updates with
  | [] => w
  | u :: rest =>
      let w := observe u (advance u w) in
      match upd_callback u with
      | Some callback => commands_batch rest (handle_callback callback w)
      | None =>
          match upd_message u with
          | None => commands_batch rest w
          | Some m =>
              if negb (String.eqb (msg_chat m) chat_id) then commands_batch rest w
              else
                let text := Text.strip (text_of m) in
                if negb (Text.startswith "/" text) then commands_batch rest w
                else if String.eqb text "/downloads" || String.eqb text "/list"
                then commands_batch rest (list_pending_downloads w)
                else if Text.startswith "/confirm " text then
                  match Text.split_ws text with
                  | [_; id] => commands_batch rest (confirm_download id w)
                  | _ => commands_batch rest (send_message ConfirmUsage w)
                  end
                else if String.eqb text "/cleanup"
                then commands_batch rest (cleanup_confirmed_downloads w)
                else if String.eqb text "/help"
                then commands_batch rest (show_help w)
                else commands_batch rest w
          end
      end
  end.

Definition handle_download_commands (w : world) : world :=
  let (r, w1) := get_updates (update_offset w) 0 w in
  match r with
  | Ok updates => commands_batch updates w1
  | _ => w1
  end.

(* --------------------------- cancellation ---------------------------- *)

Fixpoint cancel_batch (updates : list update) (w : world) : bool * world :=
  match updates with
  | [] => (false, w)
  | u :: rest =>
      let w := observe u (advance u w) in
      match upd_message u with
      | None => cancel_batch rest w
      | Some m =>
          if negb (String.eqb (msg_chat m) chat_id) then cancel_batch rest w
          else
            let text := Text.lower (Text.strip (text_of m)) in
            if Text.member text cancel_words then
              let w := set_cancelled true w in
              let w := set_cancel_flag
                         (Some (CancelData true (clock w)
                                  (Some "User requested cancellation"))) w in
              (true, send_message CancelledLong w)
            else cancel_batch rest w
      end
  end.

Definition check_for_cancel (w : world) : bool * world :=
  let (r, w1) := get_updates (update_offset w) 0 w in
  match r with
  | Ok updates => cancel_batch updates w1
  | _ => (false, w1)
  end.

(* --------------------------- one answer ------------------------------ *)

Fixpoint wait_batch (updates : list update) : M (option string) :=
  fun w =>
  match updates with
  | [] => (Done None, w)
  | u :: rest =>
      let w := observe u (advance u w) in
      match upd_message u with
      | None => wait_batch rest w
      | Some m =>
          if negb (String.eqb (msg_chat m) chat_id) then wait_batch rest w
          else
            let text := Text.strip (text_of m) in
            if Text.member (Text.lower text) cancel_words then
              let w := set_cancelled true w in
              let w := set_cancel_flag
                         (Some (CancelData true (clock w) None)) w in
              (Raised WorkflowCancelled, send_message CancelledShort w)
            else if Text.is_empty text then wait_batch rest w
            else (Done (Some text), w)
      end
  end.

Fixpoint wait_loop (fuel : nat) (timeout check_cancel_interval : Z)
    (start_time last_reminder last_cancel_check : Z) : M (option string) :=
  fun w =>
  match fuel with
  | O => (OutOfFuel, w)
  | S fuel =>
      if clock w - start_time <? timeout * usec then
        let elapsed := clock w - start_time in
        let check : M Z :=
          if elapsed - last_cancel_check >=? check_cancel_interval * usec then
            fun w => let (c, w1) := check_for_cancel w in
                     if c then (Raised WorkflowCancelled, w1)
                     else (Done elapsed, w1)
          else ret last_cancel_check in
        (last_cancel_check <- check ;;
         last_reminder <-
           (if Z.quot elapsed usec / 120 >? last_reminder then
              act (send_message
                     (Reminder (Z.quot (timeout * usec - elapsed) (60 * usec)))) ;;
              ret (Z.quot elapsed usec / 120)
            else ret last_reminder) ;;
         r <- pure_step (fun w => get_updates (update_offset w) 10 w) ;;
         match r with
         | Failed =>
             act (sleep 5) ;;
             wait_loop fuel timeout check_cancel_interval
               start_time last_reminder last_cancel_check
         | NotOk =>
             act (sleep 3) ;;
             wait_loop fuel timeout check_cancel_interval
               start_time last_reminder last_cancel_check
         | Ok updates =>
             found <- wait_batch updates ;;
             match found with
             | Some text => ret (Some text)
             | None =>
                 wait_loop fuel timeout check_cancel_interval
                   start_time last_reminder last_cancel_check
             end
         end)%collector w
      else (Done None, w)
  end.

Definition wait_for_message (fuel : nat) (timeout check_cancel_interval : Z)
    : M (option string) :=
  fun w => wait_loop fuel timeout check_cancel_interval (clock w) 0 0 w.

(* --------------------------- the script ------------------------------ *)

(** [sum(len(p.split()) for p in roteiro_partes)] *)
Definition count_words (parts : list string) : nat :=
  list_sum (map (fun p => length (Text.split_ws p)) parts).

Fixpoint script_batch (updates : list update) (parts : list string)
    (w : world) : batch_result * world :=
  match updates with
  | [] => (Continue parts, w)
  | u :: rest =>
      let w := observe u (advance u w) in
      match upd_message u with
      | None => script_batch rest parts w
      | Some m =>
          if negb (String.eqb (msg_chat m) chat_id) then script_batch rest parts w
          else
            let on_text (w : world) : batch_result * world :=
              let text := Text.strip (text_of m) in
              if Text.is_empty text then script_batch rest parts w
              else if Text.member (Text.lower text) cancel_words then (Cancel, w)
              else if Text.member (Text.upper text) finish_words then
                match parts with
                | [] => script_batch rest parts (send_message NoScriptYet w)
                | _ => (Exit (BySentinel parts), w)
                end
              else
                let parts := (parts ++ [text])%list in
                script_batch rest parts
                  (send_message
                     (PartReceived (length parts) (count_words parts)) w) in
            match doc m with
            | None => on_text w
            | Some d =>
                let file_name :=
                  match file_name d with Some n => n | None => "" end in
                if Text.endswith ".txt" file_name then
                  let w := send_message FileReceived w in
                  match get_file (file_id d) with
                  | FetchOk content => (Exit (ByDocument content), w)
                  | FetchRaised =>
                      script_batch rest parts (send_message FileError w)
                  | FetchNotOk => on_text w
                  end
                else on_text w
            end
      end
  end.

Fixpoint script_loop (fuel : nat) (timeout start_time : Z)
    (parts : list string) : M script_exit :=
  fun w =>
  match fuel with
  | O => (OutOfFuel, w)
  | S fuel =>
      if clock w - start_time <? timeout * usec then
        let remaining_time :=
          Z.quot (timeout * usec - (clock w - start_time)) usec in
        if remaining_time <=? 0 then (Done (ByTimeout parts), w)
        else
          let (r, w1) :=
            get_updates (update_offset w) (Z.min 30 remaining_time) w in
          match r with
          | Failed => script_loop fuel timeout start_time parts (sleep 5 w1)
          | NotOk => script_loop fuel timeout start_time parts (sleep 3 w1)
          | Ok updates =>
              match script_batch updates parts w1 with
              | (Exit e, w2) => (Done e, w2)
              | (Cancel, w2) => (Raised WorkflowCancelled, w2)
              | (Continue parts, w2) =>
                  script_loop fuel timeout start_time parts w2
              end
          end
      else (Done (ByTimeout parts), w)
  end.

(** The script step with the label of the [return] that ended it. *)
Definition script_step (fuel : nat) (timeout : Z) : M script_exit :=
  fun w =>
    let w := send_message ScriptPrompt w in
    script_loop fuel timeout (clock w) [] w.

Definition collect_script_multipart (fuel : nat) (timeout : Z)
    : M (option string) :=
  (e <- script_step fuel timeout ;; ret (script_value e))%collector.

(* --------------------------- the conversation ------------------------ *)

(** [tags = [tag.strip() for tag in tags_text.split(',')]] *)
Definition parse_tags (tags_text : string) : list string :=
  map Text.strip (Text.split_on "," tags_text).

Definition count_script_words (roteiro : string) : Z :=
  Z.of_nat (length (Text.split_ws roteiro)).

(** [palavra_count / 150] *)
Definition duration_minutes (palavra_count : Z) : Q :=
  (inject_Z palavra_count / inject_Z 150)%Q.

(** [int(tempo_estimado * 2)] *)
Definition segments (tempo_estimado : Q) : Z :=
  py_int (tempo_estimado * inject_Z 2)%Q.

(** [roteiro[:200] + '...' if len(roteiro) > 200 else roteiro] *)
Definition preview_of (roteiro : string) : string :=
  if (200 <? Text.len roteiro)%nat
  then Text.take 200 roteiro +:+ "..."
  else roteiro.

(** The notice sent once the script is in. *)
Definition summary_of (roteiro : string) : notice :=
  let palavra_count := count_script_words roteiro in
  let tempo_estimado := duration_minutes palavra_count in
  Summary palavra_count tempo_estimado (segments tempo_estimado)
          (preview_of roteiro).

(** The dict assembled at the end of [collect_video_info]. *)
Definition make_video_data (now : Z) (titulo descricao : string)
    (tags : list string) (roteiro : string) : video_data :=
  let palavra_count := count_script_words roteiro in
  VideoData ("video_" +:+ pretty (Z.quot now usec)) now titulo descricao tags
            roteiro "collected" palavra_count (duration_minutes palavra_count).

(** [try: ... except WorkflowCancelled: return None] *)
Definition catch_cancelled {A} (m : M (option A)) : M (option A) :=
  fun w =>
    match m w with
    | (Raised WorkflowCancelled, w1) => (Done None, w1)
    | r => r
    end.

(** Lines 759-798: the script step and what follows it. *)
Definition script_phase (fuel : nat) (titulo descricao : string)
    (tags : list string) : M (option video_data) :=
  (roteiro <- collect_script_multipart fuel 900 ;;
   if falsy roteiro then
     act (send_message NoScript) ;; ret None
   else
     let roteiro := match roteiro with Some s => s | None => "" end in
     act (send_message (summary_of roteiro)) ;;
     fun w =>
       let video_data := make_video_data (clock w) titulo descricao tags roteiro in
       (Done (Some video_data),
        set_productions (<[video_id video_data := video_data]> (productions w)) w)
  )%collector.

Definition collect_video_info (fuel : nat) : M (option video_data) :=
  catch_cancelled
   (act (set_cancel_flag None) ;;
    act (send_message Welcome) ;;
    act (sleep 2) ;;
    act (send_message AskTitle) ;;
    titulo <- wait_for_message fuel 600 5 ;;
    if falsy titulo then act (send_message TimedOut) ;; ret None
    else
      let titulo := match titulo with Some s => s | None => "" end in
      act (send_message (TitleOk titulo)) ;;
      act (sleep 2) ;;
      act (send_message AskDescription) ;;
      descricao <- wait_for_message fuel 600 5 ;;
      if falsy descricao then act (send_message TimedOut) ;; ret None
      else
        let descricao := match descricao with Some s => s | None => "" end in
        act (send_message (DescriptionOk (Text.take 100 descricao))) ;;
        act (sleep 2) ;;
        act (send_message AskTags) ;;
        tags_text <- wait_for_message fuel 600 5 ;;
        if falsy tags_text then act (send_message TimedOut) ;; ret None
        else
          let tags_text := match tags_text with Some s => s | None => "" end in
          let tags := parse_tags tags_text in
          act (send_message (TagsOk (length tags))) ;;
          act (sleep 2) ;;
          script_phase fuel titulo descricao tags)%collector.

(* --------------------------- the process ------------------------------ *)

(** What a collector has for methods.  The body of [class TelegramCollector]
    ends at line 53: as the file is written the class binds [__init__] and
    [_get_last_update_id] and nothing else, the functions of lines 60-408
    being module-level functions and those of lines 410-802 local functions
    of [show_help].  Their [self] parameter and the docstring of lines 55-58
    say that they are meant to be methods of the class; [AsDocumented] is
    the class with all of them in it. *)
Inductive layout := AsWritten | AsDocumented.

Definition attributes (l : layout) : list string :=
  let in_class := ["__init__"; "_get_last_update_id"] in
  match l with
  | AsWritten => in_class
  | AsDocumented =>
      in_class ++
      ["handle_download_commands"; "handle_callback";
       "list_pending_downloads"; "confirm_download";
       "cleanup_confirmed_downloads"; "cleanup_expired_downloads";
       "show_help"; "send_message"; "check_for_cancel"; "wait_for_message";
       "collect_script_multipart"; "collect_video_info"]
  end.

(** [collector.name(...)]: the attribute is looked up first, and a name that
    the class does not bind raises [AttributeError]. *)
Definition call_method {A} (l : layout) (name : string) (body : M A) : M A :=
  if Text.member name (attributes l) then body else raise OtherError.

(** [main()] for a class laid out as [l]: the value handed to [sys.exit].
    The handler of [except Exception] makes a collector of its own and
    reports the error inside [try: ... except: pass]. *)
Definition main_with (l : layout) (fuel : nat) : M Z :=
  fun w =>
  if falsy TELEGRAM_BOT_TOKEN then (Done 1, w)
  else if falsy TELEGRAM_CHAT_ID then (Done 1, w)
  else
    let body : M Z :=
      (act init ;;
       video_data <- call_method l "collect_video_info"
                       (collect_video_info fuel) ;;
       match video_data with
       | None => ret 1
       | Some video_data =>
           success <- run_production video_data ;;
           if success then ret 0 else ret 1
       end)%collector in
    match body w with
    | (Raised WorkflowCancelled, w1) => (Done 2, w1)
    | (Raised OtherError, w1) =>
        let report : M unit :=
          call_method l "send_message" (act (send_message ProductionError)) in
        (Done 1, snd (report (init w1)))
    | r => r
    end.

(** [main()] of the file as it is written. *)
Definition main (fuel : nat) : M Z := main_with AsWritten fuel.

End Collector.
End TelegramCollector.


(* ===================================================================== *)
(** ** Vocabulary of the statements *)
(* ===================================================================== *)

(** A sweep touches the video files and nothing else. *)
Definition same_but_disk (w w' : world) : Prop :=
  update_offset w' = update_offset w /\ cancelled w' = cancelled w /\
  clock w' = clock w /\ polls w' = polls w /\ outbox w' = outbox w /\
  seen w' = seen w /\ cancel_flag w' = cancel_flag w /\
  pending_file w' = pending_file w /\ locked w' = locked w /\
  productions w' = productions w /\ disk w' ⊆ disk w.

(** The ids shown by a list notice. *)
Definition shown_ids (n : notice) : list string :=
  match n with
  | DMPendingList rows | PendingList rows => map row_id rows
  | _ => []
  end.

(** The notices by which [TelegramCollector.confirm_download] reports that
    there is nothing to confirm under the id: no pending file at all, or no
    such id in it. *)
Definition not_found_notice (id : string) (n : notice) : Prop :=
  n = NoPendingFile \/ n = InvalidId id.

(** *** The update cursor *)

(** What [observe] logs for a run of updates taken one after the other. *)
Definition trace_of (l : list update) : list (Z * Z) :=
  map (fun u => (update_id u, update_id u + 1)) l.

(** The cursor after taking the updates of [l], starting from [o]. *)
Definition cursor_after (o : Z) (l : list update) : Z :=
  match last l with
  | Some u => update_id u + 1
  | None => o
  end.

(** The ids of [l] are at or after [o] and strictly increasing. *)
Fixpoint ascending_from (o : Z) (l : list update) : Prop :=
  match l with
  | [] => True
  | u :: rest => o <= update_id u /\ ascending_from (update_id u + 1) rest
  end.

(** The contract of the update feed: a call with offset [o] returns updates
    with strictly increasing sequence numbers, none below [o]. *)
Definition honest (feed : nat -> request -> response) : Prop :=
  forall n req,
    match body (feed n req) with
    | Ok updates => ascending_from (req_offset req) updates
    | _ => True
    end.

(** A reply that brings no update: a failed call or an empty batch. *)
Definition dull (r : reply) : Prop :=
  match r with
  | Ok (_ :: _) => False
  | _ => True
  end.

(** [w'] is [w] after some more updates [new] were taken. *)
Definition extends (w w' : world) : Prop :=
  exists new,
    seen w' = (seen w ++ trace_of new)%list /\
    update_offset w' = cursor_after (update_offset w) new /\
    ascending_from (update_offset w) new.

(** Neither the cursor nor the log moved. *)
Definition steady (w w' : world) : Prop :=
  update_offset w' = update_offset w /\ seen w' = seen w.

(** The operations that poll the feed. *)
Inductive poll_op :=
  | WaitForMessage (timeout check_cancel_interval : Z)
  | CheckForCancel
  | CollectScript (timeout : Z)
  | HandleDownloadCommands.

Definition run_op (feed : nat -> request -> response)
    (get_file : string -> fetch_result) (answer_fails : string -> bool)
    (chat : option string) (fuel : nat) (op : poll_op) (w : world) : world :=
  match op with
  | WaitForMessage timeout interval =>
      snd (TelegramCollector.wait_for_message feed chat fuel timeout interval w)
  | CheckForCancel => snd (TelegramCollector.check_for_cancel feed chat w)
  | CollectScript timeout =>
      snd (TelegramCollector.collect_script_multipart
             feed get_file chat fuel timeout w)
  | HandleDownloadCommands =>
      TelegramCollector.handle_download_commands feed answer_fails chat w
  end.

Definition run_ops (feed : nat -> request -> response)
    (get_file : string -> fetch_result) (answer_fails : string -> bool)
    (chat : option string) (fuel : nat) (ops : list poll_op) (w : world)
    : world :=
  foldl (fun w op => run_op feed get_file answer_fails chat fuel op w) w ops.

(** *** The script step *)

(** What one update can do to the script step that holds the fragments
    [parts], in the world [w1] reached once the update has been taken: go on
    with the rest of the batch (with the same fragments or one more, not
    empty), return a document, return on the finish sentinel (only with a
    fragment in hand), or cancel. *)
Inductive script_turn (get_file : string -> fetch_result) (chat : option string)
    (rest : list update) (parts : list string) (w1 : world)
    : batch_result * world -> Prop :=
  | turn_next parts' w2 :
      steady w1 w2 ->
      clock w2 = clock w1 ->
      parts' = parts \/
      (exists t, Text.is_empty t = false /\ parts' = parts ++ [t]) ->
      script_turn get_file chat rest parts w1
        (TelegramCollector.script_batch get_file chat rest parts' w2)
  | turn_document content w2 :
      script_turn get_file chat rest parts w1 (Exit (ByDocument content), w2)
  | turn_sentinel w2 :
      steady w1 w2 ->
      parts <> [] ->
      script_turn get_file chat rest parts w1 (Exit (BySentinel parts), w2)
  | turn_cancel w2 :
      steady w1 w2 ->
      script_turn get_file chat rest parts w1 (Cancel, w2).

(** *** The conversation, as the specification words it *)



(** The record a conversation ended with, if any. *)
Definition record_of (o : outcome (option video_data)) : option video_data :=
  match o with
  | Done r => r
  | _ => None
  end.

(** The worlds in which the four questions are asked. *)
Definition ask_title (start : world) : world :=
  send_message AskTitle
    (sleep 2 (send_message Welcome (set_cancel_flag None start))).

Definition ask_description (titulo : string) (w : world) : world :=
  send_message AskDescription (sleep 2 (send_message (TitleOk titulo) w)).

Definition ask_tags (descricao : string) (w : world) : world :=
  send_message AskTags
    (sleep 2 (send_message (DescriptionOk (Text.take 100 descricao)) w)).

Definition ask_script (tags_text : string) (w : world) : world :=
  sleep 2
    (send_message
       (TagsOk (length (TelegramCollector.parse_tags tags_text))) w).

(** A conversation started in [start] in which one of the three one-line
    steps gets no reply before its ten minutes are over; the last argument is
    the world in which [wait_for_message] gives up. *)
Inductive step_timed_out (feed : nat -> request -> response)
    (chat : option string) (fuel : nat) (start : world) : world -> Prop :=
  | title_timed_out w1 :
      TelegramCollector.wait_for_message feed chat fuel 600 5 (ask_title start)
      = (Done None, w1) ->
      step_timed_out feed chat fuel start w1
  | description_timed_out titulo wa w1 :
      TelegramCollector.wait_for_message feed chat fuel 600 5 (ask_title start)
      = (Done (Some titulo), wa) ->
      TelegramCollector.wait_for_message feed chat fuel 600 5
        (ask_description titulo wa)
      = (Done None, w1) ->
      step_timed_out feed chat fuel start w1
  | tags_timed_out titulo wa descricao wb w1 :
      TelegramCollector.wait_for_message feed chat fuel 600 5 (ask_title start)
      = (Done (Some titulo), wa) ->
      TelegramCollector.wait_for_message feed chat fuel 600 5
        (ask_description titulo wa)
      = (Done (Some descricao), wb) ->
      TelegramCollector.wait_for_message feed chat fuel 600 5
        (ask_tags descricao wb)
      = (Done None, w1) ->
      step_timed_out feed chat fuel start w1.

(** A conversation started in [start] whose script step runs out of time
    without a single fragment. *)
Definition script_timed_out (feed : nat -> request -> response)
    (get_file : string -> fetch_result) (chat : option string) (fuel : nat)
    (start w1 : world) : Prop :=
  exists titulo wa descricao wb tags_text wc,
    TelegramCollector.wait_for_message feed chat fuel 600 5 (ask_title start)
    = (Done (Some titulo), wa) /\
    TelegramCollector.wait_for_message feed chat fuel 600 5
      (ask_description titulo wa)
    = (Done (Some descricao), wb) /\
    TelegramCollector.wait_for_message feed chat fuel 600 5
      (ask_tags descricao wb)
    = (Done (Some tags_text), wc) /\
    TelegramCollector.script_step feed get_file chat fuel 900
      (ask_script tags_text wc)
    = (Done (ByTimeout []), w1).

(** *** The store after a sweep *)

(** What is left of an entry once the selected entries are swept. *)
Definition kept_by (selected : entry -> bool) (o : option entry) : option entry :=
  match o with
  | Some info => if selected info then None else Some info
  | None => None
  end.

(** Some selected entry of the mapping is backed by the file [path]. *)
Definition backs (selected : entry -> bool) (pending : gmap string entry)
    (path : string) : Prop :=
  exists id info, pending !! id = Some info /\ selected info = true /\
                  video_path info = path.

(** The store part of a world: the pending file and the video files. *)
Definition same_store (w w' : world) : Prop :=
  pending_file w' = pending_file w /\ disk w' = disk w.

(** [w'] is [w] after a sweep of the selected entries, saved. *)
Definition swept (selected : entry -> bool) (w w' : world) : Prop :=
  (forall id, DownloadManager.load_pending w' !! id
              = kept_by selected (DownloadManager.load_pending w !! id)) /\
  (forall path, path ∈ disk w' <->
     path ∈ disk w /\
     (path ∈ locked w \/
      ~ backs selected (DownloadManager.load_pending w) path)) /\
  clock w' = clock w /\ locked w' = locked w /\
  (is_Some (pending_file w) -> is_Some (pending_file w')) /\
  (is_Some (pending_file w') -> is_Some (pending_file w) \/
                                 pending_file w' = Some ∅).

(** The rows shown by a list notice. *)
Definition shown_rows (n : notice) : list row :=
  match n with
  | DMPendingList rows | PendingList rows => rows
  | _ => []
  end.

(** *** The collector and the rest of the world *)

(** An update that is not a message of the operator. *)
Definition stranger (chat : option string) (u : update) : Prop :=
  match upd_message u with
  | Some m => msg_chat m <> TelegramCollector.chat_id chat
  | None => True
  end.

(** Taking updates without acting on them. *)
Definition skim (l : list update) (w : world) : world :=
  foldl (fun w u => observe u (advance u w)) w l.

(** The store and the production records are as they were. *)
Definition same_files (w w' : world) : Prop :=
  pending_file w' = pending_file w /\ disk w' = disk w /\
  locked w' = locked w /\ productions w' = productions w.

(** The cancellation marker is as it was. *)
Definition same_marker (w w' : world) : Prop :=
  cancelled w' = cancelled w /\ cancel_flag w' = cancel_flag w.

(** The cancellation marker is set. *)
Definition marked (w : world) : Prop :=
  cancelled w = true /\
  exists data, cancel_flag w = Some data /\ cd_cancelled data = true.

(** The notices about received fragments, in the order they were sent. *)
Definition is_part (n : notice) : bool :=
  match n with PartReceived _ _ => true | _ => false end.

Definition part_reports (o : list notice) : list notice := List.filter is_part o.

(** The notices that the script step sends for the fragments [more] received
    one after the other when it already holds [have]. *)
Fixpoint reports (have more : list string) : list notice :=
  match more with
  | [] => []
  | t :: rest =>
      PartReceived (length (have ++ [t]))
        (TelegramCollector.count_words (have ++ [t]))
      :: reports (have ++ [t]) rest
  end.

(** How [wait_for_message] can end, seen from the world [w] it started in,
    with [start] and [reminder] the loop's [start_time] and
    [last_reminder]. *)
Definition wait_outcome (timeout start reminder : Z) (w : world)
    (r : outcome (option string) * world) : Prop :=
  match r with
  | (Done x, w') =>
      same_files w w' /\ same_marker w w' /\ clock w <= clock w' /\
      (exists rs,
         outbox w' = outbox w ++ map Reminder rs /\
         reminder + Z.of_nat (length rs)
         <= Z.max reminder (Z.quot (clock w' - start) usec / 120)) /\
      match x with
      | None => timeout * usec <= clock w' - start
      | Some t =>
          Text.is_empty t = false /\ Text.strip t = t /\
          Text.member (Text.lower t) cancel_words = false
      end
  | (Raised e, w') =>
      e = WorkflowCancelled /\ same_files w w' /\ marked w' /\
      clock w <= clock w' /\
      (last (outbox w') = Some CancelledLong \/
       last (outbox w') = Some CancelledShort)
  | (OutOfFuel, _) => True
  end.

(** A text without white space. *)
Fixpoint spaceless (s : string) : bool :=
  match s with
  | EmptyString => true
  | String c s' => negb (Text.is_space c) && spaceless s'
  end.

(** The notices that the script step sends while it collects. *)
Definition script_notice (n : notice) : bool :=
  match n with
  | PartReceived _ _ | NoScriptYet | FileReceived | FileError => true
  | _ => false
  end.

(** What the script step has done when it went from holding [parts] in the
    world [w] to holding [held] in [w']: it has sent [sent], and [more] are
    the fragments it has accepted on the way. *)
Definition collected (parts : list string) (w : world)
    (held : option (list string)) (w' : world) : Prop :=
  same_files w w' /\ same_marker w w' /\ clock w <= clock w' /\
  exists more sent,
    outbox w' = outbox w ++ sent /\
    forallb script_notice sent = true /\
    part_reports sent = reports parts more /\
    match held with Some ps => ps = parts ++ more | None => True end.

(** The fragments held at an exit of the step, when it ends by the finish
    sentinel or by the timeout. *)
Definition held_at (e : script_exit) : option (list string) :=
  match e with
  | BySentinel ps | ByTimeout ps => Some ps
  | ByDocument _ => None
  end.

(** The fragments held when a batch has been gone through. *)
Definition batch_held (r : batch_result) : option (list string) :=
  match r with
  | Continue ps => Some ps
  | Exit e => held_at e
  | Cancel => None
  end.

(** The store of pending downloads is as it was. *)
Definition store_kept (w w' : world) : Prop :=
  pending_file w' = pending_file w /\ disk w' = disk w /\
  locked w' = locked w.

(** A step of the conversation that writes no file: it leaves the marker
    alone too, unless it ends by the cancellation signal, which is the only
    exception it lets out. *)
Definition kept_quiet {A} (w : world) (r : outcome A * world) : Prop :=
  match r with
  | (Done _, w') => same_files w w' /\ same_marker w w'
  | (Raised e, w') =>
      e = WorkflowCancelled /\ same_files w w' /\
      (same_marker w w' \/ marked w')
  | (OutOfFuel, _) => True
  end.

(** The same for the steps that end the conversation: a record that is
    returned has been written under its identifier. *)
Definition talked (w : world) (r : outcome (option video_data) * world)
    : Prop :=
  match r with
  | (Done (Some record), w') =>
      store_kept w w' /\ same_marker w w' /\
      productions w' = <[video_id record := record]> (productions w)
  | (Done None, w') => same_files w w' /\ same_marker w w'
  | (Raised e, w') =>
      e = WorkflowCancelled /\ same_files w w' /\
      (same_marker w w' \/ marked w')
  | (OutOfFuel, _) => True
  end.

(** From [w] to [w'] the store has only lost entries and files: every
    entry still pending was pending before, unchanged, no file has
    appeared, and the marker and the production records are as they
    were. *)
Definition only_removed (w w' : world) : Prop :=
  (forall id info,
     DownloadManager.load_pending w' !! id = Some info ->
     DownloadManager.load_pending w !! id = Some info) /\
  disk w' ⊆ disk w /\ locked w' = locked w /\
  productions w' = productions w /\ same_marker w w'.

(* ===================================================================== *)
(** ** Scripted feeds, used to run the model on concrete conversations *)
(* ===================================================================== *)

Module Scenario.

(** A long poll on which nothing arrives: it lasts as long as asked for. *)
Definition quiet (r : request) : response :=
  Response (Z.to_pos (req_timeout r * usec + 1)) (Ok []).

(** The server hands out only the updates at or after the requested
    offset. *)
Definition from_offset (offset : Z) (r : reply) : reply :=
  match r with
  | Ok updates => Ok (filter (fun u => bool_decide (offset <= update_id u)) updates)
  | _ => r
  end.

(** The feed that answers the [n]-th call with the [n]-th response of a
    script, and stays quiet afterwards. *)
Definition serve (script : list response) (n : nat) (r : request) : response :=
  match nth_error script n with
  | Some resp => Response (elapsed resp) (from_offset (req_offset r) (body resp))
  | None => quiet r
  end.

Definition me : string := "42".

Definition says (id : Z) (who what : string) : update :=
  Update id (Some (Message who (Some what) None)) None.

Definition uploads (id : Z) (who name file : string) : update :=
  Update id (Some (Message who None (Some (Document (Some name) file)))) None.

Definition presses (id : Z) (cb data : string) : update :=
  Update id None (Some (CallbackQuery cb (Some data))).

(** One second. *)
Definition sec : positive := 1000000.

Definition fresh : world :=
  World 0 false 0 O [] [] None None ∅ ∅ ∅.

Definition no_files (file : string) : fetch_result := FetchNotOk.

Definition answers_ok (cb : string) : bool := false.

Definition production_ok : production := fun _ => ret true.


(** A store with three entries, looked at 25 hours after midnight: one made
    at midnight and never confirmed, one made an hour later (24 hours old
    to the microsecond), one made at midnight and confirmed. *)
Definition stale : entry :=
  Entry "Stale" (120 # 1) "https://example.org/stale" 0 (Some false) None
        "videos/stale.mp4".

Definition edge : entry :=
  Entry "Edge" (80 # 1) "https://example.org/edge" hour None None
        "videos/edge.mp4".

Definition kept : entry :=
  Entry "Kept" (64 # 1) "https://example.org/kept" 0 (Some true) (Some hour)
        "videos/kept.mp4".

Definition shelf : gmap string entry :=
  <["download_1" := stale]> (<["download_2" := edge]> (<["download_3" := kept]> ∅)).

Definition store_world : world :=
  World 0 false (25 * hour) O [] [] None (Some shelf)
        {["videos/stale.mp4"; "videos/kept.mp4"]} ∅ ∅.


(** A session in which the operator answers, presses a button, sends a
    command and a stranger interferes; the third call fails. *)
Definition busy_script : list response :=
  [ Response sec (Ok [says 11 "7" "hello"; says 12 me "  "; says 13 me "D-Day"]);
    Response sec (Ok [says 13 me "D-Day"; says 14 me "/downloads"]);
    Response sec Failed;
    Response sec (Ok [presses 15 "cb1" "cleanup_confirmed";
                      says 16 me "/confirm download_3"]);
    Response sec (Ok [says 17 me "Part one."; says 18 me "PRONTO";
                      says 19 me "late"]);
    Response sec NotOk;
    Response sec (Ok [says 19 me "late"; says 20 me "/cancel"]) ].

Definition busy_ops : list poll_op :=
  [ WaitForMessage 600 5; HandleDownloadCommands; CheckForCancel;
    HandleDownloadCommands; CollectScript 900; CheckForCancel;
    WaitForMessage 600 5 ].

Definition busy_start : world :=
  World 11 false 0 O [] [] None (Some shelf)
        {["videos/stale.mp4"; "videos/kept.mp4"]} ∅ ∅.


(** The finish sentinel typed before any fragment. *)
Definition early_pronto : update := says 5 me "pronto".

(** One fragment, then silence until the script step gives up. *)
Definition one_part_script : list response :=
  [ Response sec (Ok [says 1 me "Only part"]) ].

(** Silence from the start. *)
Definition silent_script : list response := [].

(** The script sent as two fragments and the finish sentinel, one message
    per poll; the same in a single batch; and as an uploaded text file. *)
Definition two_parts : string := "Part one." +:+ Text.nl +:+ "Part two.".

Definition fragments_script : list response :=
  [ Response sec (Ok [says 1 me "Part one."]);
    Response sec (Ok [says 2 me "Part two."]);
    Response sec (Ok [says 3 me "PRONTO"]) ].

Definition fragments_batch_script : list response :=
  [ Response sec (Ok [says 1 me "Part one."; says 2 me "Part two.";
                      says 3 me "PRONTO"]) ].

Definition document_script : list response :=
  [ Response sec (Ok [uploads 1 me "roteiro.txt" "file-1"]) ].

Definition file_store (file : string) : fetch_result :=
  if String.eqb file "file-1" then FetchOk two_parts else FetchNotOk.


(** The conversation of the specification's end-to-end scenario; the first
    response answers the call made when the collector is created. *)
Definition dday_script : list response :=
  [ Response sec (Ok []);
    Response sec (Ok [says 1 me "D-Day"]);
    Response sec (Ok [says 2 me "desc"]);
    Response sec (Ok [says 3 me "WWII, History"]);
    Response sec (Ok [says 4 me "Hello world"; says 5 me "PRONTO"]) ].


(** The operator cancels instead of giving a description. *)
Definition cancel_script : list response :=
  [ Response sec (Ok []);
    Response sec (Ok [says 1 me "D-Day"]);
    Response sec (Ok [says 2 me "/cancel"]) ].

(** A production step that is cancelled, and one that fails. *)
Definition production_cancelled : production :=
  fun _ => raise WorkflowCancelled.

Definition production_broken : production := fun _ => raise OtherError.


(** A feed that breaks its contract: whatever the offset asked for, it
    hands out update 3 again. *)
Definition replaying (n : nat) (r : request) : response :=
  Response sec (Ok [says 3 me "again"]).

Definition at_ten : world :=
  World 10 false 0 O [] [] None None ∅ ∅ ∅.

End Scenario.

(* ===================================================================== *)
(** ** The store: what a sweep removes *)
(* ===================================================================== *)

Section StoreFacts.

Implicit Types (w : world) (pending : gmap string entry) (info : entry).


Lemma same_but_disk_refl w : same_but_disk w w.
Proof. unfold same_but_disk; repeat split; done. Qed.

Lemma same_but_disk_trans w1 w2 w3 :
  same_but_disk w1 w2 -> same_but_disk w2 w3 -> same_but_disk w1 w3.
Proof.
  unfold same_but_disk; intros H1 H2.
  destruct H1 as (?&?&?&?&?&?&?&?&?&?&?), H2 as (?&?&?&?&?&?&?&?&?&?&?).
  repeat split; try congruence. etrans; eassumption.
Qed.

Lemma remove_file_frame path w :
  same_but_disk w (snd (remove_file path w)).
Proof.
  unfold remove_file. repeat case_decide; simpl;
    try apply same_but_disk_refl.
  unfold same_but_disk; simpl; repeat split; try done.
  apply subseteq_difference_l. done.
Qed.

Lemma remove_file_removed path w :
  fst (remove_file path w) = true ->
  path ∈ disk w /\ path ∉ disk (snd (remove_file path w)).
Proof.
  unfold remove_file. repeat case_decide; simpl; try discriminate.
  intros _. split; [done |]. apply not_elem_of_difference. right.
  by apply elem_of_singleton.
Qed.

(** The ids a sweep collects are those of the selected items; it counts
    them; it removes at most that many files. *)
Lemma sweep_spec selected items w :
  match sweep selected items w with
  | (to_remove, count, removed_count, w') =>
      to_remove = map fst (List.filter (fun kv => selected (snd kv)) items) /\
      count = length to_remove /\
      (removed_count <= count)%nat /\
      same_but_disk w w'
  end.
Proof.
  revert w. induction items as [|[id info] rest IH]; intros w; simpl.
  - split; [done|]. split; [done|]. split; [lia|]. apply same_but_disk_refl.
  - destruct (selected info) eqn:Hsel.
    + destruct (remove_file (video_path info) w) as [removed w1] eqn:Hrm.
      specialize (IH w1).
      destruct (sweep selected rest w1) as [[[tr c] r] w2].
      destruct IH as (-> & -> & Hle & Hfr). simpl.
      split; [done|]. split; [done|]. split.
      * destruct removed; lia.
      * eapply same_but_disk_trans; [|exact Hfr].
        pose proof (remove_file_frame (video_path info) w) as H.
        now rewrite Hrm in H.
    + apply IH.
Qed.

Lemma lookup_delete_all to_remove pending id :
  delete_all to_remove pending !! id =
  if decide (id ∈ to_remove) then None else pending !! id.
Proof.
  unfold delete_all. revert pending.
  induction to_remove as [|k ks IH]; intros pending; simpl.
  - destruct (decide (id ∈ [])) as [H|H]; [|done].
    by apply not_elem_of_nil in H.
  - rewrite IH. destruct (decide (k = id)) as [->|Hne].
    + rewrite lookup_delete_eq.
      destruct (decide (id ∈ id :: ks)) as [H|H];
        destruct (decide (id ∈ ks)); try done;
        exfalso; apply H; left.
    + rewrite lookup_delete_ne by done.
      destruct (decide (id ∈ k :: ks)) as [H|H];
        destruct (decide (id ∈ ks)) as [H'|H']; try done.
      * apply elem_of_cons in H. destruct H; congruence.
      * exfalso. apply H. by right.
Qed.

Lemma swept_ids selected pending id :
  id ∈ map fst (List.filter (fun kv => selected (snd kv)) (map_to_list pending))
  <-> exists info, pending !! id = Some info /\ selected info = true.
Proof.
  rewrite list_elem_of_In, in_map_iff. split.
  - intros [[k info] [Hk Hin]]. simpl in Hk. subst k.
    apply filter_In in Hin. destruct Hin as [Hin Hsel]. simpl in Hsel.
    exists info. split; [|done].
    apply elem_of_map_to_list. now apply list_elem_of_In.
  - intros [info [Hl Hsel]]. exists (id, info). split; [done|].
    apply filter_In. split; [|done].
    apply list_elem_of_In. now apply elem_of_map_to_list.
Qed.

(** What is left of the mapping after the swept ids are deleted. *)
Lemma lookup_after_sweep selected pending id :
  delete_all
    (map fst (List.filter (fun kv => selected (snd kv)) (map_to_list pending)))
    pending !! id =
  match pending !! id with
  | Some info => if selected info then None else Some info
  | None => None
  end.
Proof.
  rewrite lookup_delete_all. case_decide as Hin.
  - apply swept_ids in Hin. destruct Hin as [info [-> ->]]. done.
  - destruct (pending !! id) as [info|] eqn:Hl; [|done].
    destruct (selected info) eqn:Hsel; [|done].
    exfalso. apply Hin. apply swept_ids. eauto.
Qed.

(** A sweep that selects nothing is the identity on the mapping. *)
Lemma delete_all_nil pending : delete_all [] pending = pending.
Proof. reflexivity. Qed.

End StoreFacts.

Section StoreOperations.

Implicit Types (w : world) (pending : gmap string entry) (info : entry).

Lemma sweep_none selected items w :
  (forall id info, (id, info) ∈ items -> selected info = false) ->
  sweep selected items w = ([], O, O, w).
Proof.
  induction items as [|[id info] rest IH]; intros Hall; simpl; [done|].
  rewrite (Hall id info) by left.
  apply IH. intros id' info' Hin. apply (Hall id' info'). by right.
Qed.


Lemma rows_of_ids now pending id :
  id ∈ map row_id (rows_of now pending) <-> is_Some (pending !! id).
Proof.
  unfold rows_of. rewrite map_map. simpl.
  rewrite list_elem_of_In, in_map_iff. split.
  - intros [[k info] [Hk Hin]]. simpl in Hk. subst k.
    exists info. apply elem_of_map_to_list. by apply list_elem_of_In.
  - intros [info Hl]. exists (id, info). split; [done|].
    apply list_elem_of_In. by apply elem_of_map_to_list.
Qed.

(** The mapping left by [DownloadManager.cleanup_expired]. *)
Lemma dm_cleanup_expired_lookup hours w id :
  DownloadManager.load_pending (DownloadManager.cleanup_expired hours w) !! id =
  match DownloadManager.load_pending w !! id with
  | Some info =>
      if expired (clock w - hours * hour) info then None else Some info
  | None => None
  end.
Proof.
  unfold DownloadManager.cleanup_expired.
  pose proof (sweep_spec (expired (clock w - hours * hour))
                (map_to_list (DownloadManager.load_pending w)) w) as Hs.
  destruct (sweep _ _ w) as [[[tr c] r] w1].
  destruct Hs as (-> & _ & _ & _). simpl.
  apply lookup_after_sweep.
Qed.

(** The mapping left by [cleanup_expired_downloads]. *)
Lemma wm_cleanup_expired_lookup hours w id :
  DownloadManager.load_pending
    (TelegramCollector.cleanup_expired_downloads hours w) !! id =
  match DownloadManager.load_pending w !! id with
  | Some info =>
      if expired (clock w - hours * hour) info then None else Some info
  | None => None
  end.
Proof.
  unfold TelegramCollector.cleanup_expired_downloads,
    DownloadManager.load_pending at 2.
  destruct (pending_file w) as [pending|] eqn:Hfile.
  - pose proof (sweep_spec (expired (clock w - hours * hour))
                  (map_to_list pending) w) as Hs.
    destruct (sweep _ _ w) as [[[tr c] r] w1].
    destruct Hs as (-> & _ & _ & _). simpl.
    apply lookup_after_sweep.
  - unfold DownloadManager.load_pending. simpl. rewrite Hfile. done.
Qed.

Lemma expired_unconfirmed now hours info :
  is_confirmed info = false ->
  expired (now - hours * hour) info = true <->
  now - timestamp info > hours * hour.
Proof.
  intros Hc. unfold expired. rewrite Hc. simpl.
  rewrite Z.ltb_lt. lia.
Qed.

Lemma expired_confirmed cutoff info :
  is_confirmed info = true -> expired cutoff info = false.
Proof. intros Hc. unfold expired. by rewrite Hc. Qed.

End StoreOperations.

(* ===================================================================== *)
(** ** Claims about the pending-download store *)
(* ===================================================================== *)

(** C1.  For an entry that is in the pending mapping, created at
    [timestamp info], and both implementations of the expiry clean-up
    ([DownloadManager.cleanup_expired] and [cleanup_expired_downloads])
    run with a threshold of 24 hours at time [clock w]: an entry that is not
    confirmed is removed if and only if its age exceeds 24 hours, an entry
    whose age is exactly 24 hours is kept, and a confirmed entry is kept. *)
Theorem cleanup_expired_boundary (w : world) (id : string) (info : entry) :
  DownloadManager.load_pending w !! id = Some info ->
  let age := clock w - timestamp info in
  let after_dm :=
    DownloadManager.load_pending (DownloadManager.cleanup_expired 24 w) in
  let after_wm :=
    DownloadManager.load_pending
      (TelegramCollector.cleanup_expired_downloads 24 w) in
  (is_confirmed info = false ->
     (after_dm !! id = None <-> age > 24 * hour) /\
     (after_wm !! id = None <-> age > 24 * hour) /\
     (age <= 24 * hour ->
        after_dm !! id = Some info /\ after_wm !! id = Some info)) /\
  (is_confirmed info = false -> age = 24 * hour ->
     after_dm !! id = Some info /\ after_wm !! id = Some info) /\
  (is_confirmed info = true ->
     after_dm !! id = Some info /\ after_wm !! id = Some info).
Proof.
  intros Hl age after_dm after_wm.
  assert (Hdm : after_dm !! id =
                if expired (clock w - 24 * hour) info then None else Some info).
  { unfold after_dm. rewrite dm_cleanup_expired_lookup, Hl. done. }
  assert (Hwm : after_wm !! id =
                if expired (clock w - 24 * hour) info then None else Some info).
  { unfold after_wm. rewrite wm_cleanup_expired_lookup, Hl. done. }
  rewrite Hdm, Hwm.
  assert (Hkeep : is_confirmed info = false -> age <= 24 * hour ->
                  expired (clock w - 24 * hour) info = false).
  { intros Hc Hage.
    destruct (expired (clock w - 24 * hour) info) eqn:He; [|done].
    apply expired_unconfirmed in He; [|done]. unfold age in Hage. lia. }
  split; [|split].
  - intros Hc.
    pose proof (expired_unconfirmed (clock w) 24 info Hc) as Hiff.
    fold age in Hiff.
    destruct (expired (clock w - 24 * hour) info) eqn:He.
    + assert (Hgt : age > 24 * hour) by (by apply Hiff).
      split; [|split]; [by split | by split | intros Hage; lia].
    + assert (Hle : ~ age > 24 * hour).
      { intros Hgt. apply Hiff in Hgt. discriminate. }
      split; [|split]; [by split | by split | done].
  - intros Hc Hage. rewrite Hkeep by (done || lia). done.
  - intros Hc. rewrite (expired_confirmed _ _ Hc). done.
Qed.

Lemma cleanup_expired_boundary_witness :
  DownloadManager.load_pending
    (DownloadManager.cleanup_expired 24 Scenario.store_world) !! "download_2"
  = Some Scenario.edge /\
  DownloadManager.load_pending
    (TelegramCollector.cleanup_expired_downloads 24 Scenario.store_world)
    !! "download_2"
  = Some Scenario.edge.
Proof.
  assert (Hl : DownloadManager.load_pending Scenario.store_world !! "download_2"
               = Some Scenario.edge) by (vm_compute; reflexivity).
  destruct (cleanup_expired_boundary Scenario.store_world "download_2"
              Scenario.edge Hl) as (_ & Hedge & _).
  apply Hedge; vm_compute; reflexivity.
Defined.


Lemma dm_confirm_absent w id :
  DownloadManager.load_pending w !! id = None ->
  DownloadManager.confirm_download id w =
  (false, send_message (DMInvalidId id) w).
Proof. intros Hl. unfold DownloadManager.confirm_download. by rewrite Hl. Qed.

Lemma wm_confirm_absent w id :
  DownloadManager.load_pending w !! id = None ->
  exists n, not_found_notice id n /\
            TelegramCollector.confirm_download id w = send_message n w.
Proof.
  unfold DownloadManager.load_pending, TelegramCollector.confirm_download.
  destruct (pending_file w) as [pending|].
  - intros ->. exists (InvalidId id). split; [by right | done].
  - intros _. exists NoPendingFile. split; [by left | done].
Qed.

Lemma dm_confirm_present w id info :
  DownloadManager.load_pending w !! id = Some info ->
  fst (DownloadManager.confirm_download id w) = true /\
  pending_file (snd (DownloadManager.confirm_download id w)) =
  Some (delete id (DownloadManager.load_pending w)).
Proof.
  intros Hl. unfold DownloadManager.confirm_download. rewrite Hl.
  split; [done|]. simpl. done.
Qed.

Lemma wm_confirm_present w id info :
  DownloadManager.load_pending w !! id = Some info ->
  pending_file (TelegramCollector.confirm_download id w) =
  Some (delete id (DownloadManager.load_pending w)).
Proof.
  unfold DownloadManager.load_pending, TelegramCollector.confirm_download.
  destruct (pending_file w) as [pending|] eqn:Hfile; [|done].
  intros ->.
  pose proof (remove_file_frame (video_path info) w) as Hfr.
  destruct (remove_file (video_path info) w) as [[] w1]; done.
Qed.

Lemma dm_list_shows w :
  exists n, DownloadManager.list_pending w = send_message n w /\
            forall id, id ∈ shown_ids n <->
                       is_Some (DownloadManager.load_pending w !! id).
Proof.
  unfold DownloadManager.list_pending.
  destruct (decide (DownloadManager.load_pending w = ∅)) as [He|Hne].
  - exists DMNothingPending. split; [done|]. intros id. rewrite He. simpl.
    rewrite lookup_empty. split; [by intros ?%not_elem_of_nil | by intros [? ?]].
  - eexists. split; [done|]. intros id. simpl. apply rows_of_ids.
Qed.

Lemma wm_list_shows w :
  exists n, TelegramCollector.list_pending_downloads w = send_message n w /\
            forall id, id ∈ shown_ids n <->
                       is_Some (DownloadManager.load_pending w !! id).
Proof.
  unfold TelegramCollector.list_pending_downloads, DownloadManager.load_pending.
  destruct (pending_file w) as [pending|].
  - destruct (decide (pending = ∅)) as [He|Hne].
    + exists NothingPending. split; [done|]. intros id. rewrite He. simpl.
      rewrite lookup_empty.
      split; [by intros ?%not_elem_of_nil | by intros [? ?]].
    + eexists. split; [done|]. intros id. simpl. apply rows_of_ids.
  - exists NothingPending. split; [done|]. intros id. simpl.
    rewrite lookup_empty.
    split; [by intros ?%not_elem_of_nil | by intros [? ?]].
Qed.

(** C5.  [confirm] on an id that is not in the pending mapping reports
    "not found" and leaves the pending file as it is.  On an id that is in
    the mapping it removes the id: the mapping no longer has it, the list
    command no longer shows it, and confirming the same id again reports
    "not found".  This holds for [DownloadManager.confirm_download] (which
    returns [False] and sends the invalid-id notice) and for the collector's
    [confirm_download] (which sends the no-pending-file or the invalid-id
    notice). *)
Theorem confirm_then_not_found (w : world) (id : string) :
  let dm := DownloadManager.confirm_download id w in
  let wm := TelegramCollector.confirm_download id w in
  match DownloadManager.load_pending w !! id with
  | None =>
      dm = (false, send_message (DMInvalidId id) w) /\
      pending_file (snd dm) = pending_file w /\
      (exists n, not_found_notice id n /\ wm = send_message n w) /\
      pending_file wm = pending_file w
  | Some info =>
      fst dm = true /\
      DownloadManager.load_pending (snd dm) !! id = None /\
      DownloadManager.load_pending wm !! id = None /\
      (forall n, DownloadManager.list_pending (snd dm) = send_message n (snd dm)
                 -> id ∉ shown_ids n) /\
      (forall n, TelegramCollector.list_pending_downloads wm = send_message n wm
                 -> id ∉ shown_ids n) /\
      DownloadManager.confirm_download id (snd dm) =
        (false, send_message (DMInvalidId id) (snd dm)) /\
      TelegramCollector.confirm_download id wm =
        send_message (InvalidId id) wm
  end.
Proof.
  intros dm wm.
  destruct (DownloadManager.load_pending w !! id) as [info|] eqn:Hl.
  - destruct (dm_confirm_present w id info Hl) as [Hret Hdm].
    pose proof (wm_confirm_present w id info Hl) as Hwm.
    fold dm in Hret, Hdm. fold wm in Hwm.
    assert (Hgone_dm : DownloadManager.load_pending (snd dm) !! id = None).
    { unfold DownloadManager.load_pending at 1. rewrite Hdm.
      apply lookup_delete_eq. }
    assert (Hgone_wm : DownloadManager.load_pending wm !! id = None).
    { unfold DownloadManager.load_pending at 1. rewrite Hwm.
      apply lookup_delete_eq. }
    split; [done|]. split; [done|]. split; [done|].
    split; [|split; [|split]].
    + intros n Hn Hin.
      destruct (dm_list_shows (snd dm)) as (n' & Hn' & Hshown).
      rewrite Hn' in Hn.
      assert (n' = n) as ->.
      { apply (f_equal outbox) in Hn. simpl in Hn.
        apply app_inv_head in Hn. congruence. }
      apply Hshown in Hin. rewrite Hgone_dm in Hin. by destruct Hin.
    + intros n Hn Hin.
      destruct (wm_list_shows wm) as (n' & Hn' & Hshown).
      rewrite Hn' in Hn.
      assert (n' = n) as ->.
      { apply (f_equal outbox) in Hn. simpl in Hn.
        apply app_inv_head in Hn. congruence. }
      apply Hshown in Hin. rewrite Hgone_wm in Hin. by destruct Hin.
    + by apply dm_confirm_absent.
    + unfold TelegramCollector.confirm_download. rewrite Hwm.
      by rewrite lookup_delete_eq.
  - split; [by apply dm_confirm_absent|].
    split; [unfold dm; by rewrite dm_confirm_absent|].
    destruct (wm_confirm_absent w id Hl) as (n & Hn & Hwm).
    split; [by exists n|]. fold wm in Hwm. by rewrite Hwm.
Qed.


Lemma set_pending_file_same (w : world) (pending : gmap string entry) :
  pending_file w = Some pending -> set_pending_file (Some pending) w = w.
Proof. destruct w; simpl. intros ->. reflexivity. Qed.

(** After a confirmed clean-up no entry of the mapping is confirmed. *)
Lemma swept_confirmed_clean (pending : gmap string entry) id info :
  (id, info) ∈ map_to_list
    (delete_all (map fst (List.filter (fun kv => is_confirmed (snd kv))
                            (map_to_list pending))) pending) ->
  is_confirmed info = false.
Proof.
  intros Hin. apply elem_of_map_to_list in Hin.
  rewrite lookup_after_sweep in Hin.
  destruct (pending !! id) as [info'|]; [|done].
  destruct (is_confirmed info') eqn:Hc; [done|]. congruence.
Qed.

Lemma dm_cleanup_confirmed_file (w : world) :
  pending_file (DownloadManager.cleanup_confirmed w) =
  Some (delete_all (map fst (List.filter (fun kv => is_confirmed (snd kv))
                     (map_to_list (DownloadManager.load_pending w))))
          (DownloadManager.load_pending w)).
Proof.
  unfold DownloadManager.cleanup_confirmed.
  pose proof (sweep_spec is_confirmed
                (map_to_list (DownloadManager.load_pending w)) w) as Hs.
  destruct (sweep _ _ w) as [[[tr c] r] w1].
  destruct Hs as (-> & _ & _ & _). reflexivity.
Qed.

Lemma wm_cleanup_confirmed_file (w : world) (pending : gmap string entry) :
  pending_file w = Some pending ->
  pending_file (TelegramCollector.cleanup_confirmed_downloads w) =
  Some (delete_all (map fst (List.filter (fun kv => is_confirmed (snd kv))
                     (map_to_list pending))) pending).
Proof.
  intros Hfile. unfold TelegramCollector.cleanup_confirmed_downloads.
  rewrite Hfile.
  pose proof (sweep_spec is_confirmed (map_to_list pending) w) as Hs.
  destruct (sweep _ _ w) as [[[tr c] r] w1].
  destruct Hs as (-> & _ & _ & _). reflexivity.
Qed.

(** The confirmed clean-up on a pending file without confirmed entries. *)
Lemma dm_cleanup_confirmed_clean (w : world) (pending : gmap string entry) :
  pending_file w = Some pending ->
  (forall id info, (id, info) ∈ map_to_list pending ->
                   is_confirmed info = false) ->
  DownloadManager.cleanup_confirmed w =
  send_message (DMCleanupDone 0 (size pending)) w.
Proof.
  intros Hfile Hclean. unfold DownloadManager.cleanup_confirmed.
  assert (Hload : DownloadManager.load_pending w = pending).
  { unfold DownloadManager.load_pending. by rewrite Hfile. }
  rewrite Hload, sweep_none by done.
  rewrite delete_all_nil. unfold DownloadManager.save_pending.
  by rewrite set_pending_file_same.
Qed.

Lemma wm_cleanup_confirmed_clean (w : world) (pending : gmap string entry) :
  pending_file w = Some pending ->
  (forall id info, (id, info) ∈ map_to_list pending ->
                   is_confirmed info = false) ->
  TelegramCollector.cleanup_confirmed_downloads w =
  send_message (CleanupDone 0 0 (size pending)) w.
Proof.
  intros Hfile Hclean. unfold TelegramCollector.cleanup_confirmed_downloads.
  rewrite Hfile, sweep_none by done.
  rewrite delete_all_nil. by rewrite set_pending_file_same.
Qed.

(** C6.  Running the confirmed clean-up twice in a row: the second run
    removes no entry (its report counts zero entries and, for the collector,
    zero files), deletes no file, and leaves the pending file exactly as the
    first run left it.  This holds for [DownloadManager.cleanup_confirmed]
    and for [cleanup_confirmed_downloads]; the latter reports "nothing to
    clean" when there is no pending file. *)
Theorem cleanup_confirmed_idempotent (w : world) :
  let dm1 := DownloadManager.cleanup_confirmed w in
  let dm2 := DownloadManager.cleanup_confirmed dm1 in
  let wm1 := TelegramCollector.cleanup_confirmed_downloads w in
  let wm2 := TelegramCollector.cleanup_confirmed_downloads wm1 in
  dm2 = send_message
          (DMCleanupDone 0 (size (DownloadManager.load_pending dm1))) dm1 /\
  pending_file dm2 = pending_file dm1 /\
  disk dm2 = disk dm1 /\
  (wm2 = send_message NothingToClean wm1 \/
   wm2 = send_message
           (CleanupDone 0 0 (size (DownloadManager.load_pending wm1))) wm1) /\
  pending_file wm2 = pending_file wm1 /\
  disk wm2 = disk wm1.
Proof.
  intros dm1 dm2 wm1 wm2.
  assert (Hdm : dm2 = send_message
            (DMCleanupDone 0 (size (DownloadManager.load_pending dm1))) dm1).
  { unfold dm2. pose proof (dm_cleanup_confirmed_file w) as Hfile.
    fold dm1 in Hfile.
    rewrite (dm_cleanup_confirmed_clean dm1 _ Hfile).
    - unfold DownloadManager.load_pending. by rewrite Hfile.
    - intros id info. apply swept_confirmed_clean. }
  assert (Hwm : wm2 = send_message NothingToClean wm1 \/
                wm2 = send_message
                  (CleanupDone 0 0 (size (DownloadManager.load_pending wm1)))
                  wm1).
  { unfold wm2. destruct (pending_file w) as [pending|] eqn:Hw.
    - right. pose proof (wm_cleanup_confirmed_file w pending Hw) as Hfile.
      fold wm1 in Hfile.
      rewrite (wm_cleanup_confirmed_clean wm1 _ Hfile).
      + unfold DownloadManager.load_pending. by rewrite Hfile.
      + intros id info. apply swept_confirmed_clean.
    - left.
      assert (Hwm1 : wm1 = send_message NothingToClean w).
      { unfold wm1, TelegramCollector.cleanup_confirmed_downloads.
        by rewrite Hw. }
      unfold TelegramCollector.cleanup_confirmed_downloads.
      by rewrite Hwm1; simpl; rewrite Hw. }
  split; [done|]. rewrite Hdm. split; [done|]. split; [done|].
  split; [done|]. destruct Hwm as [-> | ->]; done.
Qed.

(* ===================================================================== *)
(** ** Facts about the string operations *)
(* ===================================================================== *)

Section TextFacts.

Import Text.

Lemma lstrip_idempotent s : lstrip (lstrip s) = lstrip s.
Proof.
  induction s as [|c s IH]; simpl; [done|].
  destruct (is_space c) eqn:Hc; [done|]. simpl. by rewrite Hc.
Qed.

Lemma rstrip_idempotent s : rstrip (rstrip s) = rstrip s.
Proof.
  induction s as [|c s IH]; simpl; [done|].
  destruct (rstrip s) as [|a r] eqn:Hr.
  - destruct (is_space c) eqn:Hc; simpl; [done|]. by rewrite Hc.
  - simpl in *. by rewrite IH.
Qed.

Lemma lstrip_rstrip s : rstrip (lstrip s) = lstrip (rstrip s).
Proof.
  induction s as [|c s IH]; simpl; [done|].
  destruct (is_space c) eqn:Hc.
  - rewrite IH. destruct (rstrip s) as [|a r]; simpl; by rewrite ?Hc.
  - simpl. destruct (rstrip s) as [|a r]; simpl; by rewrite ?Hc.
Qed.

(** [strip] leaves nothing to strip. *)
Lemma strip_idempotent s : strip (strip s) = strip s.
Proof.
  unfold strip.
  by rewrite (lstrip_rstrip (rstrip s)), rstrip_idempotent,
    lstrip_idempotent.
Qed.

(** The first character of a stripped string is not white space. *)
Lemma strip_head s c r : strip s = String c r -> is_space c = false.
Proof.
  unfold strip. generalize (rstrip s) as t.
  induction t as [|a t IH]; simpl; [done|].
  destruct (is_space a) eqn:Ha; [done|]. by intros [= <- _].
Qed.


(** [split] yields one field more than there are separators. *)
Lemma split_on_length sep s :
  length (split_on sep s) = S (count_char sep s).
Proof.
  induction s as [|c s IH]; simpl; [done|].
  destruct (Ascii.eqb c sep); simpl; [by rewrite IH|].
  destruct (split_on sep s); simpl in *; [done|]. done.
Qed.

Lemma is_empty_true s : is_empty s = true <-> s = EmptyString.
Proof. destruct s; simpl; split; congruence. Qed.

Lemma join_single sep s : join sep [s] = s.
Proof. reflexivity. Qed.

End TextFacts.

(* ===================================================================== *)
(** ** Reasoning about collector computations *)
(* ===================================================================== *)

Section MonadFacts.

Context {A B : Type}.

Lemma bind_done (m : M A) (k : A -> M B) w b w' :
  bind m k w = (Done b, w') ->
  exists a w1, m w = (Done a, w1) /\ k a w1 = (Done b, w').
Proof.
  unfold bind. destruct (m w) as [[a| |] w1]; try discriminate. eauto.
Qed.

Lemma bind_raised (m : M A) (k : A -> M B) w e w' :
  bind m k w = (Raised e, w') ->
  m w = (Raised e, w') \/
  exists a w1, m w = (Done a, w1) /\ k a w1 = (Raised e, w').
Proof.
  unfold bind. destruct (m w) as [[a| |] w1]; try discriminate.
  - right. eauto.
  - intros [= <- <-]. by left.
Qed.

Lemma bind_eq_done (m : M A) (k : A -> M B) w a w1 :
  m w = (Done a, w1) -> bind m k w = k a w1.
Proof. unfold bind. by intros ->. Qed.

Lemma bind_eq_raised (m : M A) (k : A -> M B) w e w1 :
  m w = (Raised e, w1) -> bind m k w = (Raised e, w1).
Proof. unfold bind. by intros ->. Qed.

Lemma bind_act (f : world -> world) (k : unit -> M B) w :
  bind (act f) k w = k tt (f w).
Proof. reflexivity. Qed.

End MonadFacts.


Lemma catch_cancelled_never_cancelled {A} (m : M (option A)) w w' :
  TelegramCollector.catch_cancelled m w <> (Raised WorkflowCancelled, w').
Proof.
  unfold TelegramCollector.catch_cancelled. destruct (m w) as [[x|[]|] w1]; congruence.
Qed.

(* ===================================================================== *)
(** ** The update cursor *)
(* ===================================================================== *)

Section CursorFacts.

Implicit Types (w : world) (u : update) (l : list update).

Lemma steady_refl w : steady w w.
Proof. by split. Qed.

Lemma steady_trans w1 w2 w3 : steady w1 w2 -> steady w2 w3 -> steady w1 w3.
Proof. intros [? ?] [? ?]. split; congruence. Qed.

Lemma same_but_disk_steady w w' : same_but_disk w w' -> steady w w'.
Proof. intros (?&?&?&?&?&?&?). by split. Qed.

Lemma cursor_after_nil o : cursor_after o [] = o.
Proof. reflexivity. Qed.

Lemma cursor_after_app o l1 l2 :
  cursor_after o (l1 ++ l2) = cursor_after (cursor_after o l1) l2.
Proof.
  unfold cursor_after. rewrite last_app.
  by destruct (last l2).
Qed.

Lemma cursor_after_cons o u l :
  cursor_after o (u :: l) = cursor_after (update_id u + 1) l.
Proof. apply (cursor_after_app o [u] l). Qed.

Lemma ascending_from_weaken o o' l :
  o' <= o -> ascending_from o l -> ascending_from o' l.
Proof. destruct l; simpl; [done|]. intros ? [? ?]. split; [lia|done]. Qed.

Lemma ascending_from_cursor o l : ascending_from o l -> o <= cursor_after o l.
Proof.
  revert o. induction l as [|u l IH]; intros o; simpl; [unfold cursor_after; simpl; lia|].
  intros [Hle Hasc]. rewrite cursor_after_cons.
  specialize (IH _ Hasc). lia.
Qed.

Lemma ascending_from_app o l1 l2 :
  ascending_from o l1 -> ascending_from (cursor_after o l1) l2 ->
  ascending_from o (l1 ++ l2).
Proof.
  revert o. induction l1 as [|u l1 IH]; intros o; simpl.
  - by rewrite cursor_after_nil.
  - intros [Hle Hasc]. rewrite cursor_after_cons. intros H2.
    split; [done|]. by apply IH.
Qed.

(** Every id of an ascending run lies between the cursor before and the
    cursor after. *)
Lemma ascending_from_bounds o l :
  ascending_from o l ->
  Forall (fun p => snd p = fst p + 1 /\ o <= fst p < cursor_after o l)
         (trace_of l).
Proof.
  revert o. induction l as [|u l IH]; intros o; simpl; [constructor|].
  intros [Hle Hasc]. rewrite cursor_after_cons.
  pose proof (ascending_from_cursor _ _ Hasc) as Hc.
  constructor; simpl; [lia|].
  eapply Forall_impl; [apply IH, Hasc|]. simpl. intros p. lia.
Qed.

Lemma ascending_from_sorted o l :
  ascending_from o l ->
  StronglySorted (fun p q : Z * Z => fst p < fst q) (trace_of l).
Proof.
  revert o. induction l as [|u l IH]; intros o; simpl; [constructor|].
  intros [Hle Hasc]. constructor; [by eapply IH|].
  eapply Forall_impl; [apply ascending_from_bounds, Hasc|].
  simpl. intros p. lia.
Qed.

Lemma extends_refl w : extends w w.
Proof.
  exists []. simpl. rewrite app_nil_r. by rewrite cursor_after_nil.
Qed.

Lemma extends_trans w1 w2 w3 : extends w1 w2 -> extends w2 w3 -> extends w1 w3.
Proof.
  intros (l1 & Hs1 & Ho1 & Ha1) (l2 & Hs2 & Ho2 & Ha2).
  exists (l1 ++ l2). unfold trace_of in *. rewrite map_app, app_assoc.
  rewrite Hs2, Hs1, Ho2, Ho1, cursor_after_app.
  split; [done|]. split; [done|].
  apply ascending_from_app; [done|]. by rewrite <- Ho1.
Qed.

Lemma steady_extends w w' : steady w w' -> extends w w'.
Proof.
  intros [Ho Hs]. exists []. simpl.
  by rewrite app_nil_r, cursor_after_nil.
Qed.

Lemma extends_steady w1 w2 w3 : extends w1 w2 -> steady w2 w3 -> extends w1 w3.
Proof. intros H1 H2. eapply extends_trans; [done|]. by apply steady_extends. Qed.

(** Taking one update that the feed was entitled to deliver. *)
Lemma take_extends u w :
  update_offset w <= update_id u ->
  extends w (observe u (advance u w)).
Proof.
  intros Hle. exists [u]. simpl. split; [done|]. split; [done|]. done.
Qed.

Lemma take_offset u w :
  update_offset (observe u (advance u w)) = update_id u + 1.
Proof. reflexivity. Qed.

(** What [extends] means for an observer. *)
Lemma extends_facts w w' :
  extends w w' ->
  exists new,
    seen w' = (seen w ++ new)%list /\
    update_offset w <= update_offset w' /\
    Forall (fun p => snd p = fst p + 1 /\
                     update_offset w <= fst p < update_offset w') new /\
    StronglySorted (fun p q : Z * Z => fst p < fst q) new /\
    (new = [] -> update_offset w' = update_offset w).
Proof.
  intros (l & Hs & Ho & Ha). exists (trace_of l).
  split; [done|]. rewrite Ho.
  split; [by apply ascending_from_cursor|].
  split; [by apply ascending_from_bounds|].
  split; [by eapply ascending_from_sorted|].
  destruct l; [done | discriminate].
Qed.

End CursorFacts.

Section CursorOfOperations.

Variable feed : nat -> request -> response.
Variable get_file : string -> fetch_result.
Variable answer_fails : string -> bool.
Variable chat : option string.

Implicit Types (w : world) (u : update) (l : list update).

Lemma send_message_steady n w : steady w (send_message n w).
Proof. by split. Qed.

Lemma sweep_steady selected items w :
  steady w (snd (sweep selected items w)).
Proof.
  pose proof (sweep_spec selected items w) as Hs.
  destruct (sweep selected items w) as [[[tr c] r] w1].
  destruct Hs as (_ & _ & _ & Hfr). by apply same_but_disk_steady.
Qed.

Lemma remove_file_steady path w : steady w (snd (remove_file path w)).
Proof. apply same_but_disk_steady, remove_file_frame. Qed.

Lemma list_pending_downloads_steady w :
  steady w (TelegramCollector.list_pending_downloads w).
Proof.
  unfold TelegramCollector.list_pending_downloads.
  repeat case_match; by split.
Qed.

Lemma confirm_download_steady id w :
  steady w (TelegramCollector.confirm_download id w).
Proof.
  unfold TelegramCollector.confirm_download.
  destruct (pending_file w) as [pending|]; [|by split].
  destruct (pending !! id) as [info|]; [|by split].
  pose proof (remove_file_steady (video_path info) w) as [Ho Hs].
  destruct (remove_file (video_path info) w) as [[] w1]; by split.
Qed.

Lemma cleanup_confirmed_downloads_steady w :
  steady w (TelegramCollector.cleanup_confirmed_downloads w).
Proof.
  unfold TelegramCollector.cleanup_confirmed_downloads.
  destruct (pending_file w) as [pending|]; [|by split].
  pose proof (sweep_steady is_confirmed (map_to_list pending) w) as [Ho Hs].
  destruct (sweep _ _ w) as [[[tr c] r] w1]. by split.
Qed.

Lemma cleanup_expired_downloads_steady hours w :
  steady w (TelegramCollector.cleanup_expired_downloads hours w).
Proof.
  unfold TelegramCollector.cleanup_expired_downloads.
  destruct (pending_file w) as [pending|]; [|by split].
  pose proof (sweep_steady (expired (clock w - hours * hour))
                (map_to_list pending) w) as [Ho Hs].
  destruct (sweep _ _ w) as [[[tr c] r] w1]. by split.
Qed.

Lemma handle_callback_steady callback w :
  steady w (TelegramCollector.handle_callback answer_fails callback w).
Proof.
  unfold TelegramCollector.handle_callback.
  repeat case_match;
    first [ apply steady_refl | apply send_message_steady
          | eapply steady_trans; [apply send_message_steady|] ];
    first [ apply confirm_download_steady
          | apply cleanup_confirmed_downloads_steady
          | apply cleanup_expired_downloads_steady ].
Qed.

Lemma get_updates_steady o t w :
  steady w (snd (TelegramCollector.get_updates feed o t w)).
Proof. by split. Qed.

(** Each of the four [for update in updates] loops takes a prefix of the
    batch, in order. *)
Lemma commands_batch_extends l w :
  ascending_from (update_offset w) l ->
  extends w (TelegramCollector.commands_batch answer_fails chat l w).
Proof.
  revert w. induction l as [|u l IH]; intros w; simpl; [intros; apply extends_refl|].
  intros [Hle Hasc].
  pose proof (take_extends u w Hle) as Htake.
  set (w1 := observe u (advance u w)) in *.
  assert (Hnext : forall w2, steady w1 w2 ->
            extends w (TelegramCollector.commands_batch answer_fails chat l w2)).
  { intros w2 Hst. eapply extends_trans; [eapply extends_steady; eassumption|].
    apply IH. destruct Hst as [-> _]. exact Hasc. }
  repeat case_match; apply Hnext;
    first [ apply steady_refl | apply send_message_steady
          | apply handle_callback_steady | apply list_pending_downloads_steady
          | apply confirm_download_steady
          | apply cleanup_confirmed_downloads_steady ].
Qed.

Lemma cancel_batch_extends l w :
  ascending_from (update_offset w) l ->
  extends w (snd (TelegramCollector.cancel_batch chat l w)).
Proof.
  revert w. induction l as [|u l IH]; intros w; simpl; [intros; apply extends_refl|].
  intros [Hle Hasc].
  pose proof (take_extends u w Hle) as Htake.
  set (w1 := observe u (advance u w)) in *.
  assert (Hnext : extends w (snd (TelegramCollector.cancel_batch chat l w1))).
  { eapply extends_trans; [eassumption|]. by apply IH. }
  repeat case_match; first [exact Hnext | exact Htake].
Qed.

Lemma wait_batch_extends l w :
  ascending_from (update_offset w) l ->
  extends w (snd (TelegramCollector.wait_batch chat l w)).
Proof.
  revert w. induction l as [|u l IH]; intros w; simpl; [intros; apply extends_refl|].
  intros [Hle Hasc].
  pose proof (take_extends u w Hle) as Htake.
  set (w1 := observe u (advance u w)) in *.
  assert (Hnext : extends w (snd (TelegramCollector.wait_batch chat l w1))).
  { eapply extends_trans; [eassumption|]. by apply IH. }
  repeat case_match; first [exact Hnext | exact Htake].
Qed.

Lemma script_batch_extends l parts w :
  ascending_from (update_offset w) l ->
  extends w (snd (TelegramCollector.script_batch get_file chat l parts w)).
Proof.
  revert parts w. induction l as [|u l IH]; intros parts w; simpl;
    [intros; apply extends_refl|].
  intros [Hle Hasc].
  pose proof (take_extends u w Hle) as Htake.
  set (w1 := observe u (advance u w)) in *.
  assert (Hnext : forall parts' w2, steady w1 w2 ->
            extends w (snd (TelegramCollector.script_batch
                              get_file chat l parts' w2))).
  { intros parts' w2 Hst.
    eapply extends_trans; [eapply extends_steady; eassumption|].
    apply IH. destruct Hst as [-> _]. exact Hasc. }
  assert (Hstop : forall w2, steady w1 w2 -> extends w w2).
  { intros w2 Hst. eapply extends_steady; eassumption. }
  repeat case_match; simpl;
    first [ apply Hnext | apply Hstop ];
    repeat first [ apply steady_refl
                 | apply send_message_steady
                 | eapply steady_trans; [apply send_message_steady|] ].
Qed.

End CursorOfOperations.

Section CursorOfPolls.

Variable feed : nat -> request -> response.
Variable get_file : string -> fetch_result.
Variable answer_fails : string -> bool.
Variable chat : option string.
Hypothesis feed_honest : honest feed.

Implicit Types (w : world) (u : update) (l : list update).

Lemma poll_honest t w :
  match TelegramCollector.get_updates feed (update_offset w) t w with
  | (Ok updates, w1) => ascending_from (update_offset w1) updates /\ steady w w1
  | (_, w1) => steady w w1
  end.
Proof.
  unfold TelegramCollector.get_updates.
  pose proof (feed_honest (polls w) (Request (update_offset w) t)) as H.
  destruct (body _); simpl in *; try by split.
Qed.

Lemma check_for_cancel_extends w :
  extends w (snd (TelegramCollector.check_for_cancel feed chat w)).
Proof.
  unfold TelegramCollector.check_for_cancel.
  pose proof (poll_honest 0 w) as H.
  destruct (TelegramCollector.get_updates feed (update_offset w) 0 w)
    as [[| |updates] w1]; simpl; try by apply steady_extends.
  destruct H as [Hasc Hst].
  eapply extends_trans; [by apply steady_extends|].
  by apply cancel_batch_extends.
Qed.

Lemma handle_download_commands_extends w :
  extends w (TelegramCollector.handle_download_commands
               feed answer_fails chat w).
Proof.
  unfold TelegramCollector.handle_download_commands.
  pose proof (poll_honest 0 w) as H.
  destruct (TelegramCollector.get_updates feed (update_offset w) 0 w)
    as [[| |updates] w1]; simpl; try by apply steady_extends.
  destruct H as [Hasc Hst].
  eapply extends_trans; [by apply steady_extends|].
  by apply commands_batch_extends.
Qed.

Lemma wait_loop_extends fuel timeout interval start reminder check w :
  extends w (snd (TelegramCollector.wait_loop feed chat fuel timeout interval
                    start reminder check w)).
Proof.
  revert reminder check w.
  induction fuel as [|fuel IH]; intros reminder check w; simpl;
    [apply extends_refl|].
  destruct (clock w - start <? timeout * usec); [|apply extends_refl].
  unfold bind at 1.
  (* the cancellation check *)
  set (chk := if clock w - start - check >=? interval * usec then _ else _).
  assert (Hchk : extends w (snd (chk w))).
  { unfold chk. destruct (_ >=? _); [|apply extends_refl].
    pose proof (check_for_cancel_extends w) as H.
    destruct (TelegramCollector.check_for_cancel feed chat w) as [[] w1];
      exact H. }
  destruct (chk w) as [[check'| |] w1]; simpl in Hchk |- *; try exact Hchk.
  (* the reminder *)
  unfold bind at 1.
  set (rem := if _ >? reminder then _ else _).
  assert (Hrem : exists reminder' w2, rem w1 = (Done reminder', w2) /\
                                     steady w1 w2).
  { unfold rem. destruct (_ >? _).
    - eexists _, _. split; [reflexivity|]. by split.
    - eexists _, _. split; [reflexivity|]. by split. }
  destruct Hrem as (reminder' & w2 & -> & Hst2).
  assert (H2 : extends w w2) by (eapply extends_steady; eassumption).
  (* the poll *)
  unfold bind at 1, pure_step.
  pose proof (poll_honest 10 w2) as Hpoll.
  destruct (TelegramCollector.get_updates feed (update_offset w2) 10 w2)
    as [[| |updates] w3].
  - rewrite bind_act. eapply extends_trans; [|apply IH].
    eapply extends_steady; [exact H2|].
    eapply steady_trans; [exact Hpoll|]. by split.
  - rewrite bind_act. eapply extends_trans; [|apply IH].
    eapply extends_steady; [exact H2|].
    eapply steady_trans; [exact Hpoll|]. by split.
  - destruct Hpoll as [Hasc Hst3].
    pose proof (wait_batch_extends chat updates w3 Hasc) as Hb.
    assert (H3 : extends w w3) by (eapply extends_steady; eassumption).
    unfold bind.
    destruct (TelegramCollector.wait_batch chat updates w3)
      as [[[text|]| |] w4]; simpl in Hb |- *;
      try (eapply extends_trans; eassumption).
    eapply extends_trans; [|apply IH].
    eapply extends_trans; eassumption.
Qed.

Lemma wait_for_message_extends fuel timeout interval w :
  extends w (snd (TelegramCollector.wait_for_message feed chat fuel timeout
                    interval w)).
Proof. apply wait_loop_extends. Qed.

(** One turn of the [while] loop of the script step. *)
Lemma script_loop_unfold fuel timeout start parts w :
  TelegramCollector.script_loop feed get_file chat (S fuel) timeout start
    parts w =
  if clock w - start <? timeout * usec then
    let remaining_time := Z.quot (timeout * usec - (clock w - start)) usec in
    if remaining_time <=? 0 then (Done (ByTimeout parts), w)
    else
      let (r, w1) :=
        TelegramCollector.get_updates feed (update_offset w)
          (Z.min 30 remaining_time) w in
      match r with
      | Failed =>
          TelegramCollector.script_loop feed get_file chat fuel timeout start
            parts (sleep 5 w1)
      | NotOk =>
          TelegramCollector.script_loop feed get_file chat fuel timeout start
            parts (sleep 3 w1)
      | Ok updates =>
          match TelegramCollector.script_batch get_file chat updates parts w1
          with
          | (Exit e, w2) => (Done e, w2)
          | (Cancel, w2) => (Raised WorkflowCancelled, w2)
          | (Continue parts, w2) =>
              TelegramCollector.script_loop feed get_file chat fuel timeout
                start parts w2
          end
      end
  else (Done (ByTimeout parts), w).
Proof. reflexivity. Qed.

Lemma script_loop_extends fuel timeout start parts w :
  extends w (snd (TelegramCollector.script_loop feed get_file chat fuel
                    timeout start parts w)).
Proof.
  revert parts w.
  induction fuel as [|fuel IH]; intros parts w; [apply extends_refl|].
  rewrite script_loop_unfold.
  destruct (clock w - start <? timeout * usec); [|apply extends_refl].
  cbv zeta.
  destruct (_ <=? 0); [apply extends_refl|].
  set (t := Z.min 30 _).
  pose proof (poll_honest t w) as Hpoll.
  destruct (TelegramCollector.get_updates feed (update_offset w) t w)
    as [[| |updates] w1].
  - eapply extends_trans; [|apply IH]. apply steady_extends.
    eapply steady_trans; [exact Hpoll|]. by split.
  - eapply extends_trans; [|apply IH]. apply steady_extends.
    eapply steady_trans; [exact Hpoll|]. by split.
  - destruct Hpoll as [Hasc Hst].
    pose proof (script_batch_extends get_file chat updates parts w1 Hasc) as Hb.
    assert (H1 : extends w w1) by by apply steady_extends.
    destruct (TelegramCollector.script_batch get_file chat updates parts w1)
      as [[e| |parts'] w2]; simpl in Hb |- *;
      try (eapply extends_trans; eassumption).
    eapply extends_trans; [|apply IH].
    eapply extends_trans; eassumption.
Qed.

Lemma collect_script_multipart_extends fuel timeout w :
  extends w (snd (TelegramCollector.collect_script_multipart
                    feed get_file chat fuel timeout w)).
Proof.
  unfold TelegramCollector.collect_script_multipart,
    TelegramCollector.script_step, bind.
  pose proof (script_loop_extends fuel timeout
                (clock (send_message ScriptPrompt w)) []
                (send_message ScriptPrompt w)) as H.
  destruct (TelegramCollector.script_loop _ _ _ _ _ _ _ _) as [[e| |] w1];
    simpl in *; (eapply extends_trans; [|exact H]);
    apply steady_extends; by split.
Qed.

Lemma run_op_extends fuel op w :
  extends w (run_op feed get_file answer_fails chat fuel op w).
Proof.
  destruct op; simpl.
  - apply wait_for_message_extends.
  - apply check_for_cancel_extends.
  - apply collect_script_multipart_extends.
  - apply handle_download_commands_extends.
Qed.

Lemma run_ops_extends fuel ops w :
  extends w (run_ops feed get_file answer_fails chat fuel ops w).
Proof.
  revert w. induction ops as [|op ops IH]; intros w; simpl;
    [apply extends_refl|].
  eapply extends_trans; [apply run_op_extends|]. apply IH.
Qed.

Lemma run_ops_app fuel ops1 ops2 w :
  run_ops feed get_file answer_fails chat fuel (ops1 ++ ops2) w =
  run_ops feed get_file answer_fails chat fuel ops2
    (run_ops feed get_file answer_fails chat fuel ops1 w).
Proof. unfold run_ops. apply foldl_app. Qed.

End CursorOfPolls.

Section CursorOnDullPolls.

Variable feed : nat -> request -> response.
Variable get_file : string -> fetch_result.
Variable answer_fails : string -> bool.
Variable chat : option string.

Implicit Types (w : world).

(** A single poll that fails or brings an empty batch moves nothing. *)
Lemma check_for_cancel_dull w :
  dull (body (feed (polls w) (Request (update_offset w) 0))) ->
  steady w (snd (TelegramCollector.check_for_cancel feed chat w)) /\
  fst (TelegramCollector.check_for_cancel feed chat w) = false.
Proof.
  unfold TelegramCollector.check_for_cancel, TelegramCollector.get_updates.
  destruct (body _) as [| |[|u l]]; simpl; try done.
Qed.

Lemma handle_download_commands_dull w :
  dull (body (feed (polls w) (Request (update_offset w) 0))) ->
  steady w (TelegramCollector.handle_download_commands
              feed answer_fails chat w).
Proof.
  unfold TelegramCollector.handle_download_commands,
    TelegramCollector.get_updates.
  destruct (body _) as [| |[|u l]]; simpl; try done.
Qed.

Hypothesis feed_dull : forall n req, dull (body (feed n req)).

Lemma poll_dull o t w :
  match TelegramCollector.get_updates feed o t w with
  | (Ok (_ :: _), _) => False
  | (_, w1) => steady w w1
  end.
Proof.
  unfold TelegramCollector.get_updates.
  pose proof (feed_dull (polls w) (Request o t)) as H.
  destruct (body _) as [| |[|u l]]; simpl in *; done.
Qed.

Lemma wait_loop_dull fuel timeout interval start reminder check w :
  steady w (snd (TelegramCollector.wait_loop feed chat fuel timeout interval
                   start reminder check w)).
Proof.
  revert reminder check w.
  induction fuel as [|fuel IH]; intros reminder check w; simpl;
    [apply steady_refl|].
  destruct (clock w - start <? timeout * usec); [|apply steady_refl].
  unfold bind at 1.
  set (chk := if clock w - start - check >=? interval * usec then _ else _).
  assert (Hchk : exists check' w1, chk w = (Done check', w1) /\ steady w w1).
  { unfold chk. destruct (_ >=? _).
    - destruct (check_for_cancel_dull w (feed_dull _ _)) as [Hst Hno].
      destruct (TelegramCollector.check_for_cancel feed chat w) as [c w1].
      simpl in Hno. subst c. eauto.
    - eexists _, _. split; [reflexivity|]. apply steady_refl. }
  destruct Hchk as (check' & w1 & -> & Hst1).
  unfold bind at 1.
  set (rem := if _ >? reminder then _ else _).
  assert (Hrem : exists reminder' w2, rem w1 = (Done reminder', w2) /\
                                     steady w1 w2).
  { unfold rem. destruct (_ >? _).
    - eexists _, _. split; [reflexivity|]. by split.
    - eexists _, _. split; [reflexivity|]. by split. }
  destruct Hrem as (reminder' & w2 & -> & Hst2).
  unfold bind at 1, pure_step.
  pose proof (poll_dull (update_offset w2) 10 w2) as Hpoll.
  destruct (TelegramCollector.get_updates feed (update_offset w2) 10 w2)
    as [[| |[|u l]] w3]; try done.
  - rewrite bind_act. eapply steady_trans; [|apply IH].
    repeat (eapply steady_trans; [eassumption|]). by split.
  - rewrite bind_act. eapply steady_trans; [|apply IH].
    repeat (eapply steady_trans; [eassumption|]). by split.
  - unfold bind. simpl. eapply steady_trans; [|apply IH].
    repeat (eapply steady_trans; [eassumption|]). by split.
Qed.

Lemma script_loop_dull fuel timeout start parts w :
  steady w (snd (TelegramCollector.script_loop feed get_file chat fuel
                   timeout start parts w)).
Proof.
  revert parts w.
  induction fuel as [|fuel IH]; intros parts w; [apply steady_refl|].
  rewrite script_loop_unfold.
  destruct (clock w - start <? timeout * usec); [|apply steady_refl].
  cbv zeta.
  destruct (_ <=? 0); [apply steady_refl|].
  set (t := Z.min 30 _).
  pose proof (poll_dull (update_offset w) t w) as Hpoll.
  destruct (TelegramCollector.get_updates feed (update_offset w) t w)
    as [[| |[|u l]] w1]; try done.
  - eapply steady_trans; [|apply IH].
    eapply steady_trans; [exact Hpoll|]. by split.
  - eapply steady_trans; [|apply IH].
    eapply steady_trans; [exact Hpoll|]. by split.
  - simpl. eapply steady_trans; [|apply IH]. exact Hpoll.
Qed.

Lemma run_op_dull fuel op w :
  steady w (run_op feed get_file answer_fails chat fuel op w).
Proof.
  destruct op; simpl.
  - apply wait_loop_dull.
  - by apply check_for_cancel_dull.
  - unfold TelegramCollector.collect_script_multipart,
      TelegramCollector.script_step, bind.
    pose proof (script_loop_dull fuel timeout
                  (clock (send_message ScriptPrompt w)) []
                  (send_message ScriptPrompt w)) as H.
    destruct (TelegramCollector.script_loop _ _ _ _ _ _ _ _) as [[e| |] w1];
      simpl in *; (eapply steady_trans; [|exact H]); by split.
  - by apply handle_download_commands_dull.
Qed.

Lemma run_ops_dull fuel ops w :
  steady w (run_ops feed get_file answer_fails chat fuel ops w).
Proof.
  revert w. induction ops as [|op ops IH]; intros w; simpl;
    [apply steady_refl|].
  eapply steady_trans; [apply run_op_dull|]. apply IH.
Qed.

End CursorOnDullPolls.

(** *** Scripted feeds honour the cursor *)

Lemma from_offset_ascending o o' l :
  ascending_from o l ->
  ascending_from (Z.max o o')
    (filter (fun u => bool_decide (o' <= update_id u)) l).
Proof.
  revert o. induction l as [|u l IH]; intros o; simpl; [done|].
  intros [Hle Hasc]. specialize (IH _ Hasc).
  rewrite filter_cons. destruct (decide _) as [Hd|Hd].
  - apply bool_decide_unpack in Hd. simpl. split; [lia|].
    by replace (Z.max (update_id u + 1) o') with (update_id u + 1) in IH by lia.
  - assert (update_id u < o').
    { destruct (decide (o' <= update_id u)) as [H|H]; [|lia].
      exfalso. apply Hd. by apply bool_decide_pack. }
    by replace (Z.max (update_id u + 1) o') with (Z.max o o') in IH by lia.
Qed.

Lemma serve_honest (script : list response) :
  Forall (fun resp => match body resp with
                      | Ok updates => exists o, ascending_from o updates
                      | _ => True
                      end) script ->
  honest (Scenario.serve script).
Proof.
  intros Hall n req. unfold Scenario.serve.
  destruct (nth_error script n) as [resp|] eqn:Hn; simpl; [|done].
  apply nth_error_In in Hn. rewrite Forall_forall in Hall.
  apply list_elem_of_In, Hall in Hn.
  destruct (body resp) as [| |updates]; simpl; try done.
  destruct Hn as [o Hasc].
  eapply ascending_from_weaken;
    [|apply (from_offset_ascending o (req_offset req)), Hasc]. lia.
Qed.

(* ===================================================================== *)
(** ** Claims about the update cursor *)
(* ===================================================================== *)

(** C8, as the code has it.  The loops assign [update_id + 1] to the cursor
    without comparing it with the cursor they hold, so what the claim says
    holds under the contract of the feed and not without it.  Against a feed
    that keeps its contract (a call with offset [o] returns updates with
    strictly increasing sequence numbers, none below [o]), for every
    sequence of poll operations ([wait_for_message],
    [check_for_cancel], [collect_script_multipart],
    [handle_download_commands]) run from any state:
    - the updates looked at during the run are logged in [new]: each was
      looked at with the cursor already one past it, their sequence numbers
      are strictly increasing and none is below the cursor the run started
      with (so no update below the cursor is processed again);
    - the cursor never decreases, neither over the whole run nor from any
      intermediate point of the sequence to its end;
    - the cursor moves only when an update is taken: when every reply is a
      failed call or an empty batch the cursor and the log are unchanged, and
      a single [check_for_cancel] or [handle_download_commands] whose poll
      fails or is empty leaves them unchanged. *)
Theorem cursor_monotone (feed : nat -> request -> response)
    (get_file : string -> fetch_result) (answer_fails : string -> bool)
    (chat : option string) (fuel : nat) (ops : list poll_op) (w : world) :
  honest feed ->
  let run := run_ops feed get_file answer_fails chat fuel in
  (exists new,
     seen (run ops w) = seen w ++ new /\
     Forall (fun p => snd p = fst p + 1 /\
                      update_offset w <= fst p < update_offset (run ops w)) new /\
     StronglySorted (fun p q : Z * Z => fst p < fst q) new /\
     (new = [] -> update_offset (run ops w) = update_offset w)) /\
  update_offset w <= update_offset (run ops w) /\
  (forall ops1 ops2, ops = ops1 ++ ops2 ->
     update_offset w <= update_offset (run ops1 w) /\
     update_offset (run ops1 w) <= update_offset (run ops w)) /\
  ((forall n req, dull (body (feed n req))) -> steady w (run ops w)) /\
  (forall op, op = CheckForCancel \/ op = HandleDownloadCommands ->
     dull (body (feed (polls w) (Request (update_offset w) 0))) ->
     steady w (run [op] w)).
Proof.
  intros Hhonest run.
  pose proof (run_ops_extends feed get_file answer_fails chat Hhonest fuel)
    as Hext.
  destruct (extends_facts _ _ (Hext ops w)) as (new & Hs & Hle & Hall & Hsort & Hnil).
  split; [by exists new|]. split; [done|]. split; [|split].
  - intros ops1 ops2 ->. unfold run. rewrite run_ops_app.
    destruct (extends_facts _ _ (Hext ops1 w)) as (? & _ & H1 & _).
    destruct (extends_facts _ _
                (Hext ops2 (run_ops feed get_file answer_fails chat fuel ops1 w)))
      as (? & _ & H2 & _).
    done.
  - intros Hdull. by apply run_ops_dull.
  - intros op [-> | ->] Hdull; unfold run; simpl.
    + by apply check_for_cancel_dull.
    + by apply handle_download_commands_dull.
Qed.

Lemma cursor_monotone_witness :
  let w' := run_ops (Scenario.serve Scenario.busy_script) Scenario.no_files
              Scenario.answers_ok (Some Scenario.me) 50 Scenario.busy_ops
              Scenario.busy_start in
  update_offset Scenario.busy_start <= update_offset w' /\
  update_offset w' = 20 /\
  map fst (seen w') = [11; 12; 13; 14; 15; 16; 17; 18; 19].
Proof.
  assert (Hhonest : honest (Scenario.serve Scenario.busy_script)).
  { apply serve_honest. unfold Scenario.busy_script.
    repeat constructor; simpl; try (exists 0; simpl; lia). }
  destruct (cursor_monotone (Scenario.serve Scenario.busy_script)
              Scenario.no_files Scenario.answers_ok (Some Scenario.me) 50
              Scenario.busy_ops Scenario.busy_start Hhonest)
    as (_ & Hle & _).
  split; [exact Hle|]. split; vm_compute; reflexivity.
Defined.

(** C8, counterexample.  A feed that hands out update 3 again whatever the
    offset asked for: one [check_for_cancel] run with the cursor at 10 takes
    the update, which is below the cursor, and leaves the cursor at 4. *)
Lemma cursor_decreases_on_replay :
  let w' := run_ops Scenario.replaying Scenario.no_files Scenario.answers_ok
              (Some Scenario.me) 10 [CheckForCancel] Scenario.at_ten in
  update_offset Scenario.at_ten = 10 /\
  seen w' = seen Scenario.at_ten ++ [(3, 4)] /\
  update_offset w' = 4 /\
  ~ update_offset Scenario.at_ten <= update_offset w'.
Proof.
  split; [reflexivity|]. split; [reflexivity|]. split; [reflexivity|].
  vm_compute. intros H. by apply H.
Qed.

(* ===================================================================== *)
(** ** The script step *)
(* ===================================================================== *)

Section SentinelFacts.

Import Text.

Lemma finish_initial c :
  upper_char c = "P"%char \/ upper_char c = "D"%char \/ upper_char c = "F"%char ->
  Ascii.eqb (lower_char c) "/" = false /\ Ascii.eqb (lower_char c) "c" = false.
Proof.
  destruct c as [[] [] [] [] [] [] [] []]; vm_compute;
    (intros [H|[H|H]]; try discriminate H); split; reflexivity.
Qed.

Lemma member_cancel_initial c s :
  Ascii.eqb c "/" = false -> Ascii.eqb c "c" = false ->
  member (String c s) cancel_words = false.
Proof.
  intros H1 H2. unfold member, cancel_words. simpl. by rewrite H1, H2.
Qed.

Lemma member_finish_initial t :
  member (upper t) finish_words = true ->
  exists c s, t = String c s /\
    (upper_char c = "P"%char \/ upper_char c = "D"%char \/
     upper_char c = "F"%char).
Proof.
  destruct t as [|c s]; [discriminate|]. intros H. exists c, s.
  split; [done|]. unfold member, finish_words, upper in H. simpl in H.
  destruct (Ascii.eqb (upper_char c) "P") eqn:HP;
    [apply Ascii.eqb_eq in HP; auto|].
  destruct (Ascii.eqb (upper_char c) "D") eqn:HD;
    [apply Ascii.eqb_eq in HD; auto|].
  destruct (Ascii.eqb (upper_char c) "F") eqn:HF;
    [apply Ascii.eqb_eq in HF; auto|].
  simpl in H. discriminate.
Qed.

(** A finish word is not empty and is never taken for a cancel directive. *)
Lemma finish_not_cancel t :
  member (upper t) finish_words = true ->
  is_empty t = false /\ member (lower t) cancel_words = false.
Proof.
  intros H. destruct (member_finish_initial t H) as (c & s & -> & Hc).
  split; [done|]. destruct (finish_initial c Hc) as [H1 H2].
  by apply member_cancel_initial.
Qed.

Lemma join_nonempty sep parts :
  parts <> [] -> Forall (fun s => s <> EmptyString) parts ->
  join sep parts <> EmptyString.
Proof.
  destruct parts as [|x rest]; [done|]. intros _ Hall.
  apply Forall_cons in Hall. destruct Hall as [Hx _].
  destruct x as [|c x]; [done|].
  unfold join. simpl. destruct rest; simpl; discriminate.
Qed.

End SentinelFacts.

Section ScriptStep.

Variable feed : nat -> request -> response.
Variable get_file : string -> fetch_result.
Variable chat : option string.

Implicit Types (w : world) (u : update) (parts : list string).

Lemma remaining_time_none total elapsed :
  elapsed < total -> (Z.quot (total - elapsed) usec <=? 0) = true ->
  total - usec < elapsed.
Proof.
  intros Hlt Hq. apply Z.leb_le in Hq.
  rewrite Z.quot_div_nonneg in Hq by (unfold usec; lia).
  destruct (Z_lt_le_dec (total - elapsed) usec) as [H|H]; [lia|].
  assert (0 < (total - elapsed) / usec)
    by (apply Z.div_str_pos; unfold usec in *; lia).
  lia.
Qed.

Lemma remaining_time_some total elapsed :
  elapsed + usec <= total ->
  (elapsed <? total) = true /\ (Z.quot (total - elapsed) usec <=? 0) = false.
Proof.
  intros H. split; [apply Z.ltb_lt; unfold usec in *; lia|].
  apply Z.leb_gt. rewrite Z.quot_div_nonneg by (unfold usec in *; lia).
  apply Z.div_str_pos. unfold usec in *. lia.
Qed.

(** Every update of a batch makes one of the four turns. *)
Lemma script_batch_turn u rest parts w :
  script_turn get_file chat rest parts (observe u (advance u w))
    (TelegramCollector.script_batch get_file chat (u :: rest) parts w).
Proof.
  simpl. repeat case_match; subst;
    first
      [ by apply turn_document
      | apply turn_cancel; by split
      | apply turn_sentinel; [by split | done]
      | apply turn_next;
        [ by split
        | done
        | first [ by left | right; eexists; split; [eassumption|reflexivity] ] ]
      ].
Qed.

Local Abbreviation nonempty := (fun s : string => s <> EmptyString).

(** The fragments held by the step are never empty strings, and the finish
    sentinel ends the step only when there is at least one. *)
Lemma script_batch_parts l parts w :
  Forall nonempty parts ->
  match TelegramCollector.script_batch get_file chat l parts w with
  | (Exit (BySentinel ps), _) => Forall nonempty ps /\ ps <> []
  | (Exit (ByTimeout _), _) => False
  | (Exit (ByDocument _), _) => True
  | (Cancel, _) => True
  | (Continue ps, _) => Forall nonempty ps
  end.
Proof.
  revert parts w. induction l as [|u l IH]; intros parts w Hall; [done|].
  destruct (script_batch_turn u l parts w) as [parts' w2 _ _ Hparts| | |];
    try done.
  apply IH. destruct Hparts as [->|(t & Ht & ->)]; [done|].
  apply Forall_app. split; [done|]. apply Forall_singleton.
  intros ->. discriminate.
Qed.

(** The poll of one turn of the loop, when at least a second is left. *)
Lemma script_loop_poll fuel timeout start parts w :
  clock w - start + usec <= timeout * usec ->
  TelegramCollector.script_loop feed get_file chat (S fuel) timeout start
    parts w =
  let (r, w1) :=
    TelegramCollector.get_updates feed (update_offset w)
      (Z.min 30 (Z.quot (timeout * usec - (clock w - start)) usec)) w in
  match r with
  | Failed =>
      TelegramCollector.script_loop feed get_file chat fuel timeout start
        parts (sleep 5 w1)
  | NotOk =>
      TelegramCollector.script_loop feed get_file chat fuel timeout start
        parts (sleep 3 w1)
  | Ok updates =>
      match TelegramCollector.script_batch get_file chat updates parts w1 with
      | (Exit e, w2) => (Done e, w2)
      | (Cancel, w2) => (Raised WorkflowCancelled, w2)
      | (Continue parts, w2) =>
          TelegramCollector.script_loop feed get_file chat fuel timeout start
            parts w2
      end
  end.
Proof.
  intros Htime. rewrite script_loop_unfold.
  destruct (remaining_time_some (timeout * usec) (clock w - start)) as [-> H];
    [lia|].
  cbv zeta. by rewrite H.
Qed.

(** Once the time is up the loop returns what it holds, without polling. *)
Lemma script_loop_late fuel timeout start parts w :
  timeout * usec - usec < clock w - start ->
  TelegramCollector.script_loop feed get_file chat (S fuel) timeout start
    parts w = (Done (ByTimeout parts), w).
Proof.
  intros Htime. rewrite script_loop_unfold.
  destruct (clock w - start <? timeout * usec) eqn:Hin; [|done].
  cbv zeta. apply Z.ltb_lt in Hin.
  assert (Hq : (Z.quot (timeout * usec - (clock w - start)) usec <=? 0) = true).
  { apply Z.leb_le. rewrite Z.quot_small; [done|]. unfold usec in *. lia. }
  by rewrite Hq.
Qed.

(** How the loop can end. *)
Lemma script_loop_exit fuel timeout start parts w e w' :
  Forall nonempty parts ->
  TelegramCollector.script_loop feed get_file chat fuel timeout start parts w
  = (Done e, w') ->
  match e with
  | BySentinel ps => Forall nonempty ps /\ ps <> []
  | ByTimeout ps =>
      Forall nonempty ps /\ timeout * usec - usec < clock w' - start
  | ByDocument _ => True
  end.
Proof.
  revert parts w. induction fuel as [|fuel IH]; intros parts w Hall;
    [discriminate|].
  rewrite script_loop_unfold.
  destruct (clock w - start <? timeout * usec) eqn:Hin.
  - cbv zeta. apply Z.ltb_lt in Hin.
    destruct (_ <=? 0) eqn:Hrem.
    + intros [= <- <-]. split; [done|]. by apply remaining_time_none.
    + destruct (TelegramCollector.get_updates _ _ _ w) as [[| |updates] w1].
      * by apply IH.
      * by apply IH.
      * pose proof (script_batch_parts updates parts w1 Hall) as Hb.
        destruct (TelegramCollector.script_batch _ _ updates parts w1)
          as [[[content|ps|ps]| |ps] w2]; try done.
        -- by intros [= <- <-].
        -- by intros [= <- <-].
        -- by apply IH.
  - apply Z.ltb_ge in Hin. intros [= <- <-]. split; [done|].
    unfold usec in *. lia.
Qed.

Lemma script_step_exit fuel timeout w e w' :
  TelegramCollector.script_step feed get_file chat fuel timeout w = (Done e, w') ->
  match e with
  | BySentinel ps => Forall nonempty ps /\ ps <> []
  | ByTimeout ps =>
      Forall nonempty ps /\ timeout * usec - usec < clock w' - clock w
  | ByDocument _ => True
  end.
Proof.
  unfold TelegramCollector.script_step. intros H.
  by apply script_loop_exit in H.
Qed.

Lemma falsy_join parts :
  parts <> [] -> Forall nonempty parts ->
  falsy (Some (Text.join Text.nl parts)) = false.
Proof.
  intros Hne Hall. pose proof (join_nonempty Text.nl parts Hne Hall) as H.
  simpl. by destruct (Text.join Text.nl parts).
Qed.

End ScriptStep.

(* ===================================================================== *)
(** ** Claims about the script step *)
(* ===================================================================== *)

(** C9.  Fragment mode, no fragment collected yet.  When the next update is
    a plain-text message of the operator whose text is a finish sentinel,
    the step sends the "no script yet" notice and goes on with the rest of
    the batch, still without fragments; a batch made of that update alone
    ends with [Continue []], so nothing is returned; and the [while] loop
    goes on with the same timeout, the same start time and no fragments. *)
Theorem sentinel_without_fragments (feed : nat -> request -> response)
    (get_file : string -> fetch_result) (chat : option string)
    (u : update) (m : message) :
  upd_message u = Some m ->
  msg_chat m = TelegramCollector.chat_id chat ->
  doc m = None ->
  Text.member (Text.upper (Text.strip (text_of m))) finish_words = true ->
  (forall rest w,
     TelegramCollector.script_batch get_file chat (u :: rest) [] w =
     TelegramCollector.script_batch get_file chat rest []
       (send_message NoScriptYet (observe u (advance u w)))) /\
  (forall w,
     TelegramCollector.script_batch get_file chat [u] [] w =
     (Continue [], send_message NoScriptYet (observe u (advance u w)))) /\
  (forall fuel timeout start w,
     clock w - start + usec <= timeout * usec ->
     body (feed (polls w)
             (Request (update_offset w)
                (Z.min 30 (Z.quot (timeout * usec - (clock w - start)) usec))))
     = Ok [u] ->
     exists w1,
       steady w w1 /\
       TelegramCollector.script_loop feed get_file chat (S fuel) timeout start
         [] w =
       TelegramCollector.script_loop feed get_file chat fuel timeout start []
         (send_message NoScriptYet (observe u (advance u w1)))).
Proof.
  intros Hm Hchat Hdoc Hfin.
  destruct (finish_not_cancel _ Hfin) as [Hne Hnc].
  assert (Hbatch : forall rest w,
     TelegramCollector.script_batch get_file chat (u :: rest) [] w =
     TelegramCollector.script_batch get_file chat rest []
       (send_message NoScriptYet (observe u (advance u w)))).
  { intros rest w. cbn [TelegramCollector.script_batch].
    rewrite Hm, Hchat, String.eqb_refl, Hdoc. cbn [negb].
    by rewrite Hne, Hnc, Hfin. }
  split; [exact Hbatch|]. split; [intros w; by rewrite Hbatch|].
  intros fuel timeout start w Htime Hreply.
  rewrite script_loop_poll by done.
  unfold TelegramCollector.get_updates. rewrite Hreply.
  eexists. split; [|rewrite Hbatch; reflexivity]. by split.
Qed.

(** C10.  When the script step ends because its time is up (no finish
    sentinel, no document), with the fragments [parts] in hand: the timeout
    of 900 seconds has elapsed to within the last second; the step returns
    the fragments joined with line feeds if there is at least one, and
    nothing otherwise; with a fragment the conversation builds the
    production record from that script and stores it, without one it sends
    the "no script" notice, returns nothing and stores nothing. *)
Theorem script_timeout_outcome (feed : nat -> request -> response)
    (get_file : string -> fetch_result) (chat : option string) (fuel : nat)
    (titulo descricao : string) (tags : list string)
    (w w1 : world) (parts : list string) :
  TelegramCollector.script_step feed get_file chat fuel 900 w
  = (Done (ByTimeout parts), w1) ->
  900 * usec - usec < clock w1 - clock w /\
  TelegramCollector.collect_script_multipart feed get_file chat fuel 900 w
  = (Done (match parts with
           | [] => None
           | _ => Some (Text.join Text.nl parts)
           end), w1) /\
  match parts with
  | [] =>
      TelegramCollector.script_phase feed get_file chat fuel
        titulo descricao tags w
      = (Done None, send_message NoScript w1) /\
      productions (send_message NoScript w1) = productions w1
  | _ =>
      exists record w2,
        TelegramCollector.script_phase feed get_file chat fuel
          titulo descricao tags w
        = (Done (Some record), w2) /\
        script record = Text.join Text.nl parts /\
        script record <> EmptyString /\
        record = TelegramCollector.make_video_data (clock w1) titulo descricao
                   tags (Text.join Text.nl parts) /\
        productions w2 = <[video_id record := record]> (productions w1) /\
        outbox w2 =
          outbox w1 ++ [TelegramCollector.summary_of (Text.join Text.nl parts)]
  end.
Proof.
  intros Hstep.
  destruct (script_step_exit _ _ _ _ _ _ _ _ Hstep) as [Hall Htime].
  split; [exact Htime|].
  assert (Hcollect :
    TelegramCollector.collect_script_multipart feed get_file chat fuel 900 w
    = (Done (script_value (ByTimeout parts)), w1)).
  { unfold TelegramCollector.collect_script_multipart.
    by rewrite (bind_eq_done _ _ _ _ _ Hstep). }
  split; [by destruct parts|].
  unfold TelegramCollector.script_phase.
  rewrite (bind_eq_done _ _ _ _ _ Hcollect).
  destruct parts as [|p ps]; [done|].
  assert (Hne : p :: ps <> []) by done.
  pose proof (falsy_join _ Hne Hall) as Hfalsy.
  pose proof (join_nonempty Text.nl _ Hne Hall) as Hjoin.
  cbn [script_value]. rewrite Hfalsy.
  eexists _, _. split; [reflexivity|]. done.
Qed.

Lemma sentinel_without_fragments_witness :
  TelegramCollector.script_batch Scenario.no_files (Some Scenario.me)
    [Scenario.early_pronto] [] Scenario.fresh =
  (Continue [],
   send_message NoScriptYet
     (observe Scenario.early_pronto
        (advance Scenario.early_pronto Scenario.fresh))).
Proof.
  destruct (sentinel_without_fragments (Scenario.serve [])
              Scenario.no_files (Some Scenario.me) Scenario.early_pronto
              (Message Scenario.me (Some "pronto") None)
              eq_refl eq_refl eq_refl eq_refl) as (_ & H & _).
  apply H.
Defined.

Lemma script_timeout_outcome_witness :
  exists record w2,
    TelegramCollector.script_phase
      (Scenario.serve Scenario.one_part_script) Scenario.no_files
      (Some Scenario.me) 40 "D-Day" "desc" ["WWII"] Scenario.fresh
    = (Done (Some record), w2) /\
    script record = "Only part".
Proof.
  set (run := TelegramCollector.script_step
                (Scenario.serve Scenario.one_part_script) Scenario.no_files
                (Some Scenario.me) 40 900 Scenario.fresh).
  assert (Hrun : run = (Done (ByTimeout ["Only part"]), snd run))
    by (vm_compute; reflexivity).
  destruct (script_timeout_outcome _ _ _ _ "D-Day" "desc" ["WWII"] _ _ _ Hrun)
    as (_ & _ & record & w2 & Hphase & Hscript & _).
  exists record, w2. split; [exact Hphase | exact Hscript].
Defined.

Section ScriptModes.

Variable get_file : string -> fetch_result.
Variable chat : option string.

Implicit Types (w : world) (parts : list string).

(** A plain-text message of the operator that is neither a cancel directive
    nor a finish sentinel becomes a fragment. *)
Lemma script_batch_fragment id t rest parts w :
  let u := Scenario.says id (TelegramCollector.chat_id chat) t in
  Text.is_empty (Text.strip t) = false ->
  Text.member (Text.lower (Text.strip t)) cancel_words = false ->
  Text.member (Text.upper (Text.strip t)) finish_words = false ->
  TelegramCollector.script_batch get_file chat (u :: rest) parts w =
  TelegramCollector.script_batch get_file chat rest (parts ++ [Text.strip t])
    (send_message
       (PartReceived (length (parts ++ [Text.strip t]))
          (TelegramCollector.count_words (parts ++ [Text.strip t])))
       (observe u (advance u w))).
Proof.
  intros u Hne Hnc Hnf. cbn [TelegramCollector.script_batch].
  cbn [u Scenario.says upd_message msg_chat doc].
  rewrite String.eqb_refl. cbn [negb].
  unfold text_of. cbn [text]. by rewrite Hne, Hnc, Hnf.
Qed.

(** A finish sentinel with fragments in hand ends the step. *)
Lemma script_batch_finish id t rest parts w :
  let u := Scenario.says id (TelegramCollector.chat_id chat) t in
  Text.member (Text.upper (Text.strip t)) finish_words = true ->
  parts <> [] ->
  TelegramCollector.script_batch get_file chat (u :: rest) parts w =
  (Exit (BySentinel parts), observe u (advance u w)).
Proof.
  intros u Hfin Hparts. destruct (finish_not_cancel _ Hfin) as [Hne Hnc].
  cbn [TelegramCollector.script_batch].
  cbn [u Scenario.says upd_message msg_chat doc].
  rewrite String.eqb_refl. cbn [negb].
  unfold text_of. cbn [text]. rewrite Hne, Hnc, Hfin.
  by destruct parts.
Qed.

(** An uploaded text file whose content can be fetched ends the step with
    that content, whatever fragments were collected. *)
Lemma script_batch_document id name file content rest parts w :
  let u := Scenario.uploads id (TelegramCollector.chat_id chat) name file in
  Text.endswith ".txt" name = true ->
  get_file file = FetchOk content ->
  TelegramCollector.script_batch get_file chat (u :: rest) parts w =
  (Exit (ByDocument content),
   send_message FileReceived (observe u (advance u w))).
Proof.
  intros u Hname Hfile. cbn [TelegramCollector.script_batch].
  cbn [u Scenario.uploads upd_message msg_chat doc file_name file_id].
  rewrite String.eqb_refl. cbn [negb]. by rewrite Hname, Hfile.
Qed.

End ScriptModes.

(** C7.  The script step started in the same state yields the same script,
    ["Part one.\nPart two."], whether the operator sends the fragments
    "Part one." and "Part two." followed by the sentinel "PRONTO" (one
    message per poll, or all three in one batch) or uploads a .txt document
    with the content ["Part one.\nPart two."]: fragments are joined with
    line feeds, the content of the document is returned as it is. *)
Theorem script_modes_agree
    (by_parts in_one_batch by_document : nat -> request -> response)
    (get_file : string -> fetch_result) (chat : option string)
    (fuel : nat) (timeout : Z) (w : world)
    (e1 e2 e3 eb ed : positive) (i1 i2 i3 j : Z) (name file : string) :
  let who := TelegramCollector.chat_id chat in
  (forall t, by_parts (polls w) (Request (update_offset w) t) =
             Response e1 (Ok [Scenario.says i1 who "Part one."])) ->
  (forall t, by_parts (S (polls w)) (Request (i1 + 1) t) =
             Response e2 (Ok [Scenario.says i2 who "Part two."])) ->
  (forall t, by_parts (S (S (polls w))) (Request (i2 + 1) t) =
             Response e3 (Ok [Scenario.says i3 who "PRONTO"])) ->
  (forall t, in_one_batch (polls w) (Request (update_offset w) t) =
             Response eb (Ok [Scenario.says i1 who "Part one.";
                              Scenario.says i2 who "Part two.";
                              Scenario.says i3 who "PRONTO"])) ->
  (forall t, by_document (polls w) (Request (update_offset w) t) =
             Response ed (Ok [Scenario.uploads j who name file])) ->
  Text.endswith ".txt" name = true ->
  get_file file = FetchOk Scenario.two_parts ->
  Z.pos e1 + Z.pos e2 + usec <= timeout * usec ->
  fst (TelegramCollector.collect_script_multipart
         by_parts get_file chat (S (S (S fuel))) timeout w)
  = Done (Some Scenario.two_parts) /\
  fst (TelegramCollector.collect_script_multipart
         in_one_batch get_file chat (S fuel) timeout w)
  = Done (Some Scenario.two_parts) /\
  fst (TelegramCollector.collect_script_multipart
         by_document get_file chat (S fuel) timeout w)
  = Done (Some Scenario.two_parts).
Proof.
  intros who Hp1 Hp2 Hp3 Hb Hd Hname Hfile Htime.
  unfold TelegramCollector.collect_script_multipart,
    TelegramCollector.script_step, bind.
  set (w0 := send_message ScriptPrompt w).
  assert (Hclock : clock w0 = clock w) by done.
  assert (Hpolls : polls w0 = polls w) by done.
  split; [|split].
  - rewrite script_loop_poll by (rewrite Hclock; lia).
    unfold TelegramCollector.get_updates at 1. rewrite Hpolls.
    change (update_offset w0) with (update_offset w). rewrite Hp1.
    cbn [body elapsed].
    rewrite (script_batch_fragment get_file chat i1 "Part one.") by done.
    cbn [TelegramCollector.script_batch].
    rewrite script_loop_poll by (simpl; lia).
    unfold TelegramCollector.get_updates at 1. simpl polls.
    simpl update_offset. rewrite Hp2.
    cbn [body elapsed].
    rewrite (script_batch_fragment get_file chat i2 "Part two.") by done.
    cbn [TelegramCollector.script_batch].
    rewrite script_loop_poll by (simpl; lia).
    unfold TelegramCollector.get_updates at 1. simpl polls.
    simpl update_offset. rewrite Hp3.
    cbn [body elapsed].
    by rewrite (script_batch_finish get_file chat i3 "PRONTO").
  - rewrite script_loop_poll by (rewrite Hclock; lia).
    unfold TelegramCollector.get_updates at 1. rewrite Hpolls.
    change (update_offset w0) with (update_offset w). rewrite Hb.
    cbn [body elapsed].
    rewrite (script_batch_fragment get_file chat i1 "Part one.") by done.
    rewrite (script_batch_fragment get_file chat i2 "Part two.") by done.
    by rewrite (script_batch_finish get_file chat i3 "PRONTO").
  - rewrite script_loop_poll by (rewrite Hclock; lia).
    unfold TelegramCollector.get_updates at 1. rewrite Hpolls.
    change (update_offset w0) with (update_offset w). rewrite Hd.
    cbn [body elapsed].
    by rewrite (script_batch_document get_file chat j name file
                  Scenario.two_parts).
Qed.

Lemma script_modes_agree_witness :
  fst (TelegramCollector.collect_script_multipart
         (Scenario.serve Scenario.fragments_script) Scenario.file_store
         (Some Scenario.me) 3 900 Scenario.fresh)
  = Done (Some Scenario.two_parts) /\
  fst (TelegramCollector.collect_script_multipart
         (Scenario.serve Scenario.fragments_batch_script) Scenario.file_store
         (Some Scenario.me) 1 900 Scenario.fresh)
  = Done (Some Scenario.two_parts) /\
  fst (TelegramCollector.collect_script_multipart
         (Scenario.serve Scenario.document_script) Scenario.file_store
         (Some Scenario.me) 1 900 Scenario.fresh)
  = Done (Some Scenario.two_parts).
Proof.
  apply (script_modes_agree
           (Scenario.serve Scenario.fragments_script)
           (Scenario.serve Scenario.fragments_batch_script)
           (Scenario.serve Scenario.document_script)
           Scenario.file_store (Some Scenario.me) 0 900 Scenario.fresh
           Scenario.sec Scenario.sec Scenario.sec Scenario.sec Scenario.sec
           1 2 3 1 "roteiro.txt" "file-1");
    try (intros t; reflexivity); try reflexivity.
  vm_compute. discriminate.
Defined.

(* ===================================================================== *)
(** ** The conversation *)
(* ===================================================================== *)

Section Conversation.

Variable feed : nat -> request -> response.
Variable get_file : string -> fetch_result.
Variable chat : option string.

Implicit Types (w : world).

(** An answer returned by [wait_for_message] is a stripped, non-empty
    text. *)
Lemma wait_batch_some l w t w' :
  TelegramCollector.wait_batch chat l w = (Done (Some t), w') ->
  Text.is_empty t = false /\ Text.strip t = t.
Proof.
  revert w. induction l as [|u l IH]; intros w; simpl; [discriminate|].
  repeat case_match; try discriminate; try apply IH.
  intros [= <- <-]. split; [done|]. apply strip_idempotent.
Qed.

Lemma wait_loop_some fuel timeout interval start reminder check w t w' :
  TelegramCollector.wait_loop feed chat fuel timeout interval start reminder
    check w = (Done (Some t), w') ->
  Text.is_empty t = false /\ Text.strip t = t.
Proof.
  revert reminder check w.
  induction fuel as [|fuel IH]; intros reminder check w; simpl;
    [discriminate|].
  destruct (clock w - start <? timeout * usec); [|discriminate].
  intros H.
  apply bind_done in H. destruct H as (check' & w1 & _ & H).
  apply bind_done in H. destruct H as (reminder' & w2 & _ & H).
  apply bind_done in H. destruct H as (r & w3 & _ & H).
  destruct r as [| |updates].
  - rewrite bind_act in H. by apply IH in H.
  - rewrite bind_act in H. by apply IH in H.
  - apply bind_done in H. destruct H as ([text|] & w4 & Hb & H).
    + injection H as <- <-. by apply wait_batch_some in Hb.
    + by apply IH in H.
Qed.

Lemma wait_for_message_some fuel timeout interval w t w' :
  TelegramCollector.wait_for_message feed chat fuel timeout interval w
  = (Done (Some t), w') ->
  Text.is_empty t = false /\ Text.strip t = t.
Proof. apply wait_loop_some. Qed.

(** [wait_for_message] never returns an empty text. *)
Lemma wait_for_message_falsy fuel timeout interval w x w' :
  TelegramCollector.wait_for_message feed chat fuel timeout interval w
  = (Done x, w') ->
  falsy x = true -> x = None.
Proof.
  destruct x as [t|]; [|done]. intros H Hf.
  apply wait_for_message_some in H. destruct H as [H _].
  simpl in Hf. congruence.
Qed.


(** A one-line step that gets no reply ends the conversation with the
    "time is up" notice and no record. *)
Lemma step_timed_out_talk fuel start w1 :
  step_timed_out feed chat fuel start w1 ->
  TelegramCollector.collect_video_info feed get_file chat fuel start
  = (Done None, send_message TimedOut w1).
Proof.
  intros Hstep.
  unfold TelegramCollector.collect_video_info,
    TelegramCollector.catch_cancelled.
  destruct Hstep as [w1 Ht | titulo wa w1 Ht Hd
                    | titulo wa descricao wb w1 Ht Hd Hg];
    unfold ask_title, ask_description, ask_tags in *;
    rewrite !bind_act, (bind_eq_done _ _ _ _ _ Ht); [done| |].
  - destruct (wait_for_message_some _ _ _ _ _ _ Ht) as [Hne _].
    cbn [falsy]. rewrite Hne, !bind_act, (bind_eq_done _ _ _ _ _ Hd). done.
  - destruct (wait_for_message_some _ _ _ _ _ _ Ht) as [Hne _].
    destruct (wait_for_message_some _ _ _ _ _ _ Hd) as [Hne' _].
    cbn [falsy]. rewrite Hne, !bind_act, (bind_eq_done _ _ _ _ _ Hd).
    cbn [falsy]. rewrite Hne', !bind_act, (bind_eq_done _ _ _ _ _ Hg). done.
Qed.

(** A script step that runs out of time with no fragment ends the
    conversation with the "no script" notice and no record. *)
Lemma script_timed_out_talk fuel start w1 :
  script_timed_out feed get_file chat fuel start w1 ->
  TelegramCollector.collect_video_info feed get_file chat fuel start
  = (Done None, send_message NoScript w1).
Proof.
  intros (titulo & wa & descricao & wb & tags_text & wc & Ht & Hd & Hg & Hs).
  destruct (wait_for_message_some _ _ _ _ _ _ Ht) as [Hne _].
  destruct (wait_for_message_some _ _ _ _ _ _ Hd) as [Hne' _].
  destruct (wait_for_message_some _ _ _ _ _ _ Hg) as [Hne'' _].
  unfold TelegramCollector.collect_video_info,
    TelegramCollector.catch_cancelled.
  unfold ask_title, ask_description, ask_tags, ask_script in *.
  rewrite !bind_act, (bind_eq_done _ _ _ _ _ Ht).
  cbn [falsy]. rewrite Hne, !bind_act, (bind_eq_done _ _ _ _ _ Hd).
  cbn [falsy]. rewrite Hne', !bind_act, (bind_eq_done _ _ _ _ _ Hg).
  cbn [falsy]. rewrite Hne'', !bind_act.
  unfold TelegramCollector.script_phase,
    TelegramCollector.collect_script_multipart.
  rewrite (bind_eq_done _ _ _ _ _ (bind_eq_done _ _ _ _ _ Hs)). done.
Qed.

End Conversation.

(* ===================================================================== *)
(** ** Claims about the conversation *)
(* ===================================================================== *)

Section SummaryFacts.









(** On ASCII text characters are bytes. *)
Lemma len_ascii s :
  forallb (fun c => (nat_of_ascii c <? 128)%nat) (list_ascii_of_string s) = true ->
  Text.len s = String.length s /\
  forall n, Text.take n s = String.substring 0 n s.
Proof.
  induction s as [|c s IH]; [intros _; split; [done|by intros []]|].
  cbn [list_ascii_of_string forallb]. intros [Hc Hs]%andb_prop.
  destruct (IH Hs) as [Hlen Htake].
  assert (Hcont : Text.is_continuation c = false).
  { unfold Text.is_continuation. apply Nat.ltb_lt in Hc.
    apply andb_false_iff. left. apply Nat.leb_gt. lia. }
  cbn [Text.len Text.take String.length]. rewrite Hcont.
  split; [by rewrite Hlen|]. intros [|n]; [done|].
  cbn [String.substring]. by rewrite Htake.
Qed.


(** The characters of a text with a letter outside ASCII: [len] and slicing
    count the two bytes of the e with acute accent as one. *)
Example len_counts_characters :
  String.length "équipe" = 7%nat /\ Text.len "équipe" = 6%nat /\
  Text.take 2 "équipe" = "éq".
Proof. repeat split. Qed.

(** A script of 150 accented letters (300 bytes) is its own preview; one of
    201 is cut after the 200th letter. *)
Example preview_of_accented_script :
  let accented n := String.concat "" (repeat "é" n) in
  TelegramCollector.preview_of (accented 150%nat) = accented 150%nat /\
  TelegramCollector.preview_of (accented 201%nat)
  = accented 200%nat +:+ "...".
Proof. split; vm_compute; reflexivity. Qed.

End SummaryFacts.

Section TagsAnswer.

Variable feed : nat -> request -> response.
Variable get_file : string -> fetch_result.
Variable chat : option string.

Implicit Types (s a b : string) (c sep : ascii) (w : world).






End TagsAnswer.







Section ExitStatus.

Variable feed : nat -> request -> response.
Variable get_file : string -> fetch_result.
Variable token chat : option string.
Variable run_production : production.

(** Making a collector sends nothing. *)
Lemma init_outbox w : outbox (TelegramCollector.init feed w) = outbox w.
Proof.
  unfold TelegramCollector.init, TelegramCollector._get_last_update_id,
    TelegramCollector.get_updates.
  by destruct (body (feed (polls w) (Request (-1) 0))) as [| |[|u l]].
Qed.

(** The file as it is written: [collector.collect_video_info()] raises
    [AttributeError], the handler of [except Exception] makes its own
    collector and fails to report for the same reason, and [main] returns 1.
    Two collectors have been made, no message has been sent. *)
Lemma main_as_written fuel w :
  falsy token = false -> falsy chat = false ->
  TelegramCollector.main_with feed get_file token chat run_production
    TelegramCollector.AsWritten fuel w
  = (Done 1, TelegramCollector.init feed (TelegramCollector.init feed w)).
Proof.
  intros Htoken Hchat. unfold TelegramCollector.main_with.
  rewrite Htoken, Hchat. by rewrite bind_act.
Qed.

(** With the functions in the class, the conversation and the production
    step decide. *)
Lemma main_as_documented fuel w w' status :
  falsy token = false ->
  falsy chat = false ->
  TelegramCollector.main_with feed get_file token chat run_production
    TelegramCollector.AsDocumented fuel w
  = (Done status, w') ->
  let start := TelegramCollector.init feed w in
  let talk := TelegramCollector.collect_video_info feed get_file chat fuel start in
  (status = 0 \/ status = 1 \/ status = 2) /\
  (status = 0 <->
   exists record w1, talk = (Done (Some record), w1) /\
                     run_production record w1 = (Done true, w')) /\
  (status = 2 <->
   exists record w1, talk = (Done (Some record), w1) /\
                     run_production record w1 = (Raised WorkflowCancelled, w')) /\
  (forall w1, talk = (Done None, w1) -> status = 1 /\ w' = w1) /\
  (forall w1, step_timed_out feed chat fuel start w1 ->
     status = 1 /\ w' = send_message TimedOut w1) /\
  (forall w1, script_timed_out feed get_file chat fuel start w1 ->
     status = 1 /\ w' = send_message NoScript w1) /\
  (forall record w1 w2,
     talk = (Done (Some record), w1) ->
     run_production record w1 = (Raised OtherError, w2) ->
     status = 1 /\
     w' = send_message ProductionError (TelegramCollector.init feed w2)).
Proof.
  intros Htoken Hchat Hmain start talk.
  unfold TelegramCollector.main_with in Hmain.
  rewrite Htoken, Hchat in Hmain.
  rewrite bind_act in Hmain. fold start in Hmain.
  unfold bind, TelegramCollector.call_method in Hmain.
  cbn [TelegramCollector.attributes] in Hmain.
  change (Text.member "collect_video_info" _) with true in Hmain.
  change (Text.member "send_message" _) with true in Hmain.
  cbv iota in Hmain. fold talk in Hmain.
  assert (Htimed : forall w1, step_timed_out feed chat fuel start w1 ->
                              talk = (Done None, send_message TimedOut w1))
    by (intros w1; apply step_timed_out_talk).
  assert (Hscript : forall w1,
            script_timed_out feed get_file chat fuel start w1 ->
            talk = (Done None, send_message NoScript w1))
    by (intros w1; apply script_timed_out_talk).
  assert (Hnever : forall w1, talk <> (Raised WorkflowCancelled, w1)).
  { intros w1. apply catch_cancelled_never_cancelled. }
  destruct talk as [[[record|]|[]|] w1] eqn:Htalk.
  - (* a record: the production step decides *)
    assert (Hno1 : forall w3, ~ step_timed_out feed chat fuel start w3).
    { intros w3 H. apply Htimed in H. discriminate. }
    assert (Hno2 : forall w3,
              ~ script_timed_out feed get_file chat fuel start w3).
    { intros w3 H. apply Hscript in H. discriminate. }
    destruct (run_production record w1) as [[[]|[]|] w2] eqn:Hprod;
      cbn in Hmain; try discriminate Hmain; injection Hmain as <- <-.
    + split; [auto|]. split; [split; [eauto|done]|].
      split; [split; [done|]|].
      { intros (r & w3 & [= <- <-] & H). congruence. }
      split; [intros ? [=]|].
      split; [intros w3 H; by destruct (Hno1 w3)|].
      split; [intros w3 H; by destruct (Hno2 w3)|].
      intros ? ? ? [= <- <-]; congruence.
    + split; [auto|]. split; [split; [done|]|].
      { intros (r & w3 & [= <- <-] & H). congruence. }
      split; [split; [done|]|].
      { intros (r & w3 & [= <- <-] & H). congruence. }
      split; [intros ? [=]|].
      split; [intros w3 H; by destruct (Hno1 w3)|].
      split; [intros w3 H; by destruct (Hno2 w3)|].
      intros ? ? ? [= <- <-]; congruence.
    + split; [auto|]. split; [split; [done|]|].
      { intros (r & w3 & [= <- <-] & H). congruence. }
      split; [split; [eauto|done]|].
      split; [intros ? [=]|].
      split; [intros w3 H; by destruct (Hno1 w3)|].
      split; [intros w3 H; by destruct (Hno2 w3)|].
      intros ? ? ? [= <- <-]; congruence.
    + split; [auto|]. split; [split; [done|]|].
      { intros (r & w3 & [= <- <-] & H). congruence. }
      split; [split; [done|]|].
      { intros (r & w3 & [= <- <-] & H). congruence. }
      split; [intros ? [=]|].
      split; [intros w3 H; by destruct (Hno1 w3)|].
      split; [intros w3 H; by destruct (Hno2 w3)|].
      intros r w3 w4 [= <- <-] H. rewrite Hprod in H.
      injection H as <-. done.
  - (* no record *)
    cbn in Hmain. injection Hmain as <- <-.
    split; [auto|]. split; [split; [done|]|].
    { intros (r & w3 & [=] & _). }
    split; [split; [done|]|].
    { intros (r & w3 & [=] & _). }
    split; [by intros ? [= <-]|].
    split; [intros w3 H; apply Htimed in H; by injection H as <-|].
    split; [intros w3 H; apply Hscript in H; by injection H as <-|].
    intros ? ? ? [=].
  - by destruct (Hnever w1).
  - (* another exception during the conversation *)
    cbn in Hmain. injection Hmain as <- <-.
    split; [auto|]. split; [split; [done|]|].
    { intros (r & w3 & [=] & _). }
    split; [split; [done|]|].
    { intros (r & w3 & [=] & _). }
    split; [intros ? [=]|].
    split; [intros w3 H; apply Htimed in H; discriminate|].
    split; [intros w3 H; apply Hscript in H; discriminate|].
    intros ? ? ? [=].
  - discriminate.
Qed.

End ExitStatus.

(** C4, as the code has it.  With the token and the recipient configured,
    when [main] returns a status, for the class as it is written and for
    the class with the functions in it:
    - the status is 0, 1 or 2;
    - it is 0 exactly when [main] has got a record from the conversation and
      the production step returned success;
    - it is 2 exactly when [main] has got a record from the conversation and
      the production step raised the cancellation signal;
    - when the conversation runs and ends without a record the status is 1;
      so it is when the Title, Description or Tags step gets no reply before
      its timeout (the conversation has then sent the "time is up" notice)
      and when the script step runs out of time without a fragment (the "no
      script" notice);
    - when the production step raises another exception the status is 1 and
      the error notice is sent;
    - as the file is written, [main] gets no record: the call of
      [collect_video_info] raises, the status is 1 and nothing is sent. *)
Theorem exit_status (feed : nat -> request -> response)
    (get_file : string -> fetch_result) (token chat : option string)
    (run_production : production) (l : TelegramCollector.layout)
    (fuel : nat) (w w' : world) (status : Z) :
  falsy token = false ->
  falsy chat = false ->
  TelegramCollector.main_with feed get_file token chat run_production l fuel w
  = (Done status, w') ->
  let start := TelegramCollector.init feed w in
  let talk := TelegramCollector.collect_video_info feed get_file chat fuel start in
  (status = 0 \/ status = 1 \/ status = 2) /\
  (status = 0 <->
   l = TelegramCollector.AsDocumented /\
   exists record w1, talk = (Done (Some record), w1) /\
                     run_production record w1 = (Done true, w')) /\
  (status = 2 <->
   l = TelegramCollector.AsDocumented /\
   exists record w1, talk = (Done (Some record), w1) /\
                     run_production record w1 = (Raised WorkflowCancelled, w')) /\
  (l = TelegramCollector.AsDocumented ->
   (forall w1, talk = (Done None, w1) -> status = 1 /\ w' = w1) /\
   (forall w1, step_timed_out feed chat fuel start w1 ->
      status = 1 /\ w' = send_message TimedOut w1) /\
   (forall w1, script_timed_out feed get_file chat fuel start w1 ->
      status = 1 /\ w' = send_message NoScript w1) /\
   (forall record w1 w2,
      talk = (Done (Some record), w1) ->
      run_production record w1 = (Raised OtherError, w2) ->
      status = 1 /\
      w' = send_message ProductionError (TelegramCollector.init feed w2))) /\
  (l = TelegramCollector.AsWritten ->
   status = 1 /\ w' = TelegramCollector.init feed start /\
   outbox w' = outbox w).
Proof.
  intros Htoken Hchat Hmain start talk. destruct l.
  - rewrite main_as_written in Hmain by done. injection Hmain as <- <-.
    split; [auto|]. split; [split; [done|by intros [? _]]|].
    split; [split; [done|by intros [? _]]|].
    split; [done|]. intros _. split; [done|]. split; [done|].
    by rewrite !init_outbox.
  - destruct (main_as_documented feed get_file token chat run_production
                fuel w w' status Htoken Hchat Hmain)
      as (H1 & H0 & H2 & Hnone & Htimed & Hscript & Hother).
    split; [exact H1|].
    split; [split; [intros H; split; [done|by apply H0]
                   |intros [_ H]; by apply H0]|].
    split; [split; [intros H; split; [done|by apply H2]
                   |intros [_ H]; by apply H2]|].
    split; [intros _|done].
    split; [exact Hnone|]. split; [exact Htimed|].
    split; [exact Hscript|exact Hother].
Qed.

Lemma exit_status_witness :
  let feed := Scenario.serve Scenario.dday_script in
  let start := TelegramCollector.init feed Scenario.fresh in
  (exists w',
     TelegramCollector.main feed Scenario.no_files (Some "token")
       (Some Scenario.me) Scenario.production_ok 10 Scenario.fresh
     = (Done 1, w') /\
     w' = TelegramCollector.init feed start /\ outbox w' = []) /\
  (exists record w1 w',
     TelegramCollector.collect_video_info feed Scenario.no_files
       (Some Scenario.me) 10 start
     = (Done (Some record), w1) /\
     Scenario.production_ok record w1 = (Done true, w')).
Proof.
  intros feed start. split.
  - set (run := TelegramCollector.main feed Scenario.no_files (Some "token")
                  (Some Scenario.me) Scenario.production_ok 10 Scenario.fresh).
    assert (Hrun : run = (Done 1, snd run)) by (vm_compute; reflexivity).
    destruct (exit_status feed Scenario.no_files (Some "token")
                (Some Scenario.me) Scenario.production_ok
                TelegramCollector.AsWritten 10 Scenario.fresh (snd run) 1
                eq_refl eq_refl Hrun)
      as (_ & _ & _ & _ & Hwritten).
    destruct (Hwritten eq_refl) as (_ & Hw & Hout).
    exists (snd run). split; [exact Hrun|]. split; [exact Hw|exact Hout].
  - set (run := TelegramCollector.main_with feed Scenario.no_files
                  (Some "token") (Some Scenario.me) Scenario.production_ok
                  TelegramCollector.AsDocumented 10 Scenario.fresh).
    assert (Hrun : run = (Done 0, snd run)) by (vm_compute; reflexivity).
    destruct (exit_status feed Scenario.no_files (Some "token")
                (Some Scenario.me) Scenario.production_ok
                TelegramCollector.AsDocumented 10 Scenario.fresh (snd run) 0
                eq_refl eq_refl Hrun)
      as (_ & [Hzero _] & _).
    destruct (Hzero eq_refl) as (_ & record & w1 & Htalk & Hprod).
    exists record, w1, (snd run). split; [exact Htalk | exact Hprod].
Defined.

(** C4, counterexample.  When nobody answers, the exit status is 1, not 0.
    As the file is written [main] fails at the call of
    [collect_video_info] and sends nothing.  With the functions in the
    class the Title step times out after ten minutes, the operator is sent
    the "time is up" notice, and [main] returns 1 at [if not video_data]. *)
Lemma exit_status_on_timeout :
  let written := TelegramCollector.main
                   (Scenario.serve Scenario.silent_script) Scenario.no_files
                   (Some "token") (Some Scenario.me) Scenario.production_ok
                   200 Scenario.fresh in
  let documented := TelegramCollector.main_with
                      (Scenario.serve Scenario.silent_script)
                      Scenario.no_files (Some "token") (Some Scenario.me)
                      Scenario.production_ok TelegramCollector.AsDocumented
                      200 Scenario.fresh in
  fst written = Done 1 /\ fst written <> Done 0 /\
  outbox (snd written) = [] /\
  fst documented = Done 1 /\ fst documented <> Done 0 /\
  last (outbox (snd documented)) = Some TimedOut /\
  600 * usec <= clock (snd documented).
Proof. vm_compute. repeat split; discriminate. Qed.

(** With the functions in the class, a cancel directive during the
    conversation is caught by [collect_video_info]: the exit status is 1,
    the status of a failure, while a cancellation raised by the production
    step gives 2. *)
Example exit_status_on_cancel :
  fst (TelegramCollector.main_with
         (Scenario.serve Scenario.cancel_script) Scenario.no_files
         (Some "token") (Some Scenario.me) Scenario.production_ok
         TelegramCollector.AsDocumented 10 Scenario.fresh) = Done 1 /\
  fst (TelegramCollector.main_with
         (Scenario.serve Scenario.dday_script) Scenario.no_files
         (Some "token") (Some Scenario.me) Scenario.production_cancelled
         TelegramCollector.AsDocumented 10 Scenario.fresh) = Done 2 /\
  fst (TelegramCollector.main_with
         (Scenario.serve Scenario.dday_script) Scenario.no_files
         (Some "token") (Some Scenario.me) Scenario.production_broken
         TelegramCollector.AsDocumented 10 Scenario.fresh) = Done 1.
Proof. vm_compute. repeat split. Qed.

(* ===================================================================== *)
(** ** Enough fuel: the loops end when their time is up *)
(* ===================================================================== *)

Section Termination.

Variable feed : nat -> request -> response.
Variable get_file : string -> fetch_result.
Variable chat : option string.

Implicit Types (w : world).

Lemma get_updates_clock o t w :
  clock w < clock (snd (TelegramCollector.get_updates feed o t w)).
Proof. unfold TelegramCollector.get_updates. simpl. lia. Qed.

Lemma cancel_batch_clock l w :
  clock (snd (TelegramCollector.cancel_batch chat l w)) = clock w.
Proof.
  revert w. induction l as [|u l IH]; intros w; simpl; [done|].
  repeat case_match; simpl; rewrite ?IH; done.
Qed.

Lemma wait_batch_clock l w :
  clock (snd (TelegramCollector.wait_batch chat l w)) = clock w.
Proof.
  revert w. induction l as [|u l IH]; intros w; simpl; [done|].
  repeat case_match; simpl; rewrite ?IH; done.
Qed.

Lemma script_batch_clock l parts w :
  clock (snd (TelegramCollector.script_batch get_file chat l parts w))
  = clock w.
Proof.
  revert parts w. induction l as [|u l IH]; intros parts w; simpl; [done|].
  repeat case_match; simpl; rewrite ?IH; done.
Qed.

Lemma check_for_cancel_clock w :
  clock w < clock (snd (TelegramCollector.check_for_cancel feed chat w)).
Proof.
  unfold TelegramCollector.check_for_cancel.
  pose proof (get_updates_clock (update_offset w) 0 w) as H.
  destruct (TelegramCollector.get_updates feed (update_offset w) 0 w)
    as [[| |l] w1]; simpl in *; try done.
  by rewrite cancel_batch_clock.
Qed.

(** The script step: one unit of fuel per microsecond left is enough. *)
Lemma script_loop_terminates fuel timeout start parts w :
  Z.max 0 (start + timeout * usec - clock w) < Z.of_nat fuel ->
  fst (TelegramCollector.script_loop feed get_file chat fuel timeout start
         parts w) <> OutOfFuel.
Proof.
  revert parts w. induction fuel as [|fuel IH]; intros parts w Hfuel; [lia|].
  rewrite script_loop_unfold.
  destruct (clock w - start <? timeout * usec) eqn:Hin; [|done].
  apply Z.ltb_lt in Hin. cbv zeta.
  destruct (_ <=? 0); [done|].
  pose proof (get_updates_clock (update_offset w)
                (Z.min 30 (Z.quot (timeout * usec - (clock w - start)) usec))
                w) as Hclock.
  destruct (TelegramCollector.get_updates _ _ _ w) as [[| |updates] w1];
    simpl in Hclock.
  - apply IH. unfold sleep, usec in *. simpl. lia.
  - apply IH. unfold sleep, usec in *. simpl. lia.
  - pose proof (script_batch_clock updates parts w1) as Hb.
    destruct (TelegramCollector.script_batch _ _ updates parts w1)
      as [[e| |ps] w2]; simpl in Hb |- *; try done.
    apply IH. lia.
Qed.

(** One answer: the same bound. *)
Lemma wait_loop_terminates fuel timeout interval start reminder check w :
  Z.max 0 (start + timeout * usec - clock w) < Z.of_nat fuel ->
  fst (TelegramCollector.wait_loop feed chat fuel timeout interval start
         reminder check w) <> OutOfFuel.
Proof.
  revert reminder check w.
  induction fuel as [|fuel IH]; intros reminder check w Hfuel; [lia|].
  simpl.
  destruct (clock w - start <? timeout * usec) eqn:Hin; [|done].
  apply Z.ltb_lt in Hin.
  unfold bind at 1.
  set (chk := if clock w - start - check >=? interval * usec then _ else _).
  assert (Hchk : clock w <= clock (snd (chk w)) /\ fst (chk w) <> OutOfFuel).
  { unfold chk. destruct (_ >=? _); [|by split].
    pose proof (check_for_cancel_clock w) as H.
    destruct (TelegramCollector.check_for_cancel feed chat w) as [[] w1];
      simpl in *; split; (lia || done). }
  destruct (chk w) as [[check'| |] w1]; simpl in Hchk |- *; try done;
    [|by destruct Hchk].
  destruct Hchk as [Hc1 _].
  unfold bind at 1.
  set (rem := if _ >? reminder then _ else _).
  assert (Hrem : exists reminder' w2, rem w1 = (Done reminder', w2) /\
                                     clock w2 = clock w1).
  { unfold rem. destruct (_ >? _); eexists _, _; split; reflexivity. }
  destruct Hrem as (reminder' & w2 & -> & Hc2).
  unfold bind at 1, pure_step.
  pose proof (get_updates_clock (update_offset w2) 10 w2) as Hc3.
  destruct (TelegramCollector.get_updates feed (update_offset w2) 10 w2)
    as [[| |updates] w3]; simpl in Hc3.
  - rewrite bind_act. apply IH. unfold sleep, usec in *. simpl. lia.
  - rewrite bind_act. apply IH. unfold sleep, usec in *. simpl. lia.
  - unfold bind.
    pose proof (wait_batch_clock updates w3) as Hb.
    destruct (TelegramCollector.wait_batch chat updates w3)
      as [[[text|]| |] w4] eqn:Hbatch; simpl in Hb |- *; try done.
    + apply IH. lia.
    + revert Hbatch. clear. revert w3.
      induction updates as [|u l IHl]; intros w3; simpl; [discriminate|].
      repeat case_match; try discriminate; apply IHl.
Qed.

Lemma wait_for_message_terminates fuel timeout interval w :
  Z.max 0 (timeout * usec) < Z.of_nat fuel ->
  fst (TelegramCollector.wait_for_message feed chat fuel timeout interval w)
  <> OutOfFuel.
Proof.
  intros H. apply wait_loop_terminates.
  by replace (clock w + timeout * usec - clock w) with (timeout * usec) by lia.
Qed.

Lemma collect_script_multipart_terminates fuel timeout w :
  Z.max 0 (timeout * usec) < Z.of_nat fuel ->
  fst (TelegramCollector.collect_script_multipart feed get_file chat fuel
         timeout w) <> OutOfFuel.
Proof.
  intros H. unfold TelegramCollector.collect_script_multipart,
    TelegramCollector.script_step, bind.
  pose proof (script_loop_terminates fuel timeout
                (clock (send_message ScriptPrompt w)) []
                (send_message ScriptPrompt w)) as Hloop.
  destruct (TelegramCollector.script_loop _ _ _ _ _ _ _ _) as [[e| |] w1];
    simpl in *; try done.
  exfalso. apply Hloop; [|done].
  by replace (clock w + timeout * usec - clock w) with (timeout * usec) by lia.
Qed.

(** The whole conversation ends, given fuel for its longest step (the
    fifteen minutes of the script step). *)
Lemma collect_video_info_terminates fuel w :
  900 * usec < Z.of_nat fuel ->
  fst (TelegramCollector.collect_video_info feed get_file chat fuel w)
  <> OutOfFuel.
Proof.
  intros Hfuel.
  assert (Hwait : forall w0,
    fst (TelegramCollector.wait_for_message feed chat fuel 600 5 w0)
    <> OutOfFuel).
  { intros w0. apply wait_for_message_terminates. unfold usec in *. lia. }
  assert (Hscript : forall w0,
    fst (TelegramCollector.collect_script_multipart feed get_file chat fuel
           900 w0) <> OutOfFuel).
  { intros w0. apply collect_script_multipart_terminates.
    unfold usec in *. lia. }
  unfold TelegramCollector.collect_video_info,
    TelegramCollector.catch_cancelled.
  rewrite !bind_act.
  unfold bind at 1.
  lazymatch goal with
  | |- context [TelegramCollector.wait_for_message feed chat fuel 600 5 ?w0] =>
      pose proof (Hwait w0) as H1;
      destruct (TelegramCollector.wait_for_message feed chat fuel 600 5 w0)
        as [[titulo|[]|] wa]; simpl in H1 |- *; try done
  end.
  destruct (falsy titulo); [done|]. rewrite !bind_act.
  unfold bind at 1.
  lazymatch goal with
  | |- context [TelegramCollector.wait_for_message feed chat fuel 600 5 ?w0] =>
      pose proof (Hwait w0) as H2;
      destruct (TelegramCollector.wait_for_message feed chat fuel 600 5 w0)
        as [[descricao|[]|] wb]; simpl in H2 |- *; try done
  end.
  destruct (falsy descricao); [done|]. rewrite !bind_act.
  unfold bind at 1.
  lazymatch goal with
  | |- context [TelegramCollector.wait_for_message feed chat fuel 600 5 ?w0] =>
      pose proof (Hwait w0) as H3;
      destruct (TelegramCollector.wait_for_message feed chat fuel 600 5 w0)
        as [[tags_text|[]|] wc]; simpl in H3 |- *; try done
  end.
  destruct (falsy tags_text); [done|]. rewrite !bind_act.
  unfold TelegramCollector.script_phase, bind at 1.
  lazymatch goal with
  | |- context [TelegramCollector.collect_script_multipart
                  feed get_file chat fuel 900 ?w0] =>
      pose proof (Hscript w0) as H4;
      destruct (TelegramCollector.collect_script_multipart
                  feed get_file chat fuel 900 w0)
        as [[roteiro|[]|] wd]; simpl in H4 |- *; try done
  end.
  by destruct (falsy roteiro).
Qed.

End Termination.

(* ===================================================================== *)
(** ** Worked examples *)
(* ===================================================================== *)

(** The end-to-end scenario: title "D-Day", description "desc", tags
    "WWII, History", one fragment "Hello world" and the sentinel. *)
Example dday_record :
  record_of
    (fst (TelegramCollector.collect_video_info
            (Scenario.serve Scenario.dday_script) Scenario.no_files
            (Some Scenario.me) 10
            (TelegramCollector.init (Scenario.serve Scenario.dday_script)
               Scenario.fresh)))
  = Some (VideoData "video_13" 13000000 "D-Day" "desc" ["WWII"; "History"]
            "Hello world" "collected" 2 (2 # 150)).
Proof. vm_compute. reflexivity. Qed.

(** The cursor follows the last update taken: the contract of the feed is
    what keeps it from going back. *)
Example cursor_follows_a_replaying_feed :
  update_offset
    (snd (TelegramCollector.check_for_cancel Scenario.replaying
            (Some Scenario.me) Scenario.at_ten)) = 4.
Proof. reflexivity. Qed.

(** The store of the scenario after the expiry clean-up at hour 25: the
    entry made at midnight and never confirmed is gone, the one that is 24
    hours old and the confirmed one stay. *)
Example store_after_expiry :
  let after := DownloadManager.load_pending
                 (DownloadManager.cleanup_expired 24 Scenario.store_world) in
  after !! "download_1" = None /\
  after !! "download_2" = Some Scenario.edge /\
  after !! "download_3" = Some Scenario.kept.
Proof. vm_compute. repeat split. Qed.

(** The finish sentinel typed first is refused, and the step then times out
    with nothing. *)
Example sentinel_first_then_silence :
  let run := TelegramCollector.collect_script_multipart
               (Scenario.serve [Response Scenario.sec
                                  (Ok [Scenario.early_pronto])])
               Scenario.no_files (Some Scenario.me) 40 900 Scenario.fresh in
  fst run = Done None /\
  outbox (snd run) = [ScriptPrompt; NoScriptYet].
Proof. vm_compute. repeat split. Qed.

(** Silence: the Title step is the one that times out. *)
Example silence_times_out_title :
  let feed := Scenario.serve Scenario.silent_script in
  let start := TelegramCollector.init feed Scenario.fresh in
  step_timed_out feed (Some Scenario.me) 200 start
    (snd (TelegramCollector.wait_for_message feed (Some Scenario.me) 200 600 5
            (ask_title start))).
Proof. apply title_timed_out. vm_compute. reflexivity. Qed.

(* ===================================================================== *)
(** ** Further properties of the pending-download store *)
(* ===================================================================== *)

Section StoreEffects.

Implicit Types (w : world) (pending : gmap string entry) (info : entry).

Lemma NoDup_fst_filter {A B} (f : A * B -> bool) (l : list (A * B)) :
  NoDup (map fst l) -> NoDup (map fst (List.filter f l)).
Proof.
  induction l as [|x l IH]; simpl; [done|].
  intros Hnd. apply NoDup_cons in Hnd. destruct Hnd as [Hx Hnd].
  destruct (f x); simpl; [|by apply IH].
  apply NoDup_cons. split; [|by apply IH].
  intros Hin. apply Hx. apply list_elem_of_In, in_map_iff in Hin.
  destruct Hin as (y & Hy & Hin). apply filter_In in Hin.
  apply list_elem_of_In, in_map_iff. exists y. by destruct Hin.
Qed.

Lemma size_delete_all ks pending :
  NoDup ks -> (forall k, k ∈ ks -> is_Some (pending !! k)) ->
  (size (delete_all ks pending) + length ks)%nat = size pending.
Proof.
  unfold delete_all. revert pending.
  induction ks as [|k ks IH]; intros pending Hnd Hin; simpl; [lia|].
  apply NoDup_cons in Hnd. destruct Hnd as [Hk Hnd].
  assert (Hsome : is_Some (pending !! k)) by (apply Hin; left).
  pose proof (map_size_delete_Some k pending Hsome) as Hsize.
  assert (0 < size pending)%nat.
  { destruct Hsome as [x Hx].
    destruct (decide (size pending = 0%nat)) as [H0|]; [|lia].
    apply map_size_empty_iff in H0. subst. by rewrite lookup_empty in Hx. }
  specialize (IH (delete k pending) Hnd).
  assert (Hrest : forall k', k' ∈ ks -> is_Some (delete k pending !! k')).
  { intros k' Hk'. rewrite lookup_delete_ne; [apply Hin; by right|].
    intros ->. done. }
  specialize (IH Hrest). lia.
Qed.

(** The ids collected by a sweep: distinct keys of the mapping. *)
Lemma swept_size selected pending :
  let to_remove :=
    map fst (List.filter (fun kv => selected (snd kv)) (map_to_list pending)) in
  (size (delete_all to_remove pending) + length to_remove)%nat = size pending.
Proof.
  intros to_remove. apply size_delete_all.
  - apply NoDup_fst_filter. apply NoDup_fst_map_to_list.
  - intros k Hk. apply swept_ids in Hk. destruct Hk as (info & -> & _). eauto.
Qed.

(** The files left by a sweep: those that were there, except the backing
    files of the selected entries, unless removing them fails. *)
Lemma sweep_disk selected items w path :
  path ∈ disk (snd (sweep selected items w)) <->
  path ∈ disk w /\
  (path ∈ locked w \/
   ~ exists id info, (id, info) ∈ items /\ selected info = true /\
                     video_path info = path).
Proof.
  revert w. induction items as [|[id info] rest IH]; intros w; simpl.
  - split; [|by intros [? _]]. intros H. split; [done|]. right.
    intros (? & ? & Hin & _). by apply not_elem_of_nil in Hin.
  - destruct (selected info) eqn:Hsel.
    + pose proof (remove_file_frame (video_path info) w) as Hfr.
      assert (Hdisk : forall p, p ∈ disk (snd (remove_file (video_path info) w))
                <-> p ∈ disk w /\ (p ∈ locked w \/ p <> video_path info)).
      { intros p. unfold remove_file.
        destruct (decide (video_path info ∈ disk w)) as [Hin|Hout].
        - destruct (decide (video_path info ∈ locked w)) as [Hl|Hl]; simpl.
          + split; [|by intros [? _]]. intros Hp. split; [done|].
            destruct (decide (p = video_path info)) as [->|]; auto.
          + rewrite elem_of_difference, elem_of_singleton.
            split; [intros [? ?]; auto|].
            intros [Hp [Hlk|Hne]]; [|done]. split; [done|].
            intros ->. done.
        - simpl. split; [|by intros [? _]]. intros Hp. split; [done|].
          right. intros ->. done. }
      destruct (remove_file (video_path info) w) as [removed w1].
      simpl in Hfr, Hdisk.
      specialize (IH w1).
      destruct (sweep selected rest w1) as [[[tr c] r] w2]. simpl in IH |- *.
      destruct Hfr as (_&_&_&_&_&_&_&_&Hlocked&_).
      rewrite IH, Hdisk, Hlocked. split.
      * intros [[Hp Hor] Hor']. split; [done|].
        destruct Hor' as [|Hno]; [by left|].
        destruct Hor as [|Hne]; [by left|]. right.
        intros (id' & info' & Hin & Hs & Hv).
        apply elem_of_cons in Hin. destruct Hin as [[= -> ->]|Hin]; [done|].
        apply Hno. eauto.
      * intros [Hp [Hl|Hno]]; [by auto|].
        split; [split; [done|]|].
        -- right. intros ->. apply Hno. exists id, info.
           split; [left|done].
        -- right. intros (id' & info' & Hin & Hs & Hv). apply Hno.
           exists id', info'. split; [by right|done].
    + rewrite IH. split.
      * intros [Hp [Hl|Hno]]; [by auto|]. split; [done|]. right.
        intros (id' & info' & Hin & Hs & Hv).
        apply elem_of_cons in Hin. destruct Hin as [[= -> ->]|Hin];
          [congruence|]. apply Hno. eauto.
      * intros [Hp [Hl|Hno]]; [by auto|]. split; [done|]. right.
        intros (id' & info' & Hin & Hs & Hv). apply Hno.
        exists id', info'. split; [by right|done].
Qed.

End StoreEffects.

Section StoreSummaries.

Implicit Types (w : world) (pending : gmap string entry) (info : entry).

Lemma backs_items selected pending path :
  backs selected pending path <->
  exists id info, (id, info) ∈ map_to_list pending /\ selected info = true /\
                  video_path info = path.
Proof.
  unfold backs. split; intros (id & info & H & ?); exists id, info;
    (split; [by apply elem_of_map_to_list|done]).
Qed.

(** The world left by a sweep over a whole mapping, piece by piece. *)
Lemma sweep_mapping selected pending w :
  match sweep selected (map_to_list pending) w with
  | (to_remove, count, removed_count, w1) =>
      (forall id, delete_all to_remove pending !! id
                  = kept_by selected (pending !! id)) /\
      (count + size (delete_all to_remove pending))%nat = size pending /\
      (removed_count <= count)%nat /\
      same_but_disk w w1 /\
      (forall path, path ∈ disk w1 <->
         path ∈ disk w /\ (path ∈ locked w \/ ~ backs selected pending path))
  end.
Proof.
  pose proof (sweep_spec selected (map_to_list pending) w) as Hs.
  pose proof (sweep_disk selected (map_to_list pending) w) as Hd.
  destruct (sweep selected (map_to_list pending) w) as [[[tr c] r] w1].
  destruct Hs as (-> & -> & Hle & Hfr). simpl in Hd.
  split; [intros id; apply lookup_after_sweep|].
  split; [pose proof (swept_size selected pending); simpl in *; lia|].
  split; [done|]. split; [done|].
  intros path. rewrite Hd. by rewrite backs_items.
Qed.

Lemma load_pending_file w pending :
  pending_file w = Some pending -> DownloadManager.load_pending w = pending.
Proof. unfold DownloadManager.load_pending. by intros ->. Qed.

Lemma backs_empty selected path : ~ backs selected ∅ path.
Proof. intros (id & info & H & _). by rewrite lookup_empty in H. Qed.

(** The four clean-up functions, each as a sweep with its report. *)
Lemma dm_cleanup_confirmed_summary w :
  exists to_remove count removed w1,
    sweep is_confirmed (map_to_list (DownloadManager.load_pending w)) w
    = (to_remove, count, removed, w1) /\
    DownloadManager.cleanup_confirmed w =
    send_message
      (DMCleanupDone count
         (size (delete_all to_remove (DownloadManager.load_pending w))))
      (set_pending_file
         (Some (delete_all to_remove (DownloadManager.load_pending w))) w1).
Proof.
  unfold DownloadManager.cleanup_confirmed.
  destruct (sweep _ _ w) as [[[tr c] r] w1]. by eexists _, _, _, _.
Qed.

Lemma dm_cleanup_expired_summary hours w :
  exists to_remove count removed w1,
    sweep (expired (clock w - hours * hour))
      (map_to_list (DownloadManager.load_pending w)) w
    = (to_remove, count, removed, w1) /\
    DownloadManager.cleanup_expired hours w =
    send_message
      (DMExpiredDone count hours
         (size (delete_all to_remove (DownloadManager.load_pending w))))
      (set_pending_file
         (Some (delete_all to_remove (DownloadManager.load_pending w))) w1).
Proof.
  unfold DownloadManager.cleanup_expired.
  destruct (sweep _ _ w) as [[[tr c] r] w1]. by eexists _, _, _, _.
Qed.

Lemma wm_cleanup_confirmed_summary w pending :
  pending_file w = Some pending ->
  exists to_remove count removed w1,
    sweep is_confirmed (map_to_list pending) w
    = (to_remove, count, removed, w1) /\
    TelegramCollector.cleanup_confirmed_downloads w =
    send_message
      (CleanupDone count removed (size (delete_all to_remove pending)))
      (set_pending_file (Some (delete_all to_remove pending)) w1).
Proof.
  intros Hfile. unfold TelegramCollector.cleanup_confirmed_downloads.
  rewrite Hfile.
  destruct (sweep _ _ w) as [[[tr c] r] w1]. by eexists _, _, _, _.
Qed.

Lemma wm_cleanup_expired_summary hours w pending :
  pending_file w = Some pending ->
  exists to_remove count removed w1,
    sweep (expired (clock w - hours * hour)) (map_to_list pending) w
    = (to_remove, count, removed, w1) /\
    TelegramCollector.cleanup_expired_downloads hours w =
    send_message
      (ExpiredDone count hours removed (size (delete_all to_remove pending)))
      (set_pending_file (Some (delete_all to_remove pending)) w1).
Proof.
  intros Hfile. unfold TelegramCollector.cleanup_expired_downloads.
  rewrite Hfile.
  destruct (sweep _ _ w) as [[[tr c] r] w1]. by eexists _, _, _, _.
Qed.

(** A sweep-and-save, whatever notice follows: what it does to the store. *)
Lemma swept_store selected pending w to_remove count removed w1 n w' :
  DownloadManager.load_pending w = pending ->
  sweep selected (map_to_list pending) w = (to_remove, count, removed, w1) ->
  w' = send_message n
         (set_pending_file (Some (delete_all to_remove pending)) w1) ->
  (forall id, DownloadManager.load_pending w' !! id
              = kept_by selected (pending !! id)) /\
  (forall path, path ∈ disk w' <->
     path ∈ disk w /\ (path ∈ locked w \/ ~ backs selected pending path)) /\
  (count + size (DownloadManager.load_pending w'))%nat = size pending /\
  (removed <= count)%nat /\
  clock w' = clock w /\ locked w' = locked w /\
  outbox w' = outbox w ++ [n].
Proof.
  intros Hload Hsweep ->.
  pose proof (sweep_mapping selected pending w) as H. rewrite Hsweep in H.
  destruct H as (Hlook & Hsize & Hle & Hfr & Hdisk).
  destruct Hfr as (_&_&Hclock&_&Hout&_&_&_&Hlocked&_).
  split; [exact Hlook|]. split; [exact Hdisk|]. split; [exact Hsize|].
  split; [done|]. split; [done|]. split; [done|].
  simpl. by rewrite Hout.
Qed.

End StoreSummaries.

(** X1.  The confirmed clean-up, in both implementations, removes exactly
    the confirmed entries and leaves the others as they were; its report
    counts the entries removed, and that count plus the number of entries
    left is the number of entries there were; the collector also counts the
    files deleted, never more than the entries removed, and says "nothing to
    clean" when there is no pending file. *)
Theorem cleanup_confirmed_effect (w : world) :
  let dm := DownloadManager.cleanup_confirmed w in
  let wm := TelegramCollector.cleanup_confirmed_downloads w in
  let before := DownloadManager.load_pending w in
  (forall id, DownloadManager.load_pending dm !! id
              = kept_by is_confirmed (before !! id)) /\
  (forall id, DownloadManager.load_pending wm !! id
              = kept_by is_confirmed (before !! id)) /\
  (exists count,
     outbox dm =
       outbox w ++ [DMCleanupDone count (size (DownloadManager.load_pending dm))] /\
     (count + size (DownloadManager.load_pending dm))%nat = size before) /\
  match pending_file w with
  | Some _ =>
      exists count removed,
        outbox wm =
          outbox w ++
          [CleanupDone count removed (size (DownloadManager.load_pending wm))] /\
        (count + size (DownloadManager.load_pending wm))%nat = size before /\
        (removed <= count)%nat
  | None => wm = send_message NothingToClean w
  end.
Proof.
  intros dm wm before.
  destruct (dm_cleanup_confirmed_summary w) as (tr & c & r & w1 & Hsw & Hdm).
  destruct (swept_store is_confirmed before w tr c r w1 _ dm eq_refl Hsw Hdm)
    as (Hlook & _ & Hsize & _ & _ & _ & Hout).
  assert (Hfile : pending_file dm = Some (delete_all tr before))
    by (unfold dm; by rewrite Hdm).
  split; [exact Hlook|].
  destruct (pending_file w) as [pending|] eqn:Hw.
  - destruct (wm_cleanup_confirmed_summary w pending Hw)
      as (tr' & c' & r' & w1' & Hsw' & Hwm).
    pose proof (load_pending_file w pending Hw) as Hload.
    destruct (swept_store is_confirmed pending w tr' c' r' w1' _ wm
                Hload Hsw' Hwm) as (Hlook' & _ & Hsize' & Hle & _ & _ & Hout').
    assert (Hfile' : pending_file wm = Some (delete_all tr' pending))
      by (unfold wm; by rewrite Hwm).
    unfold before. rewrite Hload.
    split; [exact Hlook'|]. split.
    + exists c. rewrite (load_pending_file dm _ Hfile).
      split; [done|]. rewrite <- (load_pending_file dm _ Hfile).
      unfold before in Hsize. by rewrite Hload in Hsize.
    + exists c', r'. rewrite (load_pending_file wm _ Hfile').
      split; [done|]. rewrite <- (load_pending_file wm _ Hfile'). done.
  - assert (Hwm : wm = send_message NothingToClean w).
    { unfold wm, TelegramCollector.cleanup_confirmed_downloads.
      by rewrite Hw. }
    split.
    + intros id. rewrite Hwm. unfold before, DownloadManager.load_pending.
      simpl. rewrite Hw. by rewrite lookup_empty.
    + split; [|done]. exists c. rewrite (load_pending_file dm _ Hfile).
      split; [done|]. by rewrite <- (load_pending_file dm _ Hfile).
Qed.

(** X2.  The expiry clean-up as it is run, with the threshold of 24 hours
    that every caller uses, in both implementations: it removes exactly the
    entries that are not confirmed and were created more than 24 hours
    before the call; its report repeats the threshold and counts the
    entries removed, and that count plus the number of entries left is the
    number of entries there were. *)
Theorem cleanup_expired_effect (w : world) :
  let dm := DownloadManager.cleanup_expired 24 w in
  let wm := TelegramCollector.cleanup_expired_downloads 24 w in
  let before := DownloadManager.load_pending w in
  let old := expired (clock w - 24 * hour) in
  (forall id, DownloadManager.load_pending dm !! id = kept_by old (before !! id)) /\
  (forall id, DownloadManager.load_pending wm !! id = kept_by old (before !! id)) /\
  (exists count,
     outbox dm =
       outbox w ++
       [DMExpiredDone count 24 (size (DownloadManager.load_pending dm))] /\
     (count + size (DownloadManager.load_pending dm))%nat = size before) /\
  match pending_file w with
  | Some _ =>
      exists count removed,
        outbox wm =
          outbox w ++
          [ExpiredDone count 24 removed
             (size (DownloadManager.load_pending wm))] /\
        (count + size (DownloadManager.load_pending wm))%nat = size before /\
        (removed <= count)%nat
  | None => wm = send_message NothingToClean w
  end.
Proof.
  intros dm wm before old.
  destruct (dm_cleanup_expired_summary 24 w)
    as (tr & c & r & w1 & Hsw & Hdm).
  destruct (swept_store old before w tr c r w1 _ dm eq_refl Hsw Hdm)
    as (Hlook & _ & Hsize & _ & _ & _ & Hout).
  assert (Hfile : pending_file dm = Some (delete_all tr before))
    by (unfold dm; by rewrite Hdm).
  split; [exact Hlook|].
  destruct (pending_file w) as [pending|] eqn:Hw.
  - destruct (wm_cleanup_expired_summary 24 w pending Hw)
      as (tr' & c' & r' & w1' & Hsw' & Hwm).
    pose proof (load_pending_file w pending Hw) as Hload.
    destruct (swept_store old pending w tr' c' r' w1' _ wm Hload Hsw' Hwm)
      as (Hlook' & _ & Hsize' & Hle & _ & _ & Hout').
    assert (Hfile' : pending_file wm = Some (delete_all tr' pending))
      by (unfold wm; by rewrite Hwm).
    unfold before. rewrite Hload.
    split; [exact Hlook'|]. split.
    + exists c. rewrite (load_pending_file dm _ Hfile).
      split; [done|]. rewrite <- (load_pending_file dm _ Hfile).
      unfold before in Hsize. by rewrite Hload in Hsize.
    + exists c', r'. rewrite (load_pending_file wm _ Hfile').
      split; [done|]. rewrite <- (load_pending_file wm _ Hfile'). done.
  - assert (Hwm : wm = send_message NothingToClean w).
    { unfold wm, TelegramCollector.cleanup_expired_downloads.
      by rewrite Hw. }
    split.
    + intros id. rewrite Hwm. unfold before, DownloadManager.load_pending.
      simpl. rewrite Hw. by rewrite lookup_empty.
    + split; [|done]. exists c. rewrite (load_pending_file dm _ Hfile).
      split; [done|]. by rewrite <- (load_pending_file dm _ Hfile).
Qed.

(** X3.  The video files after a clean-up, for the four clean-up functions
    (the expiry clean-ups with their threshold of 24 hours): a file is there
    afterwards exactly when it was there before and either its removal fails
    or it backs no entry that the clean-up removes.  So the file of a removed
    entry is gone unless [os.remove] raised, also when an entry that stays
    names the same file; a file that backs no removed entry is never
    deleted. *)
Theorem cleanup_files (w : world) (path : string) :
  let before := DownloadManager.load_pending w in
  let old := expired (clock w - 24 * hour) in
  let left selected :=
    path ∈ disk w /\ (path ∈ locked w \/ ~ backs selected before path) in
  (path ∈ disk (DownloadManager.cleanup_confirmed w) <-> left is_confirmed) /\
  (path ∈ disk (TelegramCollector.cleanup_confirmed_downloads w)
   <-> left is_confirmed) /\
  (path ∈ disk (DownloadManager.cleanup_expired 24 w) <-> left old) /\
  (path ∈ disk (TelegramCollector.cleanup_expired_downloads 24 w)
   <-> left old).
Proof.
  intros before old left.
  assert (Hmissing : forall selected, pending_file w = None ->
            (path ∈ disk w <-> left selected)).
  { intros selected Hw. unfold left, before, DownloadManager.load_pending.
    rewrite Hw. split; [|by intros [? _]]. intros H. split; [done|].
    right. apply backs_empty. }
  split; [|split; [|split]].
  - destruct (dm_cleanup_confirmed_summary w) as (tr & c & r & w1 & Hsw & Hdm).
    by destruct (swept_store is_confirmed before w tr c r w1 _ _
                   eq_refl Hsw Hdm) as (_ & Hdisk & _).
  - destruct (pending_file w) as [pending|] eqn:Hw.
    + destruct (wm_cleanup_confirmed_summary w pending Hw)
        as (tr & c & r & w1 & Hsw & Hwm).
      pose proof (load_pending_file w pending Hw) as Hload.
      destruct (swept_store is_confirmed pending w tr c r w1 _ _
                  Hload Hsw Hwm) as (_ & Hdisk & _).
      unfold left, before. by rewrite Hload.
    + unfold TelegramCollector.cleanup_confirmed_downloads. rewrite Hw.
      by apply Hmissing.
  - destruct (dm_cleanup_expired_summary 24 w)
      as (tr & c & r & w1 & Hsw & Hdm).
    by destruct (swept_store old before w tr c r w1 _ _ eq_refl Hsw Hdm)
      as (_ & Hdisk & _).
  - destruct (pending_file w) as [pending|] eqn:Hw.
    + destruct (wm_cleanup_expired_summary 24 w pending Hw)
        as (tr & c & r & w1 & Hsw & Hwm).
      pose proof (load_pending_file w pending Hw) as Hload.
      destruct (swept_store old pending w tr c r w1 _ _ Hload Hsw Hwm)
        as (_ & Hdisk & _).
      unfold left, before. by rewrite Hload.
    + unfold TelegramCollector.cleanup_expired_downloads. rewrite Hw.
      by apply Hmissing.
Qed.

Section StoreComposition.

Implicit Types (w : world) (pending : gmap string entry) (info : entry).

Lemma dm_cleanup_confirmed_swept w :
  swept is_confirmed w (DownloadManager.cleanup_confirmed w) /\
  is_Some (pending_file (DownloadManager.cleanup_confirmed w)).
Proof.
  destruct (dm_cleanup_confirmed_summary w) as (tr & c & r & w1 & Hsw & Hdm).
  destruct (swept_store is_confirmed _ w tr c r w1 _ _ eq_refl Hsw Hdm)
    as (Hlook & Hdisk & _ & _ & Hclock & Hlocked & _).
  assert (Hsome : is_Some (pending_file (DownloadManager.cleanup_confirmed w)))
    by (rewrite Hdm; simpl; eauto).
  split; [|done]. split; [done|]. split; [done|]. split; [done|].
  split; [done|]. split; [done|]. intros _.
  destruct (pending_file w) as [pending|] eqn:Hw; [left; eauto|right].
  rewrite Hdm. simpl. unfold DownloadManager.load_pending in *.
  rewrite Hw in *. rewrite map_to_list_empty in Hsw. simpl in Hsw.
  by injection Hsw as <- _ _ _.
Qed.

Lemma dm_cleanup_expired_swept hours w :
  swept (expired (clock w - hours * hour)) w
    (DownloadManager.cleanup_expired hours w) /\
  is_Some (pending_file (DownloadManager.cleanup_expired hours w)).
Proof.
  destruct (dm_cleanup_expired_summary hours w)
    as (tr & c & r & w1 & Hsw & Hdm).
  destruct (swept_store (expired (clock w - hours * hour)) _ w tr c r w1 _ _
              eq_refl Hsw Hdm)
    as (Hlook & Hdisk & _ & _ & Hclock & Hlocked & _).
  assert (Hsome : is_Some (pending_file (DownloadManager.cleanup_expired hours w)))
    by (rewrite Hdm; simpl; eauto).
  split; [|done]. split; [done|]. split; [done|]. split; [done|].
  split; [done|]. split; [done|]. intros _.
  destruct (pending_file w) as [pending|] eqn:Hw; [left; eauto|right].
  rewrite Hdm. simpl. unfold DownloadManager.load_pending in *.
  rewrite Hw in *. rewrite map_to_list_empty in Hsw. simpl in Hsw.
  by injection Hsw as <- _ _ _.
Qed.

Lemma swept_missing selected w n :
  pending_file w = None -> swept selected w (send_message n w).
Proof.
  intros Hw. unfold swept, DownloadManager.load_pending. simpl. rewrite Hw.
  split; [intros id; by rewrite lookup_empty|].
  split.
  { intros path. split; [|by intros [? _]]. intros H. split; [done|].
    right. apply backs_empty. }
  split; [done|]. split; [done|]. split; [by intros [? ?]|].
  by intros [? ?].
Qed.

Lemma wm_cleanup_confirmed_swept w :
  swept is_confirmed w (TelegramCollector.cleanup_confirmed_downloads w) /\
  (pending_file w = None ->
   pending_file (TelegramCollector.cleanup_confirmed_downloads w) = None).
Proof.
  destruct (pending_file w) as [pending|] eqn:Hw.
  - destruct (wm_cleanup_confirmed_summary w pending Hw)
      as (tr & c & r & w1 & Hsw & Hwm).
    pose proof (load_pending_file w pending Hw) as Hload.
    destruct (swept_store is_confirmed pending w tr c r w1 _ _ Hload Hsw Hwm)
      as (Hlook & Hdisk & _ & _ & Hclock & Hlocked & _).
    split; [|done]. unfold swept. rewrite Hload, Hw.
    split; [done|]. split; [done|]. split; [done|]. split; [done|].
    split; [intros _; rewrite Hwm; simpl; eauto|]. intros _. left. eauto.
  - unfold TelegramCollector.cleanup_confirmed_downloads. rewrite Hw.
    split; [by apply swept_missing|done].
Qed.

Lemma wm_cleanup_expired_swept hours w :
  swept (expired (clock w - hours * hour)) w
    (TelegramCollector.cleanup_expired_downloads hours w) /\
  (pending_file w = None ->
   pending_file (TelegramCollector.cleanup_expired_downloads hours w) = None).
Proof.
  destruct (pending_file w) as [pending|] eqn:Hw.
  - destruct (wm_cleanup_expired_summary hours w pending Hw)
      as (tr & c & r & w1 & Hsw & Hwm).
    pose proof (load_pending_file w pending Hw) as Hload.
    destruct (swept_store (expired (clock w - hours * hour)) pending w
                tr c r w1 _ _ Hload Hsw Hwm)
      as (Hlook & Hdisk & _ & _ & Hclock & Hlocked & _).
    split; [|done]. unfold swept. rewrite Hload, Hw.
    split; [done|]. split; [done|]. split; [done|]. split; [done|].
    split; [intros _; rewrite Hwm; simpl; eauto|]. intros _. left. eauto.
  - unfold TelegramCollector.cleanup_expired_downloads. rewrite Hw.
    split; [by apply swept_missing|done].
Qed.

Lemma kept_by_comm s1 s2 o : kept_by s1 (kept_by s2 o) = kept_by s2 (kept_by s1 o).
Proof.
  destruct o as [info|]; simpl; [|done].
  destruct (s1 info) eqn:H1, (s2 info) eqn:H2; simpl; by rewrite ?H1, ?H2.
Qed.

(** After one sweep, the entries that a second selection finds are those it
    would have found before, minus those already swept. *)
Lemma backs_after s1 s2 w a path :
  swept s1 w a ->
  backs s2 (DownloadManager.load_pending a) path <->
  exists id info, DownloadManager.load_pending w !! id = Some info /\
                  s1 info = false /\ s2 info = true /\ video_path info = path.
Proof.
  intros (Hlook & _). unfold backs. split.
  - intros (id & info & Hl & Hs & Hp). rewrite Hlook in Hl.
    destruct (DownloadManager.load_pending w !! id) as [info'|] eqn:Hw;
      [|done]. simpl in Hl. destruct (s1 info') eqn:H1; [done|].
    injection Hl as ->. eauto 10.
  - intros (id & info & Hl & H1 & H2 & Hp). exists id, info.
    split; [|done]. rewrite Hlook, Hl. simpl. by rewrite H1.
Qed.

(** Two sweeps in a row remove the entries selected by either, and their
    files, in whichever order they run. *)
Lemma swept_twice s1 s2 w a b :
  swept s1 w a -> swept s2 a b ->
  (forall id, DownloadManager.load_pending b !! id
              = kept_by s2 (kept_by s1 (DownloadManager.load_pending w !! id))) /\
  (forall path, path ∈ disk b <->
     path ∈ disk w /\
     (path ∈ locked w \/
      ~ exists id info, DownloadManager.load_pending w !! id = Some info /\
                        (s1 info = true \/ s2 info = true) /\
                        video_path info = path)).
Proof.
  intros Ha Hb.
  pose proof (fun path => backs_after s1 s2 w a path Ha) as Hbacks.
  destruct Ha as (Hla & Hda & Hca & Hka & _), Hb as (Hlb & Hdb & Hcb & Hkb & _).
  split; [intros id; by rewrite Hlb, Hla|].
  intros path. rewrite Hdb, Hda, Hka, (Hbacks path).
  unfold backs. split.
  - intros [[Hp Hor1] Hor2]. split; [done|].
    destruct Hor1 as [|Hno1]; [by left|].
    destruct Hor2 as [|Hno2]; [by left|]. right.
    intros (id & info & Hl & Hs & Hv).
    destruct (s1 info) eqn:H1; [apply Hno1; eauto|].
    destruct Hs as [|H2]; [done|]. apply Hno2. eauto 10.
  - intros [Hp [Hl|Hno]]; [by auto|].
    split; [split; [done|]|]; right.
    + intros (id & info & Hl & Hs & Hv). apply Hno. eauto 10.
    + intros (id & info & Hl & H1 & H2 & Hv). apply Hno. eauto 10.
Qed.

Lemma same_store_of_swept a b :
  (forall id, DownloadManager.load_pending a !! id
              = DownloadManager.load_pending b !! id) ->
  (forall path, path ∈ disk a <-> path ∈ disk b) ->
  (is_Some (pending_file a) <-> is_Some (pending_file b)) ->
  same_store a b.
Proof.
  intros Hlook Hdisk Hsome. split.
  - assert (Heq : DownloadManager.load_pending a
                  = DownloadManager.load_pending b) by (by apply map_eq).
    unfold DownloadManager.load_pending in Heq.
    destruct (pending_file a) as [ma|], (pending_file b) as [mb|];
      try congruence.
    + destruct Hsome as [H _]. destruct H as [? [=]]. eauto.
    + destruct Hsome as [_ H]. destruct H as [? [=]]. eauto.
  - apply set_eq. intros path. symmetry. apply Hdisk.
Qed.

End StoreComposition.

(** X4.  The two clean-ups commute: the confirmed clean-up followed by the
    expiry clean-up leaves the same pending file and the same video files as
    the expiry clean-up followed by the confirmed one, in both
    implementations; what is left are the entries that are neither
    confirmed nor expired. *)
Theorem cleanups_commute (hours : Z) (w : world) :
  let old := expired (clock w - hours * hour) in
  let dm1 := DownloadManager.cleanup_expired hours
               (DownloadManager.cleanup_confirmed w) in
  let dm2 := DownloadManager.cleanup_confirmed
               (DownloadManager.cleanup_expired hours w) in
  let wm1 := TelegramCollector.cleanup_expired_downloads hours
               (TelegramCollector.cleanup_confirmed_downloads w) in
  let wm2 := TelegramCollector.cleanup_confirmed_downloads
               (TelegramCollector.cleanup_expired_downloads hours w) in
  same_store dm1 dm2 /\ same_store wm1 wm2 /\
  (forall id, DownloadManager.load_pending dm1 !! id
              = kept_by (fun info => is_confirmed info || old info)
                  (DownloadManager.load_pending w !! id)) /\
  (forall id, DownloadManager.load_pending wm1 !! id
              = kept_by (fun info => is_confirmed info || old info)
                  (DownloadManager.load_pending w !! id)).
Proof.
  intros old dm1 dm2 wm1 wm2.
  assert (Hboth : forall o,
            kept_by old (kept_by is_confirmed o)
            = kept_by (fun info => is_confirmed info || old info) o).
  { intros [info|]; simpl; [|done].
    by destruct (is_confirmed info). }
  assert (Hor : forall (P : Prop) (s1 s2 : entry -> bool) path,
    (P \/ ~ exists id info, DownloadManager.load_pending w !! id = Some info /\
                            (s1 info = true \/ s2 info = true) /\
                            video_path info = path) <->
    (P \/ ~ exists id info, DownloadManager.load_pending w !! id = Some info /\
                            (s2 info = true \/ s1 info = true) /\
                            video_path info = path)).
  { intros P s1 s2 path.
    split; (intros [|Hno]; [by left|right]);
      intros (id & info & Hl & [|] & Hv); apply Hno; eauto 10. }
  (* DownloadManager *)
  destruct (dm_cleanup_confirmed_swept w) as [Hc1 Hs1].
  destruct (dm_cleanup_expired_swept hours (DownloadManager.cleanup_confirmed w))
    as [He1 Hs1'].
  destruct (dm_cleanup_expired_swept hours w) as [He2 Hs2].
  destruct (dm_cleanup_confirmed_swept (DownloadManager.cleanup_expired hours w))
    as [Hc2 Hs2'].
  assert (Hclock1 : clock (DownloadManager.cleanup_confirmed w) = clock w)
    by (by destruct Hc1 as (_ & _ & ? & _)).
  rewrite Hclock1 in He1. fold old in He1, He2. fold dm1 in He1, Hs1'.
  fold dm2 in Hc2, Hs2'.
  destruct (swept_twice _ _ _ _ _ Hc1 He1) as [Hl1 Hd1].
  destruct (swept_twice _ _ _ _ _ He2 Hc2) as [Hl2 Hd2].
  (* the collector *)
  destruct (wm_cleanup_confirmed_swept w) as [Wc1 Wn1].
  destruct (wm_cleanup_expired_swept hours
              (TelegramCollector.cleanup_confirmed_downloads w)) as [We1 Wn1'].
  destruct (wm_cleanup_expired_swept hours w) as [We2 Wn2].
  destruct (wm_cleanup_confirmed_swept
              (TelegramCollector.cleanup_expired_downloads hours w))
    as [Wc2 Wn2'].
  assert (Hclock2 : clock (TelegramCollector.cleanup_confirmed_downloads w)
                    = clock w) by (by destruct Wc1 as (_ & _ & ? & _)).
  rewrite Hclock2 in We1. fold old in We1, We2. fold wm1 in We1, Wn1'.
  fold wm2 in Wc2, Wn2'.
  destruct (swept_twice _ _ _ _ _ Wc1 We1) as [Vl1 Vd1].
  destruct (swept_twice _ _ _ _ _ We2 Wc2) as [Vl2 Vd2].
  split; [|split; [|split]].
  - apply same_store_of_swept.
    + intros id. by rewrite Hl1, Hl2, kept_by_comm.
    + intros path. rewrite Hd1, Hd2. by rewrite Hor.
    + by split.
  - apply same_store_of_swept.
    + intros id. by rewrite Vl1, Vl2, kept_by_comm.
    + intros path. rewrite Vd1, Vd2. by rewrite Hor.
    + destruct (pending_file w) as [pending|] eqn:Hw.
      * assert (is_Some (pending_file wm1)).
        { destruct We1 as (_&_&_&_&H&_). apply H.
          destruct Wc1 as (_&_&_&_&H'&_). apply H'. rewrite Hw. eauto. }
        assert (is_Some (pending_file wm2)).
        { destruct Wc2 as (_&_&_&_&H'&_). apply H'.
          destruct We2 as (_&_&_&_&H''&_). apply H''. rewrite Hw. eauto. }
        by split.
      * rewrite (Wn1' (Wn1 eq_refl)), (Wn2' (Wn2 eq_refl)). done.
  - intros id. by rewrite Hl1, Hboth.
  - intros id. by rewrite Vl1, Hboth.
Qed.

Section ConfirmEffects.

Implicit Types (w : world) (info : entry).

Lemma remove_file_disk path w p :
  p ∈ disk (snd (remove_file path w)) <->
  p ∈ disk w /\ (p ∈ locked w \/ p <> path).
Proof.
  unfold remove_file.
  destruct (decide (path ∈ disk w)) as [Hin|Hout].
  - destruct (decide (path ∈ locked w)) as [Hl|Hl]; simpl.
    + split; [|by intros [? _]]. intros Hp. split; [done|].
      destruct (decide (p = path)) as [->|]; auto.
    + rewrite elem_of_difference, elem_of_singleton.
      split; [intros [? ?]; auto|].
      intros [Hp [Hlk|Hne]]; [|done]. split; [done|]. by intros ->.
  - simpl. split; [|by intros [? _]]. intros Hp. split; [done|].
    right. by intros ->.
Qed.

Lemma remove_file_result path w :
  fst (remove_file path w) = bool_decide (path ∈ disk w /\ path ∉ locked w).
Proof.
  unfold remove_file.
  destruct (decide (path ∈ disk w)) as [Hin|Hout];
    [destruct (decide (path ∈ locked w)) as [Hl|Hl]|]; simpl;
    symmetry; (apply bool_decide_eq_true || apply bool_decide_eq_false);
    tauto.
Qed.

End ConfirmEffects.

(** X5.  Confirming a pending id, in both implementations: every other
    entry is left as it is, the mapping has one entry less, and the backing
    file of the entry is deleted unless [os.remove] raises (no other file is
    touched).  The collector reports "removed" with the number of entries
    left when it deleted the file, and "already removed" otherwise, also when
    the file is still there because removing it failed. *)
Theorem confirm_download_effect (w : world) (id : string) (info : entry) :
  DownloadManager.load_pending w !! id = Some info ->
  let dm := snd (DownloadManager.confirm_download id w) in
  let wm := TelegramCollector.confirm_download id w in
  let before := DownloadManager.load_pending w in
  let deleted := bool_decide (video_path info ∈ disk w /\
                              video_path info ∉ locked w) in
  (forall id', id' <> id ->
     DownloadManager.load_pending dm !! id' = before !! id' /\
     DownloadManager.load_pending wm !! id' = before !! id') /\
  S (size (DownloadManager.load_pending dm)) = size before /\
  S (size (DownloadManager.load_pending wm)) = size before /\
  (forall path,
     (path ∈ disk dm <->
      path ∈ disk w /\ (path ∈ locked w \/ path <> video_path info)) /\
     (path ∈ disk wm <->
      path ∈ disk w /\ (path ∈ locked w \/ path <> video_path info))) /\
  outbox wm =
    outbox w ++
    [if deleted
     then ConfirmedRemoved (title info) (size_mb info)
            (size (DownloadManager.load_pending wm))
     else ConfirmedAlreadyGone (size (DownloadManager.load_pending wm))].
Proof.
  intros Hl dm wm before deleted. subst before.
  assert (Hsize : S (size (delete id (DownloadManager.load_pending w)))
                  = size (DownloadManager.load_pending w)).
  { rewrite map_size_delete_Some by eauto.
    destruct (size (DownloadManager.load_pending w)) eqn:Hs; [|done].
    apply map_size_empty_iff in Hs. rewrite Hs in Hl.
    by rewrite lookup_empty in Hl. }
  assert (Hdm : pending_file dm
                = Some (delete id (DownloadManager.load_pending w))).
  { unfold dm. by destruct (dm_confirm_present w id info Hl). }
  assert (Hwm : pending_file wm
                = Some (delete id (DownloadManager.load_pending w)))
    by (by apply (wm_confirm_present w id info)).
  rewrite (load_pending_file dm _ Hdm), (load_pending_file wm _ Hwm).
  split; [intros id' Hne; by rewrite lookup_delete_ne|].
  split; [done|]. split; [done|].
  assert (Hexists : exists pending, pending_file w = Some pending /\
                                    pending !! id = Some info).
  { unfold DownloadManager.load_pending in Hl.
    destruct (pending_file w) as [pending|]; [eauto|].
    by rewrite lookup_empty in Hl. }
  destruct Hexists as (pending & Hw & Hp).
  assert (Hbefore : DownloadManager.load_pending w = pending)
    by (by apply load_pending_file).
  pose proof (remove_file_disk (video_path info) w) as Hdisk.
  pose proof (remove_file_result (video_path info) w) as Hres.
  split.
  - intros path. split.
    + unfold dm, DownloadManager.confirm_download. rewrite Hl.
      rewrite <- Hdisk. unfold remove_file.
      destruct (decide (video_path info ∈ disk w));
        [destruct (decide (video_path info ∈ locked w))|]; done.
    + unfold wm, TelegramCollector.confirm_download. rewrite Hw, Hp.
      rewrite <- Hdisk.
      destruct (remove_file (video_path info) w) as [[] w1]; done.
  - unfold wm, TelegramCollector.confirm_download, deleted.
    rewrite Hw, Hp, <- Hres.
    pose proof (remove_file_frame (video_path info) w) as Hfr.
    destruct (remove_file (video_path info) w) as [[] w1]; simpl in *;
      destruct Hfr as (_&_&_&_&->&_); by rewrite Hbefore.
Qed.

Lemma confirm_download_effect_witness :
  outbox (TelegramCollector.confirm_download "download_2" Scenario.store_world)
  = [ConfirmedAlreadyGone 2].
Proof.
  assert (Hl : DownloadManager.load_pending Scenario.store_world !! "download_2"
               = Some Scenario.edge) by (vm_compute; reflexivity).
  destruct (confirm_download_effect Scenario.store_world "download_2"
              Scenario.edge Hl) as (_ & _ & Hsize & _ & Hout).
  rewrite Hout. vm_compute. reflexivity.
Defined.

(** X6.  The two implementations do the same to the store.  With a pending
    file in place, [DownloadManager] and the collector leave the same
    pending file and the same video files after the confirmed clean-up, the
    expiry clean-up (with its threshold of 24 hours) and a confirm.  Without
    a pending file, the clean-ups of the collector and a confirm in either
    implementation create none, and none of the six functions deletes a
    video file. *)
Theorem implementations_agree (id : string) (w : world) :
  match pending_file w with
  | Some _ =>
      same_store (DownloadManager.cleanup_confirmed w)
        (TelegramCollector.cleanup_confirmed_downloads w) /\
      same_store (DownloadManager.cleanup_expired 24 w)
        (TelegramCollector.cleanup_expired_downloads 24 w) /\
      same_store (snd (DownloadManager.confirm_download id w))
        (TelegramCollector.confirm_download id w)
  | None =>
      pending_file (TelegramCollector.cleanup_confirmed_downloads w) = None /\
      pending_file (TelegramCollector.cleanup_expired_downloads 24 w) = None /\
      pending_file (snd (DownloadManager.confirm_download id w)) = None /\
      pending_file (TelegramCollector.confirm_download id w) = None /\
      disk (DownloadManager.cleanup_confirmed w) = disk w /\
      disk (DownloadManager.cleanup_expired 24 w) = disk w /\
      disk (TelegramCollector.cleanup_confirmed_downloads w) = disk w /\
      disk (TelegramCollector.cleanup_expired_downloads 24 w) = disk w /\
      disk (snd (DownloadManager.confirm_download id w)) = disk w /\
      disk (TelegramCollector.confirm_download id w) = disk w
  end.
Proof.
  destruct (pending_file w) as [pending|] eqn:Hw.
  - pose proof (load_pending_file w pending Hw) as Hload.
    split; [|split].
    + destruct (dm_cleanup_confirmed_summary w) as (tr & c & r & w1 & Hsw & ->).
      destruct (wm_cleanup_confirmed_summary w pending Hw)
        as (tr' & c' & r' & w1' & Hsw' & ->).
      rewrite Hload in *. rewrite Hsw in Hsw'.
      injection Hsw' as <- <- <- <-. by split.
    + destruct (dm_cleanup_expired_summary 24 w)
        as (tr & c & r & w1 & Hsw & ->).
      destruct (wm_cleanup_expired_summary 24 w pending Hw)
        as (tr' & c' & r' & w1' & Hsw' & ->).
      rewrite Hload in *. rewrite Hsw in Hsw'.
      injection Hsw' as <- <- <- <-. by split.
    + unfold DownloadManager.confirm_download,
        TelegramCollector.confirm_download. rewrite Hload, Hw.
      destruct (pending !! id) as [info|]; [|by split; simpl].
      unfold remove_file.
      destruct (decide (video_path info ∈ disk w));
        [destruct (decide (video_path info ∈ locked w))|]; by split.
  - unfold DownloadManager.cleanup_confirmed, DownloadManager.cleanup_expired,
      TelegramCollector.cleanup_confirmed_downloads,
      TelegramCollector.cleanup_expired_downloads,
      DownloadManager.confirm_download, TelegramCollector.confirm_download,
      DownloadManager.load_pending.
    rewrite Hw, map_to_list_empty, lookup_empty. simpl. rewrite Hw.
    repeat split.
Qed.

(** X7.  The list command changes nothing but the outbox, in both
    implementations.  Its notice shows every pending id exactly once, with
    the entry stored under it and its age at the time of the call; both
    implementations show the same rows; an empty mapping (or a missing
    pending file) gives the "nothing pending" notice. *)
Theorem list_shows_each_pending_once (w : world) :
  exists dm wm,
    DownloadManager.list_pending w = send_message dm w /\
    TelegramCollector.list_pending_downloads w = send_message wm w /\
    shown_rows wm = shown_rows dm /\
    NoDup (map row_id (shown_rows dm)) /\
    length (shown_rows dm) = size (DownloadManager.load_pending w) /\
    (forall r, r ∈ shown_rows dm <->
       DownloadManager.load_pending w !! row_id r = Some (row_info r) /\
       row_age r = clock w - timestamp (row_info r)) /\
    (DownloadManager.load_pending w = ∅ <-> dm = DMNothingPending) /\
    (DownloadManager.load_pending w = ∅ <-> wm = NothingPending).
Proof.
  assert (Hrows : forall pending,
    NoDup (map row_id (rows_of (clock w) pending)) /\
    length (rows_of (clock w) pending) = size pending /\
    (forall r, r ∈ rows_of (clock w) pending <->
       pending !! row_id r = Some (row_info r) /\
       row_age r = clock w - timestamp (row_info r))).
  { intros pending. unfold rows_of. rewrite map_map. simpl.
    split; [apply NoDup_fst_map_to_list|].
    split; [by rewrite length_map, length_map_to_list|].
    intros r. rewrite list_elem_of_In, in_map_iff. split.
    - intros ([k info] & <- & Hin). simpl. split; [|done].
      apply elem_of_map_to_list. by apply list_elem_of_In.
    - intros [Hl Hage]. exists (row_id r, row_info r). split.
      + destruct r; simpl in *. by rewrite Hage.
      + apply list_elem_of_In. by apply elem_of_map_to_list. }
  assert (Hnone : forall r : row, r ∈ @nil row <->
            (∅ : gmap string entry) !! row_id r = Some (row_info r) /\
            row_age r = clock w - timestamp (row_info r)).
  { intros r. rewrite lookup_empty. split; [by intros ?%not_elem_of_nil|].
    by intros [? _]. }
  unfold DownloadManager.list_pending, TelegramCollector.list_pending_downloads,
    DownloadManager.load_pending.
  destruct (pending_file w) as [pending|].
  - destruct (decide (pending = ∅)) as [->|Hne].
    + exists DMNothingPending, NothingPending. simpl.
      split; [done|]. split; [done|]. split; [done|].
      split; [constructor|]. split; [by rewrite map_size_empty|].
      split; [apply Hnone|]. by split.
    + destruct (Hrows pending) as (Hnd & Hlen & Hin).
      eexists _, _. split; [done|]. split; [done|]. simpl.
      split; [done|]. split; [done|]. split; [done|].
      split; [apply Hin|]. by split.
  - destruct (decide ((∅ : gmap string entry) = ∅)) as [_|]; [|done].
    exists DMNothingPending, NothingPending. simpl.
    split; [done|]. split; [done|]. split; [done|].
    split; [constructor|]. split; [by rewrite map_size_empty|].
    split; [apply Hnone|]. by split.
Qed.

Section CommandLine.

Import Text.

Lemma lower_upper_char c : lower_char (upper_char c) = lower_char c.
Proof. destruct c as [[] [] [] [] [] [] [] []]; reflexivity. Qed.

Lemma lower_lower_char c : lower_char (lower_char c) = lower_char c.
Proof. destruct c as [[] [] [] [] [] [] [] []]; reflexivity. Qed.

Lemma lower_upper s : lower (upper s) = lower s.
Proof.
  induction s as [|c s IH]; [done|].
  unfold lower, upper in *. simpl. by rewrite lower_upper_char, IH.
Qed.

Lemma lower_idempotent s : lower (lower s) = lower s.
Proof.
  induction s as [|c s IH]; [done|].
  unfold lower in *. simpl. by rewrite lower_lower_char, IH.
Qed.

End CommandLine.

(** X8.  The command line of [manage_downloads.py].  Without a command it
    prints the usage.  The command is matched after lower-casing, and the
    arguments that follow [list], [cleanup] and [expired] are ignored:
    [list] runs [list_pending], [cleanup] runs [cleanup_confirmed] and
    [expired] runs [cleanup_expired] with its default of 24 hours, whatever
    follows.  [confirm] runs [confirm_download] on its argument when there
    is exactly one, and is an invalid command with none or with more;
    anything else is an invalid command.  Whenever [main] prints the usage
    or "invalid command" it sends no message and touches no file, and only
    [cleanup], [expired] and [confirm] can change the store. *)
Theorem command_line_dispatch (script command : string) (rest : list string)
    (w : world) :
  DownloadManager.main [] w = (DownloadManager.PrintedUsage, w) /\
  DownloadManager.main [script] w = (DownloadManager.PrintedUsage, w) /\
  (Text.lower command = "list" ->
   DownloadManager.main (script :: command :: rest) w
   = (DownloadManager.PrintedNothing, DownloadManager.list_pending w)) /\
  (Text.lower command = "cleanup" ->
   DownloadManager.main (script :: command :: rest) w
   = (DownloadManager.PrintedNothing, DownloadManager.cleanup_confirmed w)) /\
  (Text.lower command = "expired" ->
   DownloadManager.main (script :: command :: rest) w
   = (DownloadManager.PrintedNothing, DownloadManager.cleanup_expired 24 w)) /\
  (Text.lower command = "confirm" -> forall video_id, rest = [video_id] ->
   DownloadManager.main (script :: command :: rest) w
   = (DownloadManager.PrintedNothing,
      snd (DownloadManager.confirm_download video_id w))) /\
  (Text.lower command = "confirm" -> length rest <> 1%nat ->
   DownloadManager.main (script :: command :: rest) w
   = (DownloadManager.PrintedInvalidCommand, w)) /\
  (Text.lower command <> "list" -> Text.lower command <> "cleanup" ->
   Text.lower command <> "expired" -> Text.lower command <> "confirm" ->
   DownloadManager.main (script :: command :: rest) w
   = (DownloadManager.PrintedInvalidCommand, w)) /\
  (forall argv, fst (DownloadManager.main argv w)
                <> DownloadManager.PrintedNothing ->
                snd (DownloadManager.main argv w) = w) /\
  (Text.lower command <> "cleanup" -> Text.lower command <> "expired" ->
   Text.lower command <> "confirm" ->
   same_store w (snd (DownloadManager.main (script :: command :: rest) w))).
Proof.
  split; [done|]. split; [done|].
  split; [intros Hc; unfold DownloadManager.main; by rewrite Hc|].
  split; [intros Hc; unfold DownloadManager.main; by rewrite Hc|].
  split; [intros Hc; unfold DownloadManager.main; by rewrite Hc|].
  split; [intros Hc id ->; unfold DownloadManager.main; by rewrite Hc|].
  split.
  { intros Hc Hlen. unfold DownloadManager.main. rewrite Hc. simpl.
    destruct rest as [|a [|b r]]; simpl in *; done. }
  split.
  { intros H0 H1 H2 H3. unfold DownloadManager.main.
    apply String.eqb_neq in H0, H1, H2, H3. by rewrite H0, H1, H2, H3. }
  split.
  { intros [|s [|c r]]; [done|done|]. unfold DownloadManager.main.
    repeat case_match; simpl; done. }
  intros H1 H2 H3. unfold DownloadManager.main.
  apply String.eqb_neq in H1, H2, H3. rewrite H1, H2, H3. simpl.
  destruct (String.eqb (Text.lower command) "list"); [|by split].
  destruct (dm_list_shows w) as (n & -> & _). by split.
Qed.

Lemma command_line_dispatch_witness :
  DownloadManager.main ["manage_downloads.py"; "Confirm"] Scenario.store_world
  = (DownloadManager.PrintedInvalidCommand, Scenario.store_world) /\
  DownloadManager.main ["manage_downloads.py"; "EXPIRED"; "48"]
    Scenario.store_world
  = (DownloadManager.PrintedNothing,
     DownloadManager.cleanup_expired 24 Scenario.store_world) /\
  DownloadManager.main ["manage_downloads.py"; "List"; "all"; "now"]
    Scenario.store_world
  = (DownloadManager.PrintedNothing,
     DownloadManager.list_pending Scenario.store_world) /\
  DownloadManager.main ["manage_downloads.py"; "cleanup"; "download_1"]
    Scenario.store_world
  = (DownloadManager.PrintedNothing,
     DownloadManager.cleanup_confirmed Scenario.store_world).
Proof.
  destruct (command_line_dispatch "manage_downloads.py" "Confirm" []
              Scenario.store_world)
    as (_ & _ & _ & _ & _ & _ & Hconfirm & _).
  destruct (command_line_dispatch "manage_downloads.py" "EXPIRED" ["48"]
              Scenario.store_world) as (_ & _ & _ & _ & Hexpired & _).
  destruct (command_line_dispatch "manage_downloads.py" "List" ["all"; "now"]
              Scenario.store_world) as (_ & _ & Hlist & _).
  destruct (command_line_dispatch "manage_downloads.py" "cleanup"
              ["download_1"] Scenario.store_world)
    as (_ & _ & _ & Hcleanup & _).
  split; [apply Hconfirm; [reflexivity | simpl; lia]|].
  split; [apply Hexpired; reflexivity|].
  split; [apply Hlist; reflexivity|].
  apply Hcleanup. reflexivity.
Defined.

(* ===================================================================== *)
(** ** Further properties of the collector *)
(* ===================================================================== *)

Section Strangers.

Variable get_file : string -> fetch_result.
Variable answer_fails : string -> bool.
Variable chat : option string.

Implicit Types (w : world) (u : update) (l : list update).

Lemma skim_cons u l w : skim (u :: l) w = skim l (observe u (advance u w)).
Proof. reflexivity. Qed.

(** Skimming moves the cursor and the log, nothing else. *)
Lemma skim_frame l w :
  seen (skim l w) = seen w ++ trace_of l /\
  update_offset (skim l w) = cursor_after (update_offset w) l /\
  outbox (skim l w) = outbox w /\ clock (skim l w) = clock w /\
  polls (skim l w) = polls w /\
  same_files w (skim l w) /\ same_marker w (skim l w).
Proof.
  revert w. induction l as [|u l IH]; intros w.
  - simpl. rewrite app_nil_r, cursor_after_nil. repeat split.
  - rewrite skim_cons, cursor_after_cons.
    destruct (IH (observe u (advance u w)))
      as (Hs & Ho & Hout & Hc & Hp & Hf & Hm).
    rewrite Hs, Ho, Hout, Hc, Hp. simpl. rewrite <- app_assoc.
    destruct Hf as (?&?&?&?), Hm as (?&?).
    split; [done|]. split; [done|]. split; [done|]. split; [done|].
    split; [done|]. split; by repeat split.
Qed.

Lemma stranger_check m :
  msg_chat m <> TelegramCollector.chat_id chat ->
  negb (String.eqb (msg_chat m) (TelegramCollector.chat_id chat)) = true.
Proof. intros H. apply String.eqb_neq in H. by rewrite H. Qed.

End Strangers.

(** X9.  Updates that are not messages of the operator are taken (the
    cursor moves past them, they are logged) and otherwise ignored by every
    loop over a batch: [check_for_cancel] reports no cancellation,
    [wait_for_message] finds no answer, the script step keeps its fragments,
    and, when none of them is a button press, [handle_download_commands]
    runs no command.  No message is sent and nothing else changes.  (Button
    presses are routed without a check of the sender.) *)
Theorem strangers_are_ignored (get_file : string -> fetch_result)
    (answer_fails : string -> bool) (chat : option string)
    (l : list update) (parts : list string) (w : world) :
  Forall (stranger chat) l ->
  TelegramCollector.cancel_batch chat l w = (false, skim l w) /\
  TelegramCollector.wait_batch chat l w = (Done None, skim l w) /\
  TelegramCollector.script_batch get_file chat l parts w
  = (Continue parts, skim l w) /\
  (Forall (fun u => upd_callback u = None) l ->
   TelegramCollector.commands_batch answer_fails chat l w = skim l w) /\
  outbox (skim l w) = outbox w /\
  same_files w (skim l w) /\ same_marker w (skim l w) /\
  update_offset (skim l w) = cursor_after (update_offset w) l.
Proof.
  intros Hall.
  destruct (skim_frame l w) as (_ & Ho & Hout & _ & _ & Hf & Hm).
  assert (Hbatches : forall w,
    TelegramCollector.cancel_batch chat l w = (false, skim l w) /\
    TelegramCollector.wait_batch chat l w = (Done None, skim l w) /\
    TelegramCollector.script_batch get_file chat l parts w
    = (Continue parts, skim l w) /\
    (Forall (fun u => upd_callback u = None) l ->
     TelegramCollector.commands_batch answer_fails chat l w = skim l w)).
  { clear w Ho Hout Hf Hm.
    induction l as [|u l IH]; intros w; [repeat split|].
    apply Forall_cons in Hall. destruct Hall as [Hu Hall].
    destruct (IH Hall (observe u (advance u w))) as (H1 & H2 & H3 & H4).
    rewrite skim_cons. simpl. unfold stranger in Hu.
    destruct (upd_message u) as [m|] eqn:Hm.
    - rewrite (stranger_check chat m Hu).
      split; [done|]. split; [done|]. split; [done|].
      intros Hcb. apply Forall_cons in Hcb. destruct Hcb as [-> Hcb].
      by apply H4.
    - split; [done|]. split; [done|]. split; [done|].
      intros Hcb. apply Forall_cons in Hcb. destruct Hcb as [-> Hcb].
      by apply H4. }
  destruct (Hbatches w) as (H1 & H2 & H3 & H4).
  split; [done|]. split; [done|]. split; [done|]. split; [done|].
  split; [done|]. split; [done|]. split; done.
Qed.

Lemma strangers_are_ignored_witness :
  TelegramCollector.cancel_batch (Some Scenario.me)
    [Scenario.says 7 "someone else" "/cancel"] Scenario.fresh
  = (false, skim [Scenario.says 7 "someone else" "/cancel"] Scenario.fresh).
Proof.
  apply (strangers_are_ignored Scenario.no_files Scenario.answers_ok
           (Some Scenario.me) [Scenario.says 7 "someone else" "/cancel"] []
           Scenario.fresh).
  repeat constructor. simpl. discriminate.
Defined.

Section Cancellation.

Variable feed : nat -> request -> response.
Variable chat : option string.

Implicit Types (w : world) (u : update) (l : list update).

Lemma same_files_refl w : same_files w w.
Proof. by repeat split. Qed.

Lemma same_files_trans w1 w2 w3 :
  same_files w1 w2 -> same_files w2 w3 -> same_files w1 w3.
Proof. intros (?&?&?&?) (?&?&?&?). repeat split; congruence. Qed.

Lemma same_marker_refl w : same_marker w w.
Proof. by split. Qed.

Lemma same_marker_trans w1 w2 w3 :
  same_marker w1 w2 -> same_marker w2 w3 -> same_marker w1 w3.
Proof. intros (?&?) (?&?). split; congruence. Qed.

(** A batch seen by [check_for_cancel]. *)
Lemma cancel_batch_outcome l w :
  match TelegramCollector.cancel_batch chat l w with
  | (true, w') =>
      same_files w w' /\ clock w' = clock w /\ cancelled w' = true /\
      cancel_flag w' =
        Some (CancelData true (clock w) (Some "User requested cancellation")) /\
      outbox w' = outbox w ++ [CancelledLong]
  | (false, w') =>
      same_files w w' /\ clock w' = clock w /\ same_marker w w' /\
      outbox w' = outbox w /\ w' = skim l w
  end.
Proof.
  revert w. induction l as [|u l IH]; intros w; simpl.
  - by repeat split.
  - specialize (IH (observe u (advance u w))).
    repeat case_match; simplify_eq; try done.
    all: try (by repeat split).
Qed.

Lemma get_updates_files o t w :
  same_files w (snd (TelegramCollector.get_updates feed o t w)) /\
  same_marker w (snd (TelegramCollector.get_updates feed o t w)) /\
  outbox (snd (TelegramCollector.get_updates feed o t w)) = outbox w.
Proof. by repeat split. Qed.

End Cancellation.

(** X10.  [check_for_cancel] answers [True] exactly when it has persisted
    the cancellation: the flag of the collector is set, the marker file
    holds [cancelled = true], the time of the poll and the reason, and the
    long cancellation notice is the one message sent.  When it answers
    [False] nothing but the cursor, the log and the clock has changed.  In
    both cases the pending downloads and the production records are
    untouched. *)
Theorem check_for_cancel_marks (feed : nat -> request -> response)
    (chat : option string) (w : world) :
  let r := TelegramCollector.check_for_cancel feed chat w in
  same_files w (snd r) /\
  (fst r = true ->
     cancelled (snd r) = true /\
     cancel_flag (snd r) =
       Some (CancelData true (clock (snd r))
               (Some "User requested cancellation")) /\
     outbox (snd r) = outbox w ++ [CancelledLong]) /\
  (fst r = false -> same_marker w (snd r) /\ outbox (snd r) = outbox w).
Proof.
  intros r. subst r. unfold TelegramCollector.check_for_cancel.
  destruct (get_updates_files feed (update_offset w) 0 w) as (Hf & Hm & Ho).
  destruct (TelegramCollector.get_updates feed (update_offset w) 0 w)
    as [[| |l] w1]; simpl in *.
  - split; [done|]. split; [done|]. by intros _.
  - split; [done|]. split; [done|]. by intros _.
  - pose proof (cancel_batch_outcome chat l w1) as Hb.
    destruct (TelegramCollector.cancel_batch chat l w1) as [[] w2]; simpl.
    + destruct Hb as (Hf2 & Hc & Hcan & Hflag & Hout).
      split; [by eapply same_files_trans|]. split; [|done]. intros _.
      split; [done|]. rewrite Hc, Hflag, Hout, Ho. done.
    + destruct Hb as (Hf2 & Hc & Hm2 & Hout & _).
      split; [by eapply same_files_trans|]. split; [done|]. intros _.
      split; [by eapply same_marker_trans|]. by rewrite Hout.
Qed.

Section WaitOutcome.

Variable feed : nat -> request -> response.
Variable chat : option string.

Implicit Types (w : world) (u : update) (l : list update).

(** A batch seen by [wait_for_message]. *)
Lemma wait_batch_outcome l w :
  match TelegramCollector.wait_batch chat l w with
  | (Done x, w') =>
      same_files w w' /\ same_marker w w' /\ clock w' = clock w /\
      outbox w' = outbox w /\
      match x with
      | None => True
      | Some t =>
          Text.is_empty t = false /\ Text.strip t = t /\
          Text.member (Text.lower t) cancel_words = false
      end
  | (Raised e, w') =>
      e = WorkflowCancelled /\ same_files w w' /\ marked w' /\
      clock w' = clock w /\ outbox w' = outbox w ++ [CancelledShort]
  | (OutOfFuel, _) => False
  end.
Proof.
  revert w. induction l as [|u l IH]; intros w; simpl.
  - by repeat split.
  - specialize (IH (observe u (advance u w))).
    repeat case_match; simplify_eq; try done.
    all: repeat split; try done.
    all: try apply strip_idempotent.
    all: eexists; split; [reflexivity|done].
Qed.

(** One look for a cancellation request. *)
Lemma check_for_cancel_outcome w :
  match TelegramCollector.check_for_cancel feed chat w with
  | (true, w1) =>
      same_files w w1 /\ marked w1 /\ last (outbox w1) = Some CancelledLong
  | (false, w1) =>
      same_files w w1 /\ same_marker w w1 /\ outbox w1 = outbox w
  end.
Proof.
  unfold TelegramCollector.check_for_cancel.
  destruct (get_updates_files feed (update_offset w) 0 w) as (Hf & Hm & Ho).
  destruct (TelegramCollector.get_updates feed (update_offset w) 0 w)
    as [[| |l] w1]; simpl in *; try done.
  pose proof (cancel_batch_outcome chat l w1) as Hb.
  destruct (TelegramCollector.cancel_batch chat l w1) as [[] w2].
  - destruct Hb as (Hf2 & Hc & Hcan & Hflag & Hout).
    split; [by eapply same_files_trans|]. split.
    + split; [done|]. eexists. split; [exact Hflag|done].
    + by rewrite Hout, last_snoc.
  - destruct Hb as (Hf2 & Hc & Hm2 & Hout & _).
    split; [by eapply same_files_trans|].
    split; [by eapply same_marker_trans|]. by rewrite Hout.
Qed.

Lemma quot_120_mono a b :
  0 <= a <= b -> Z.quot a usec / 120 <= Z.quot b usec / 120.
Proof.
  intros H. rewrite !Z.quot_div_nonneg by (unfold usec; lia).
  apply Z.div_le_mono; [lia|]. apply Z.div_le_mono; unfold usec; lia.
Qed.

Lemma wait_loop_outcome fuel timeout interval start reminder check w :
  start <= clock w ->
  wait_outcome timeout start reminder w
    (TelegramCollector.wait_loop feed chat fuel timeout interval start
       reminder check w).
Proof.
  revert reminder check w.
  induction fuel as [|fuel IH]; intros reminder check w Hstart; [done|].
  simpl.
  destruct (clock w - start <? timeout * usec) eqn:Hin.
  2:{ apply Z.ltb_ge in Hin. simpl.
      split; [apply same_files_refl|]. split; [apply same_marker_refl|].
      split; [lia|]. split; [|done].
      exists []. simpl. rewrite app_nil_r. split; [done|]. lia. }
  apply Z.ltb_lt in Hin.
  unfold bind at 1.
  set (chk := if clock w - start - check >=? interval * usec then _ else _).
  assert (Hchk :
    match chk w with
    | (Done _, w1) =>
        same_files w w1 /\ same_marker w w1 /\ clock w <= clock w1 /\
        outbox w1 = outbox w
    | (Raised e, w1) =>
        e = WorkflowCancelled /\ same_files w w1 /\ marked w1 /\
        clock w <= clock w1 /\ last (outbox w1) = Some CancelledLong
    | (OutOfFuel, _) => False
    end).
  { unfold chk. destruct (_ >=? _).
    - pose proof (check_for_cancel_outcome w) as Ho.
      pose proof (check_for_cancel_clock feed chat w) as Hc.
      destruct (TelegramCollector.check_for_cancel feed chat w) as [[] w1];
        simpl in *.
      + destruct Ho as (Hf & Hmk & Hl).
        split; [done|]. split; [done|]. split; [done|]. split; [lia|done].
      + destruct Ho as (Hf & Hm & Hout).
        split; [done|]. split; [done|]. split; [lia|done].
    - simpl. split; [apply same_files_refl|].
      split; [apply same_marker_refl|]. split; [lia|done]. }
  destruct (chk w) as [[check'|e|] w1]; [|simpl|done].
  2:{ destruct Hchk as (-> & Hf & Hmk & Hc & Hl).
      split; [done|]. split; [done|]. split; [done|]. split; [done|].
      by left. }
  destruct Hchk as (Hf1 & Hm1 & Hc1 & Ho1).
  unfold bind at 1.
  set (rem := if _ >? reminder then _ else _).
  assert (Hrem : exists reminder' w2 sent,
    rem w1 = (Done reminder', w2) /\ same_files w1 w2 /\ same_marker w1 w2 /\
    clock w2 = clock w1 /\ outbox w2 = outbox w1 ++ map Reminder sent /\
    reminder + Z.of_nat (length sent) <= reminder' /\
    reminder' <= Z.max reminder (Z.quot (clock w - start) usec / 120)).
  { unfold rem. destruct (_ >? reminder) eqn:Hgt.
    - apply Z.gtb_lt in Hgt.
      eexists _, _, [_]. split; [reflexivity|]. simpl.
      repeat split; try done; lia.
    - exists reminder, w1, []. simpl. rewrite app_nil_r.
      repeat split; try done; lia. }
  destruct Hrem as (reminder' & w2 & sent & -> & Hf2 & Hm2 & Hc2 & Ho2 &
                    Hcount & Hbound).
  unfold bind at 1, pure_step.
  pose proof (get_updates_files feed (update_offset w2) 10 w2)
    as (Hf3 & Hm3 & Ho3).
  pose proof (get_updates_clock feed (update_offset w2) 10 w2) as Hc3.
  assert (Hcompose : forall w4 r,
    same_files w2 w4 -> same_marker w2 w4 -> clock w2 <= clock w4 ->
    outbox w4 = outbox w2 ->
    wait_outcome timeout start reminder' w4 r ->
    wait_outcome timeout start reminder w r).
  { intros w4 [[x|e|] w5] Hf4 Hm4 Hc4 Ho4 Hr; [| |done]; simpl in *.
    - destruct Hr as (Hf5 & Hm5 & Hc5 & (rs & Ho5 & Hrs) & Hx).
      split; [repeat (eapply same_files_trans; [eassumption|]); done|].
      split; [repeat (eapply same_marker_trans; [eassumption|]); done|].
      split; [lia|]. split; [|done].
      exists (sent ++ rs). rewrite map_app, app_assoc, length_app.
      split; [by rewrite Ho5, Ho4, Ho2, Ho1|].
      assert (Z.quot (clock w - start) usec / 120
              <= Z.quot (clock w5 - start) usec / 120)
        by (apply quot_120_mono; lia).
      lia.
    - destruct Hr as (-> & Hf5 & Hmk & Hc5 & Hl).
      split; [done|].
      split; [repeat (eapply same_files_trans; [eassumption|]); done|].
      split; [done|]. split; [lia|done]. }
  destruct (TelegramCollector.get_updates feed (update_offset w2) 10 w2)
    as [[| |updates] w3]; simpl in Hf3, Hm3, Ho3, Hc3.
  - rewrite bind_act.
    apply (Hcompose (sleep 5 w3)); try done.
    + unfold sleep, usec. simpl. lia.
    + apply IH. unfold sleep, usec. simpl. lia.
  - rewrite bind_act.
    apply (Hcompose (sleep 3 w3)); try done.
    + unfold sleep, usec. simpl. lia.
    + apply IH. unfold sleep, usec. simpl. lia.
  - unfold bind.
    pose proof (wait_batch_outcome updates w3) as Hb.
    destruct (TelegramCollector.wait_batch chat updates w3)
      as [[[text|]| |] w4]; [| | |done].
    + destruct Hb as (Hf4 & Hm4 & Hc4 & Ho4 & Hx). simpl.
      split; [repeat (eapply same_files_trans; [eassumption|]); done|].
      split; [repeat (eapply same_marker_trans; [eassumption|]); done|].
      split; [lia|]. split; [|done].
      exists sent. split; [by rewrite Ho4, Ho3, Ho2, Ho1|].
      assert (Z.quot (clock w - start) usec / 120
              <= Z.quot (clock w4 - start) usec / 120)
        by (apply quot_120_mono; lia).
      lia.
    + destruct Hb as (Hf4 & Hm4 & Hc4 & Ho4 & _).
      apply (Hcompose w4).
      * by eapply same_files_trans.
      * by eapply same_marker_trans.
      * lia.
      * by rewrite Ho4.
      * apply IH. lia.
    + destruct Hb as (-> & Hf4 & Hmk & Hc4 & Ho4). simpl.
      split; [done|].
      split; [repeat (eapply same_files_trans; [eassumption|]); done|].
      split; [done|]. split; [lia|]. right. by rewrite Ho4, last_snoc.
Qed.

End WaitOutcome.

(** X11.  What [wait_for_message] can do.  With one unit of fuel per
    microsecond of the timeout it ends, and then:
    - an answer it returns is a non-empty, trimmed text of the operator
      that is not a cancel word;
    - [None] is returned only once the timeout has run out;
    - in both cases the only messages sent are reminders, at most one per
      two full minutes waited, and neither the cancellation marker nor any
      file has been touched;
    - the only exception it lets out is [WorkflowCancelled], and then the
      marker has been written with [cancelled = true] and the last message
      sent is one of the two cancellation notices. *)
Theorem wait_for_message_outcome (feed : nat -> request -> response)
    (chat : option string) (fuel : nat) (timeout interval : Z) (w : world) :
  Z.max 0 (timeout * usec) < Z.of_nat fuel ->
  let r := TelegramCollector.wait_for_message feed chat fuel timeout interval w in
  fst r <> OutOfFuel /\ wait_outcome timeout (clock w) 0 w r.
Proof.
  intros Hfuel r. split.
  - by apply wait_for_message_terminates.
  - apply wait_loop_outcome. lia.
Qed.

Lemma wait_for_message_outcome_witness :
  let r := TelegramCollector.wait_for_message
             (Scenario.serve [Response Scenario.sec
                                (Ok [Scenario.says 1 Scenario.me "  D-Day "])])
             (Some Scenario.me) (Z.to_nat 1000001) 1 5 Scenario.fresh in
  fst r <> OutOfFuel /\ wait_outcome 1 0 0 Scenario.fresh r.
Proof.
  apply (wait_for_message_outcome _ (Some Scenario.me) (Z.to_nat 1000001) 1 5
           Scenario.fresh).
  unfold usec. lia.
Defined.

(* ===================================================================== *)
(** ** Words and tags *)
(* ===================================================================== *)

Section Words.

Implicit Types (s a b : string) (c : ascii) (parts : list string).

Lemma split_ws_head c s :
  Text.is_space c = false -> Text.split_ws (String c s) <> [].
Proof.
  intros Hc. cbn [Text.split_ws]. rewrite Hc.
  destruct s as [|c' s']; [done|].
  destruct (Text.is_space c'); [done|].
  by destruct (Text.split_ws (String c' s')).
Qed.

(** White space between two texts separates their words. *)
Lemma split_ws_app a c b :
  Text.is_space c = true ->
  Text.split_ws (a +:+ String c b) = Text.split_ws a ++ Text.split_ws b.
Proof.
  intros Hc. induction a as [|x a IH].
  - change ("" +:+ String c b) with (String c b).
    cbn [Text.split_ws]. by rewrite Hc.
  - change (String x a +:+ String c b) with (String x (a +:+ String c b)).
    cbn [Text.split_ws].
    destruct (Text.is_space x) eqn:Hx; [exact IH|].
    destruct a as [|y a'].
    + change ("" +:+ String c b) with (String c b).
      cbn [Text.split_ws]. by rewrite Hc.
    + change (String y a' +:+ String c b)
        with (String y (a' +:+ String c b)) in *.
      destruct (Text.is_space y) eqn:Hy.
      * rewrite ?Hy. by rewrite IH.
      * rewrite ?Hy, IH.
        pose proof (split_ws_head y a' Hy) as Hne.
        by destruct (Text.split_ws (String y a')).
Qed.



End Words.


Section Tags.

Implicit Types (s a b t : string) (c sep : ascii) (tags : list string).

Lemma split_on_plain sep a :
  Text.count_char sep a = O -> Text.split_on sep a = [a].
Proof.
  induction a as [|x a IH]; [done|]. cbn [Text.count_char Text.split_on].
  destruct (Ascii.eqb x sep); [done|]. intros H. by rewrite (IH H).
Qed.

Lemma split_on_app sep a b :
  Text.count_char sep a = O ->
  Text.split_on sep (a +:+ String sep b) = a :: Text.split_on sep b.
Proof.
  induction a as [|x a IH].
  - intros _. change ("" +:+ String sep b) with (String sep b).
    cbn [Text.split_on]. by rewrite Ascii.eqb_refl.
  - change (String x a +:+ String sep b) with (String x (a +:+ String sep b)).
    cbn [Text.count_char Text.split_on].
    destruct (Ascii.eqb x sep); [done|]. intros H. by rewrite (IH H).
Qed.

Lemma strip_leading_space c s :
  Text.is_space c = true -> Text.strip (String c s) = Text.strip s.
Proof.
  intros Hc. unfold Text.strip. cbn [Text.rstrip].
  destruct (Text.rstrip s) as [|y r]; [by rewrite Hc|].
  cbn [Text.lstrip]. by rewrite Hc.
Qed.

Lemma parse_tags_leading_space s :
  TelegramCollector.parse_tags (String " " s)
  = TelegramCollector.parse_tags s.
Proof.
  unfold TelegramCollector.parse_tags. cbn [Text.split_on].
  change (Ascii.eqb " " ",") with false. cbv iota.
  pose proof (split_on_length "," s) as Hlen.
  destruct (Text.split_on "," s) as [|h t]; [simpl in Hlen; lia|].
  cbn [map]. by rewrite strip_leading_space.
Qed.

End Tags.

(** X13.  Tags typed the usual way come back as typed: for a non-empty
    list of tags that carry no comma and no white space at either end,
    parsing the tags joined by a comma and a space gives the list back. *)
Theorem tags_round_trip (tags : list string) :
  tags <> [] ->
  Forall (fun t => Text.strip t = t /\ Text.count_char "," t = O) tags ->
  TelegramCollector.parse_tags (Text.join ", " tags) = tags.
Proof.
  intros Hne Hall. induction Hall as [|t [|u tags] [Hstrip Hplain] Hall IH];
    [done| |].
  - unfold TelegramCollector.parse_tags. cbn [Text.join String.concat].
    rewrite split_on_plain by done. cbn [map]. by rewrite Hstrip.
  - change (Text.join ", " (t :: u :: tags))
      with (t +:+ String "," (String " " (Text.join ", " (u :: tags)))).
    transitivity
      (Text.strip t
       :: TelegramCollector.parse_tags (String " " (Text.join ", " (u :: tags)))).
    { unfold TelegramCollector.parse_tags. by rewrite split_on_app. }
    rewrite parse_tags_leading_space, Hstrip. f_equal. by apply IH.
Qed.

Lemma tags_round_trip_witness :
  TelegramCollector.parse_tags "WWII, D-Day, history"
  = ["WWII"; "D-Day"; "history"].
Proof.
  apply (tags_round_trip ["WWII"; "D-Day"; "history"]); [done|].
  repeat constructor.
Defined.

(* ===================================================================== *)
(** ** Routing of the download commands *)
(* ===================================================================== *)

Section Routing.

Implicit Types (s a b id : string) (c : ascii).

Lemma spaceless_rstrip s : spaceless s = true -> Text.rstrip s = s.
Proof.
  induction s as [|c s IH]; [done|]. cbn [spaceless Text.rstrip].
  intros [Hc Hs]%andb_prop. rewrite (IH Hs).
  apply negb_true_iff in Hc. rewrite Hc. by destruct s.
Qed.

Lemma append_nonempty a b : b <> "" -> a +:+ b <> "".
Proof. by destruct a. Qed.

Lemma rstrip_app_spaceless a b :
  spaceless b = true -> b <> "" -> Text.rstrip (a +:+ b) = a +:+ b.
Proof.
  intros Hb Hne. induction a as [|x a IH].
  - by apply spaceless_rstrip.
  - change (String x a +:+ b) with (String x (a +:+ b)).
    cbn [Text.rstrip]. rewrite IH.
    pose proof (append_nonempty a b Hne). by destruct (a +:+ b).
Qed.

Lemma split_ws_spaceless s :
  spaceless s = true -> s <> "" -> Text.split_ws s = [s].
Proof.
  induction s as [|c s IH]; [done|]. cbn [spaceless Text.split_ws].
  intros [Hc Hs]%andb_prop _. apply negb_true_iff in Hc. rewrite Hc.
  destruct s as [|c' s']; [done|].
  pose proof Hs as [Hc' _]%andb_prop. apply negb_true_iff in Hc'.
  rewrite Hc'. by rewrite IH.
Qed.

Lemma split_once_app a b :
  Text.count_char ":" a = O ->
  Text.split_once ":" (a +:+ String ":" b) = [a; b].
Proof.
  induction a as [|x a IH].
  - done.
  - change (String x a +:+ String ":" b) with (String x (a +:+ String ":" b)).
    cbn [Text.count_char Text.split_once].
    destruct (Ascii.eqb x ":"); [done|]. intros H. by rewrite (IH H).
Qed.

Lemma prefix_append a b : String.prefix a (a +:+ b) = true.
Proof.
  induction a as [|x a IH]; [by destruct b|].
  change (String x a +:+ b) with (String x (a +:+ b)). cbn [String.prefix].
  by destruct (ascii_dec x x).
Qed.

End Routing.

(** X14.  The typed command and the button reach the same handler.  For an
    identifier that is one word, the message [/confirm <id>] of the operator
    and a press of the button carrying [confirm:<id>] both run
    [confirm_download] on that identifier; the press is first acknowledged
    with "Processando... ⏳".  A press whose acknowledgement fails does
    nothing. *)
Theorem confirm_routes (answer_fails : string -> bool) (chat : option string)
    (k : Z) (cb id : string) (w : world) :
  spaceless id = true -> id <> "" ->
  let typed :=
    Update k (Some (Message (TelegramCollector.chat_id chat)
                      (Some ("/confirm " +:+ id)) None)) None in
  let pressed :=
    Update k None (Some (CallbackQuery cb (Some ("confirm:" +:+ id)))) in
  TelegramCollector.commands_batch answer_fails chat [typed] w
  = TelegramCollector.confirm_download id (observe typed (advance typed w)) /\
  TelegramCollector.commands_batch answer_fails chat [pressed] w
  = (if answer_fails cb then observe pressed (advance pressed w)
     else TelegramCollector.confirm_download id
            (send_message (AnswerCallback cb "Processando... ⏳")
               (observe pressed (advance pressed w)))).
Proof.
  intros Hid Hne typed pressed. split.
  - cbn [TelegramCollector.commands_batch upd_callback upd_message typed
         msg_chat text_of text].
    rewrite String.eqb_refl. cbn [negb].
    assert (Hstrip : Text.strip ("/confirm " +:+ id) = "/confirm " +:+ id).
    { unfold Text.strip. by rewrite rstrip_app_spaceless. }
    rewrite Hstrip.
    change ("/confirm " +:+ id) with ("/confirm" +:+ String " " id) at 5.
    rewrite split_ws_app by done.
    rewrite (split_ws_spaceless id Hid Hne).
    unfold Text.startswith. rewrite prefix_append.
    by destruct id.
  - cbn [TelegramCollector.commands_batch upd_callback pressed].
    unfold TelegramCollector.handle_callback. cbn [cb_data cb_id].
    destruct (answer_fails cb); [done|].
    unfold Text.startswith. rewrite prefix_append.
    change ("confirm:" +:+ id) with ("confirm" +:+ String ":" id).
    by rewrite split_once_app.
Qed.

Lemma confirm_routes_witness :
  TelegramCollector.commands_batch Scenario.answers_ok (Some Scenario.me)
    [Scenario.says 7 Scenario.me "/confirm download_3"] Scenario.store_world
  = TelegramCollector.confirm_download "download_3"
      (observe (Scenario.says 7 Scenario.me "/confirm download_3")
         (advance (Scenario.says 7 Scenario.me "/confirm download_3")
            Scenario.store_world)).
Proof.
  apply (confirm_routes Scenario.answers_ok (Some Scenario.me) 7 "cb"
           "download_3" Scenario.store_world); done.
Defined.

(* ===================================================================== *)
(** ** The script step: what it sends and what it leaves alone *)
(* ===================================================================== *)

Section ScriptOutcome.

Variable feed : nat -> request -> response.
Variable get_file : string -> fetch_result.
Variable chat : option string.

Implicit Types (w : world) (u : update) (l : list update)
  (parts more : list string).

Lemma reports_app parts more1 more2 :
  reports parts (more1 ++ more2)
  = reports parts more1 ++ reports (parts ++ more1) more2.
Proof.
  revert parts. induction more1 as [|t more1 IH]; intros parts.
  - by rewrite app_nil_r.
  - cbn [app reports]. rewrite IH. by rewrite <- app_assoc.
Qed.

Lemma collected_refl parts w : collected parts w (Some parts) w.
Proof.
  split; [apply same_files_refl|]. split; [apply same_marker_refl|].
  split; [lia|]. exists [], []. by rewrite !app_nil_r.
Qed.

Lemma collected_forget parts w held w' :
  collected parts w held w' -> collected parts w None w'.
Proof.
  intros (Hf & Hm & Hc & more & sent & Ho & Hs & Hr & _).
  split; [done|]. split; [done|]. split; [done|]. by exists more, sent.
Qed.

Lemma collected_trans parts w parts1 w1 held w2 :
  collected parts w (Some parts1) w1 ->
  collected parts1 w1 held w2 ->
  collected parts w held w2.
Proof.
  intros (Hf & Hm & Hc & more & sent & Ho & Hs & Hr & ->)
         (Hf' & Hm' & Hc' & more' & sent' & Ho' & Hs' & Hr' & Hheld).
  split; [by eapply same_files_trans|].
  split; [by eapply same_marker_trans|]. split; [lia|].
  exists (more ++ more'), (sent ++ sent').
  split; [by rewrite Ho', Ho, app_assoc|].
  split; [by rewrite forallb_app, Hs, Hs'|].
  split.
  - unfold part_reports in *. by rewrite List.filter_app, reports_app, Hr, Hr'.
  - destruct held as [ps|]; [|done]. by rewrite Hheld, app_assoc.
Qed.

(** A step that takes one update and sends [sent], accepting [more]. *)
Lemma collected_step parts w more sent w1 :
  same_files w w1 -> same_marker w w1 -> clock w1 = clock w ->
  outbox w1 = outbox w ++ sent ->
  forallb script_notice sent = true ->
  part_reports sent = reports parts more ->
  collected parts w (Some (parts ++ more)) w1.
Proof.
  intros Hf Hm Hc Ho Hs Hr. split; [done|]. split; [done|]. split; [lia|].
  by exists more, sent.
Qed.

Lemma script_batch_collected l parts w :
  let r := TelegramCollector.script_batch get_file chat l parts w in
  collected parts w (batch_held (fst r)) (snd r) /\
  clock (snd r) = clock w /\
  (forall ps, fst r <> Exit (ByTimeout ps)).
Proof.
  revert parts w. induction l as [|u l IH]; intros parts w.
  - split; [apply collected_refl|done].
  - set (w1 := observe u (advance u w)).
    assert (Hnext : forall more sent parts' w2,
      same_files w w2 -> same_marker w w2 -> clock w2 = clock w ->
      outbox w2 = outbox w ++ sent ->
      forallb script_notice sent = true ->
      part_reports sent = reports parts more ->
      parts' = parts ++ more ->
      collected parts w
        (batch_held
           (fst (TelegramCollector.script_batch get_file chat l parts' w2)))
        (snd (TelegramCollector.script_batch get_file chat l parts' w2)) /\
      clock (snd (TelegramCollector.script_batch get_file chat l parts' w2))
      = clock w /\
      (forall ps,
         fst (TelegramCollector.script_batch get_file chat l parts' w2)
         <> Exit (ByTimeout ps))).
    { intros more sent parts' w2 Hf Hm Hc Ho Hs Hr ->.
      destruct (IH (parts ++ more) w2) as (Hcol & Hclock & Hexit).
      split; [|split; [congruence|done]].
      eapply collected_trans; [|exact Hcol].
      by apply (collected_step _ _ more sent). }
    assert (Hstop : forall sent w2 held,
      same_files w w2 -> same_marker w w2 -> clock w2 = clock w ->
      outbox w2 = outbox w ++ sent ->
      forallb script_notice sent = true ->
      part_reports sent = [] ->
      held = None \/ held = Some parts ->
      collected parts w held w2).
    { intros sent w2 held Hf Hm Hc Ho Hs Hr Hheld.
      split; [done|]. split; [done|]. split; [lia|].
      exists [], sent. rewrite app_nil_r. by destruct Hheld as [->| ->]. }
    cbn [TelegramCollector.script_batch]. fold w1.
    repeat case_match; subst;
      first
        [ apply (Hnext [] []);
          [by repeat split|by repeat split|done
          |by rewrite app_nil_r|done|done|by rewrite app_nil_r]
        | apply (Hnext [] [NoScriptYet]);
          [by repeat split|by repeat split|done|done|done|done
          |by rewrite app_nil_r]
        | apply (Hnext [] [FileReceived]);
          [by repeat split|by repeat split|done|done|done|done
          |by rewrite app_nil_r]
        | apply (Hnext [] [FileReceived; FileError]);
          [by repeat split|by repeat split|done
          |by cbn; rewrite <- app_assoc|done|done|by rewrite app_nil_r]
        | apply (Hnext [] [FileReceived; NoScriptYet]);
          [by repeat split|by repeat split|done
          |by cbn; rewrite <- app_assoc|done|done|by rewrite app_nil_r]
        | eapply (Hnext [_] [_]);
          [by repeat split|by repeat split|done|done|done|done|done]
        | eapply (Hnext [_] [FileReceived; _]);
          [by repeat split|by repeat split|done
          |by cbn; rewrite <- app_assoc|done|done|done]
        | idtac ].
    all: (split; [|split; [done|done]]).
    all: cbn [fst snd batch_held held_at].
    all: first
        [ eapply (Hstop []); [by repeat split|by repeat split|done
                             |by rewrite app_nil_r|done|done|by auto]
        | eapply (Hstop [FileReceived]);
          [by repeat split|by repeat split|done|done|done|done|by auto]
        | idtac ].
Qed.

Lemma collected_after parts w w1 held w2 :
  same_files w w1 -> same_marker w w1 -> clock w <= clock w1 ->
  outbox w1 = outbox w ->
  collected parts w1 held w2 -> collected parts w held w2.
Proof.
  intros Hf Hm Hc Ho (Hf' & Hm' & Hc' & more & sent & Ho' & Hrest).
  split; [by eapply same_files_trans|].
  split; [by eapply same_marker_trans|]. split; [lia|].
  exists more, sent. by rewrite Ho', Ho.
Qed.

Lemma script_loop_collected fuel timeout start parts w :
  match TelegramCollector.script_loop feed get_file chat fuel timeout start
          parts w with
  | (Done e, w') => collected parts w (held_at e) w'
  | (Raised e, w') => e = WorkflowCancelled /\ collected parts w None w'
  | (OutOfFuel, w') => collected parts w None w'
  end.
Proof.
  revert parts w. induction fuel as [|fuel IH]; intros parts w;
    [apply (collected_forget _ _ (Some parts)), collected_refl|].
  rewrite script_loop_unfold.
  destruct (clock w - start <? timeout * usec); [|apply collected_refl].
  cbv zeta. destruct (_ <=? 0); [apply collected_refl|].
  set (t := Z.min 30 _).
  pose proof (get_updates_files feed (update_offset w) t w) as (Hf & Hm & Ho).
  pose proof (get_updates_clock feed (update_offset w) t w) as Hc.
  destruct (TelegramCollector.get_updates feed (update_offset w) t w)
    as [[| |updates] w1]; simpl in Hf, Hm, Ho, Hc.
  - specialize (IH parts (sleep 5 w1)).
    assert (Hclock : clock w <= clock (sleep 5 w1))
      by (unfold sleep, usec; simpl; lia).
    destruct (TelegramCollector.script_loop _ _ _ fuel _ _ parts (sleep 5 w1))
      as [[e|e|] w2].
    + by apply (collected_after parts w (sleep 5 w1)).
    + destruct IH as [-> IH]. split; [done|].
      by apply (collected_after parts w (sleep 5 w1)).
    + by apply (collected_after parts w (sleep 5 w1)).
  - specialize (IH parts (sleep 3 w1)).
    assert (Hclock : clock w <= clock (sleep 3 w1))
      by (unfold sleep, usec; simpl; lia).
    destruct (TelegramCollector.script_loop _ _ _ fuel _ _ parts (sleep 3 w1))
      as [[e|e|] w2].
    + by apply (collected_after parts w (sleep 3 w1)).
    + destruct IH as [-> IH]. split; [done|].
      by apply (collected_after parts w (sleep 3 w1)).
    + by apply (collected_after parts w (sleep 3 w1)).
  - pose proof (script_batch_collected updates parts w1) as (Hb & _ & _).
    assert (Hclock : clock w <= clock w1) by lia.
    destruct (TelegramCollector.script_batch get_file chat updates parts w1)
      as [[e| |ps] w2]; cbn [fst snd batch_held] in Hb.
    + by apply (collected_after parts w w1).
    + split; [done|]. by apply (collected_after parts w w1).
    + specialize (IH ps w2).
      destruct (TelegramCollector.script_loop _ _ _ fuel _ _ ps w2)
        as [[e|e|] w3].
      * apply (collected_after parts w w1); try done.
        by eapply collected_trans.
      * destruct IH as [-> IH]. split; [done|].
        apply (collected_after parts w w1); try done.
        by eapply collected_trans.
      * apply (collected_after parts w w1); try done.
        by eapply collected_trans.
Qed.

Lemma script_step_collected fuel timeout w :
  match TelegramCollector.script_step feed get_file chat fuel timeout w with
  | (Done e, w') =>
      collected [] (send_message ScriptPrompt w) (held_at e) w'
  | (Raised e, w') =>
      e = WorkflowCancelled /\
      collected [] (send_message ScriptPrompt w) None w'
  | (OutOfFuel, w') => collected [] (send_message ScriptPrompt w) None w'
  end.
Proof. apply script_loop_collected. Qed.

End ScriptOutcome.



(** X16.  The script step leaves the cancellation marker alone.  Whatever
    it meets, [collect_script_multipart] writes neither the marker nor any
    file of the store, lets out no exception but [WorkflowCancelled], and
    sends, after its prompt, only its own notices: a cancel word typed
    during this step is answered by no cancellation notice and leaves no
    marker behind, unlike one typed while a single answer is awaited. *)
Theorem script_cancel_leaves_no_marker (feed : nat -> request -> response)
    (get_file : string -> fetch_result) (chat : option string)
    (fuel : nat) (timeout : Z) (w : world) :
  let r := TelegramCollector.collect_script_multipart feed get_file chat fuel
             timeout w in
  same_files w (snd r) /\ same_marker w (snd r) /\
  (forall e, fst r = Raised e -> e = WorkflowCancelled) /\
  exists sent,
    outbox (snd r) = outbox w ++ ScriptPrompt :: sent /\
    forallb script_notice sent = true.
Proof.
  intros r. subst r. unfold TelegramCollector.collect_script_multipart, bind.
  pose proof (script_step_collected feed get_file chat fuel timeout w) as H.
  destruct (TelegramCollector.script_step feed get_file chat fuel timeout w)
    as [[e|e|] w']; cbn [fst snd ret].
  - destruct H as (Hf & Hm & _ & more & sent & Ho & Hs & _).
    split; [done|]. split; [done|]. split; [done|].
    exists sent. split; [by rewrite Ho; simpl; rewrite <- app_assoc|done].
  - destruct H as (-> & Hf & Hm & _ & more & sent & Ho & Hs & _).
    split; [done|]. split; [done|]. split; [by intros ? [= <-]|].
    exists sent. split; [by rewrite Ho; simpl; rewrite <- app_assoc|done].
  - destruct H as (Hf & Hm & _ & more & sent & Ho & Hs & _).
    split; [done|]. split; [done|]. split; [done|].
    exists sent. split; [by rewrite Ho; simpl; rewrite <- app_assoc|done].
Qed.

(* ===================================================================== *)
(** ** The conversation as a whole *)
(* ===================================================================== *)

Section ConversationFrame.

Variable feed : nat -> request -> response.
Variable get_file : string -> fetch_result.
Variable chat : option string.

Implicit Types (w : world).

Lemma wait_for_message_quiet fuel timeout interval w :
  kept_quiet w
    (TelegramCollector.wait_for_message feed chat fuel timeout interval w).
Proof.
  unfold TelegramCollector.wait_for_message.
  pose proof (wait_loop_outcome feed chat fuel timeout interval (clock w) 0 0 w)
    as H.
  destruct (TelegramCollector.wait_loop _ _ _ _ _ _ _ _ w) as [[x|e|] w'];
    [| |done]; simpl in *.
  - destruct H as (Hf & Hm & _); [lia|]. done.
  - destruct H as (-> & Hf & Hmk & _); [lia|]. split; [done|].
    split; [done|]. by right.
Qed.

Lemma collect_script_multipart_quiet fuel timeout w :
  kept_quiet w
    (TelegramCollector.collect_script_multipart feed get_file chat fuel
       timeout w).
Proof.
  unfold TelegramCollector.collect_script_multipart, bind.
  pose proof (script_step_collected feed get_file chat fuel timeout w) as H.
  destruct (TelegramCollector.script_step feed get_file chat fuel timeout w)
    as [[e|e|] w']; [| |done]; simpl.
  - by destruct H as (Hf & Hm & _).
  - destruct H as (-> & Hf & Hm & _). split; [done|]. split; [done|].
    by left.
Qed.

Lemma talked_after w w1 r :
  same_files w w1 -> same_marker w w1 -> talked w1 r -> talked w r.
Proof.
  intros Hf Hm. destruct r as [[[record|]|e|] w2]; [| | |done]; simpl.
  - intros ((Hp & Hd & Hl) & Hm' & Hprod).
    destruct Hf as (Hp1 & Hd1 & Hl1 & Hprod1).
    split; [by repeat split; congruence|].
    split; [by eapply same_marker_trans|]. congruence.
  - intros (Hf' & Hm').
    split; [by eapply same_files_trans|by eapply same_marker_trans].
  - intros (-> & Hf' & Hm'). split; [done|].
    split; [by eapply same_files_trans|].
    destruct Hm' as [Hm'|Hmk]; [left; by eapply same_marker_trans|by right].
Qed.

Lemma bind_talked {A} (m : M A) (k : A -> M (option video_data)) w :
  kept_quiet w (m w) ->
  (forall x w1, talked w1 (k x w1)) ->
  talked w (bind m k w).
Proof.
  intros Hm Hk. unfold bind.
  destruct (m w) as [[x|e|] w1]; [| |done]; simpl in Hm.
  - destruct Hm as [Hf Hmk]. by eapply talked_after.
  - done.
Qed.

Lemma act_talked (f : world -> world) (k : M (option video_data)) w :
  same_files w (f w) -> same_marker w (f w) ->
  talked (f w) (k (f w)) ->
  talked w (bind (act f) (fun _ => k) w).
Proof. intros Hf Hm Hk. rewrite bind_act. by eapply talked_after. Qed.

Lemma timed_out_talked w :
  talked w (bind (act (send_message TimedOut)) (fun _ => ret None) w).
Proof. rewrite bind_act. simpl. by repeat split. Qed.

Lemma script_phase_talked fuel titulo descricao tags w :
  talked w
    (TelegramCollector.script_phase feed get_file chat fuel titulo descricao
       tags w).
Proof.
  unfold TelegramCollector.script_phase.
  apply bind_talked; [apply collect_script_multipart_quiet|].
  intros roteiro w1. destruct (falsy roteiro).
  - rewrite bind_act. simpl. by repeat split.
  - rewrite bind_act. simpl. by repeat split.
Qed.

Lemma conversation_talked fuel w :
  match TelegramCollector.collect_video_info feed get_file chat fuel w with
  | (Done (Some record), w') =>
      store_kept w w' /\
      productions w' = <[video_id record := record]> (productions w) /\
      cancel_flag w' = None /\ cancelled w' = cancelled w
  | (Done None, w') =>
      same_files w w' /\
      (cancel_flag w' = None /\ cancelled w' = cancelled w \/ marked w')
  | (Raised _, _) => False
  | (OutOfFuel, _) => True
  end.
Proof.
  unfold TelegramCollector.collect_video_info,
    TelegramCollector.catch_cancelled.
  rewrite bind_act.
  set (w0 := set_cancel_flag None w).
  match goal with
  | |- context [bind ?m ?k w0] => assert (H : talked w0 (bind m k w0))
  end.
  { apply act_talked; [by repeat split|by repeat split|].
    apply act_talked; [by repeat split|by repeat split|].
    apply act_talked; [by repeat split|by repeat split|].
    apply bind_talked; [apply wait_for_message_quiet|].
    intros titulo w1. destruct (falsy titulo); [apply timed_out_talked|].
    apply act_talked; [by repeat split|by repeat split|].
    apply act_talked; [by repeat split|by repeat split|].
    apply act_talked; [by repeat split|by repeat split|].
    apply bind_talked; [apply wait_for_message_quiet|].
    intros descricao w2. destruct (falsy descricao); [apply timed_out_talked|].
    apply act_talked; [by repeat split|by repeat split|].
    apply act_talked; [by repeat split|by repeat split|].
    apply act_talked; [by repeat split|by repeat split|].
    apply bind_talked; [apply wait_for_message_quiet|].
    intros tags_text w3. destruct (falsy tags_text); [apply timed_out_talked|].
    apply act_talked; [by repeat split|by repeat split|].
    apply act_talked; [by repeat split|by repeat split|].
    apply script_phase_talked. }
  match goal with
  | |- context [bind ?m ?k w0] => destruct (bind m k w0) as [[[record|]|e|] w']
  end; simpl in H; [| | |done].
  - destruct H as (Hs & (Hc & Hfl) & Hp).
    split; [exact Hs|]. split; [exact Hp|]. split; [exact Hfl|exact Hc].
  - destruct H as (Hf & (Hc & Hfl)). split; [exact Hf|].
    left. split; [exact Hfl|exact Hc].
  - destruct H as (-> & Hf & Hm). split; [exact Hf|].
    destruct Hm as [(Hc & Hfl)|Hmk]; [left; split; [exact Hfl|exact Hc]|].
    by right.
Qed.

End ConversationFrame.

(** X17.  The conversation as a whole.  With one unit of fuel per
    microsecond of its longest step, [collect_video_info] returns: it lets
    no exception out.  It never touches the store of pending downloads.
    When it returns a record, that record has been written under its
    identifier, the cancellation marker is absent and the collector is not
    flagged as cancelled by it.  When it returns nothing, no record has been
    written, and the marker is either absent or holds [cancelled = true]. *)
Theorem conversation_outcome (feed : nat -> request -> response)
    (get_file : string -> fetch_result) (chat : option string)
    (fuel : nat) (w : world) :
  900 * usec < Z.of_nat fuel ->
  let r := TelegramCollector.collect_video_info feed get_file chat fuel w in
  store_kept w (snd r) /\
  exists x, fst r = Done x /\
    match x with
    | Some record =>
        productions (snd r) = <[video_id record := record]> (productions w) /\
        cancel_flag (snd r) = None /\ cancelled (snd r) = cancelled w
    | None =>
        productions (snd r) = productions w /\
        (cancel_flag (snd r) = None /\ cancelled (snd r) = cancelled w \/
         marked (snd r))
    end.
Proof.
  intros Hfuel r.
  pose proof (collect_video_info_terminates feed get_file chat fuel w Hfuel)
    as Hends.
  pose proof (conversation_talked feed get_file chat fuel w) as H.
  fold r in Hends, H. destruct r as [[[record|]|e|] w']; [| |done|done];
    cbn [fst snd].
  - destruct H as (Hs & Hp & Hfl & Hc). split; [done|].
    by exists (Some record).
  - destruct H as ((Hp & Hd & Hl & Hprod) & Hm). split; [done|].
    by exists None.
Qed.

Lemma conversation_outcome_witness :
  let r := TelegramCollector.collect_video_info
             (Scenario.serve Scenario.dday_script) Scenario.file_store
             (Some Scenario.me) (Z.to_nat 900000001) Scenario.fresh in
  store_kept Scenario.fresh (snd r) /\
  exists x, fst r = Done x /\
    match x with
    | Some record =>
        productions (snd r)
        = <[video_id record := record]> (productions Scenario.fresh) /\
        cancel_flag (snd r) = None /\
        cancelled (snd r) = cancelled Scenario.fresh
    | None =>
        productions (snd r) = productions Scenario.fresh /\
        (cancel_flag (snd r) = None /\
         cancelled (snd r) = cancelled Scenario.fresh \/
         marked (snd r))
    end.
Proof.
  apply (conversation_outcome (Scenario.serve Scenario.dday_script)
           Scenario.file_store (Some Scenario.me) (Z.to_nat 900000001)
           Scenario.fresh).
  unfold usec. lia.
Defined.

(* ===================================================================== *)
(** ** The process always ends with a status *)
(* ===================================================================== *)



(* ===================================================================== *)
(** ** The download commands only ever remove *)
(* ===================================================================== *)

Section CommandsRemove.

Variable answer_fails : string -> bool.
Variable chat : option string.

Implicit Types (w : world) (u : update) (l : list update).

Lemma only_removed_refl w : only_removed w w.
Proof. split; [done|]. split; [reflexivity|]. by repeat split. Qed.

Lemma only_removed_trans w1 w2 w3 :
  only_removed w1 w2 -> only_removed w2 w3 -> only_removed w1 w3.
Proof.
  intros (Hp & Hd & Hl & Hprod & Hm) (Hp' & Hd' & Hl' & Hprod' & Hm').
  split; [intros id info H; by apply Hp, Hp'|].
  split; [by etrans|]. split; [congruence|]. split; [congruence|].
  by eapply same_marker_trans.
Qed.

(** Only the outbox, the cursor and the log differ. *)
Lemma only_removed_same w w' :
  pending_file w' = pending_file w -> disk w' = disk w ->
  locked w' = locked w -> productions w' = productions w ->
  same_marker w w' -> only_removed w w'.
Proof.
  intros Hp Hd Hl Hprod Hm. unfold only_removed, DownloadManager.load_pending.
  rewrite Hp, Hd. split; [done|]. split; [reflexivity|]. done.
Qed.

Lemma only_removed_sent n w w' :
  only_removed w w' -> only_removed w (send_message n w').
Proof.
  intros H. eapply only_removed_trans; [exact H|].
  split; [done|]. split; [reflexivity|]. by repeat split.
Qed.

Lemma same_but_disk_only_removed w w' :
  same_but_disk w w' -> only_removed w w'.
Proof.
  intros (_ & Hc & _ & _ & _ & _ & Hfl & Hp & Hl & Hprod & Hd).
  unfold only_removed, DownloadManager.load_pending. rewrite Hp.
  by repeat split.
Qed.

Lemma confirm_download_only_removes id w :
  only_removed w (TelegramCollector.confirm_download id w).
Proof.
  unfold TelegramCollector.confirm_download.
  destruct (pending_file w) as [pending|] eqn:Hw;
    [|apply only_removed_sent, only_removed_refl].
  destruct (pending !! id) as [info|] eqn:Hid;
    [|apply only_removed_sent, only_removed_refl].
  pose proof (remove_file_frame (video_path info) w) as Hfr.
  destruct (remove_file (video_path info) w) as [removed w1]. simpl in Hfr.
  destruct Hfr as (_ & Hc & _ & _ & _ & _ & Hfl & Hp & Hl & Hprod & Hd).
  assert (H : only_removed w (set_pending_file (Some (delete id pending)) w1)).
  { unfold only_removed, DownloadManager.load_pending. rewrite Hw. simpl.
    split; [|by repeat split].
    intros id' info' H. apply lookup_delete_Some in H. by destruct H. }
  destruct removed; by apply only_removed_sent.
Qed.

Lemma sweep_only_removes selected n w :
  match pending_file w with
  | None => True
  | Some pending =>
      let '(to_remove, _, _, w1) := sweep selected (map_to_list pending) w in
      only_removed w
        (send_message n
           (set_pending_file (Some (delete_all to_remove pending)) w1))
  end.
Proof.
  destruct (pending_file w) as [pending|] eqn:Hw; [|done].
  pose proof (sweep_mapping selected pending w) as H.
  destruct (sweep selected (map_to_list pending) w) as [[[tr c] r] w1].
  destruct H as (Hlook & _ & _ & Hfr & _).
  destruct Hfr as (_ & Hc & _ & _ & _ & _ & Hfl & Hp & Hl & Hprod & Hd).
  apply only_removed_sent.
  unfold only_removed, DownloadManager.load_pending. rewrite Hw. simpl.
  split; [|by repeat split].
  intros id info. rewrite Hlook. unfold kept_by.
  destruct (pending !! id) as [info'|]; [|done].
  by destruct (selected info').
Qed.

Lemma cleanup_confirmed_only_removes w :
  only_removed w (TelegramCollector.cleanup_confirmed_downloads w).
Proof.
  unfold TelegramCollector.cleanup_confirmed_downloads.
  pose proof (fun n => sweep_only_removes is_confirmed n w) as H.
  destruct (pending_file w) as [pending|];
    [|apply only_removed_sent, only_removed_refl].
  destruct (sweep is_confirmed (map_to_list pending) w) as [[[tr c] r] w1].
  apply H.
Qed.

Lemma cleanup_expired_only_removes hours w :
  only_removed w (TelegramCollector.cleanup_expired_downloads hours w).
Proof.
  unfold TelegramCollector.cleanup_expired_downloads.
  pose proof (fun n =>
    sweep_only_removes (expired (clock w - hours * hour)) n w) as H.
  destruct (pending_file w) as [pending|];
    [|apply only_removed_sent, only_removed_refl].
  cbv zeta.
  destruct (sweep _ (map_to_list pending) w) as [[[tr c] r] w1].
  apply H.
Qed.

Lemma list_only_removes w :
  only_removed w (TelegramCollector.list_pending_downloads w).
Proof.
  unfold TelegramCollector.list_pending_downloads.
  repeat case_match; apply only_removed_sent, only_removed_refl.
Qed.

Lemma handle_callback_only_removes cb w :
  only_removed w (TelegramCollector.handle_callback answer_fails cb w).
Proof.
  unfold TelegramCollector.handle_callback.
  repeat case_match;
    first
      [ apply only_removed_refl
      | apply only_removed_sent, only_removed_refl
      | eapply only_removed_trans;
        [apply only_removed_sent, only_removed_refl|];
        first [ apply confirm_download_only_removes
              | apply cleanup_confirmed_only_removes
              | apply cleanup_expired_only_removes ] ].
Qed.

Lemma commands_batch_only_removes l w :
  only_removed w (TelegramCollector.commands_batch answer_fails chat l w).
Proof.
  revert w. induction l as [|u l IH]; intros w; [apply only_removed_refl|].
  cbn [TelegramCollector.commands_batch].
  set (w1 := observe u (advance u w)).
  assert (H1 : only_removed w w1).
  { split; [done|]. split; [reflexivity|]. by repeat split. }
  assert (Hnext : forall w2, only_removed w1 w2 ->
            only_removed w
              (TelegramCollector.commands_batch answer_fails chat l w2)).
  { intros w2 H2. eapply only_removed_trans; [exact H1|].
    eapply only_removed_trans; [exact H2|]. apply IH. }
  repeat case_match; apply Hnext;
    first
      [ apply only_removed_refl
      | apply handle_callback_only_removes
      | apply list_only_removes
      | apply confirm_download_only_removes
      | apply cleanup_confirmed_only_removes
      | apply only_removed_sent, only_removed_refl ].
Qed.

End CommandsRemove.

(** X19.  The download commands only ever remove.  Whatever the server
    hands out, one round of [handle_download_commands] adds no entry to the
    pending mapping and changes none that it keeps, creates no file, and
    leaves the cancellation marker and the production records alone. *)
Theorem download_commands_only_remove (feed : nat -> request -> response)
    (answer_fails : string -> bool) (chat : option string) (w : world) :
  only_removed w
    (TelegramCollector.handle_download_commands feed answer_fails chat w).
Proof.
  unfold TelegramCollector.handle_download_commands.
  pose proof (get_updates_files feed (update_offset w) 0 w) as (Hf & Hm & _).
  destruct (TelegramCollector.get_updates feed (update_offset w) 0 w)
    as [[| |l] w1]; simpl in Hf, Hm;
    destruct Hf as (Hp & Hd & Hl & Hprod);
    assert (H1 : only_removed w w1) by by apply only_removed_same.
  - done.
  - done.
  - eapply only_removed_trans; [exact H1|].
    apply commands_batch_only_removes.
Qed.
